(** * Anti-Turing-Test scoring pipeline: a shallow embedding

    The development follows the TypeScript sources of the analysis
    pipeline:

    - [src/app/modules/semanticAnalysisEngine.ts]  (lexical analyzer),
    - [src/app/modules/aiSimilarityScoring.ts]     (three local scorers and
      their aggregator),
    - [src/app/modules/innovationFeatureMatrix.ts] (six feature judges and
      their aggregator),
    - [src/app/api/analyze/route.ts]               (the [POST] handler).

    JavaScript numbers are idealised: a finite double is a real number, and
    the three special values [NaN], [Infinity] and [-Infinity] are kept, so
    that a division by zero behaves as it does in the program.  The values
    are those of the program up to rounding.  Where a comparison on a
    computed sum picks a label or a sentence, the sum is evaluated in
    binary64 as the program does ([Binary64], [timeScore64],
    [combineScores64], [classify64]).  Strings are sequences of code units
    below 256. *)

From Stdlib Require Import Floats.
From Stdlib Require Import Reals Lra Lia List String Ascii Bool Arith ZArith.
Import ListNotations.

Set Implicit Arguments.
Set Warnings "-inexact-float".

(* ================================================================== *)
(** * JavaScript numbers *)
(* ================================================================== *)

Module JS.

Inductive number : Type :=
| NaN
| PInf
| NInf
| Fin (x : R).

Definition of_nat (n : nat) : number := Fin (INR n).

Inductive sign : Type := Neg | Zero | Pos.

Definition Rsign (x : R) : sign :=
  if Rlt_dec 0 x then Pos else if Rlt_dec x 0 then Neg else Zero.

Definition neg (a : number) : number :=
  match a with
  | NaN => NaN
  | PInf => NInf
  | NInf => PInf
  | Fin x => Fin (- x)
  end.

(** [a + b] *)
Definition add (a b : number) : number :=
  match a, b with
  | NaN, _ | _, NaN => NaN
  | PInf, NInf | NInf, PInf => NaN
  | PInf, _ | _, PInf => PInf
  | NInf, _ | _, NInf => NInf
  | Fin x, Fin y => Fin (x + y)
  end.

(** [a - b] *)
Definition sub (a b : number) : number :=
  match a, b with
  | NaN, _ | _, NaN => NaN
  | PInf, PInf | NInf, NInf => NaN
  | PInf, _ | _, NInf => PInf
  | NInf, _ | _, PInf => NInf
  | Fin x, Fin y => Fin (x - y)
  end.

Definition scale_inf (positive : bool) (s : sign) : number :=
  match s with
  | Zero => NaN
  | Pos => if positive then PInf else NInf
  | Neg => if positive then NInf else PInf
  end.

(** [a * b] *)
Definition mul (a b : number) : number :=
  match a, b with
  | NaN, _ | _, NaN => NaN
  | PInf, PInf | NInf, NInf => PInf
  | PInf, NInf | NInf, PInf => NInf
  | PInf, Fin y | Fin y, PInf => scale_inf true (Rsign y)
  | NInf, Fin y | Fin y, NInf => scale_inf false (Rsign y)
  | Fin x, Fin y => Fin (x * y)
  end.

(** [a / b]; the zero of the model is the positive zero. *)
Definition div (a b : number) : number :=
  match a, b with
  | NaN, _ | _, NaN => NaN
  | (PInf | NInf), (PInf | NInf) => NaN
  | Fin _, (PInf | NInf) => Fin 0
  | PInf, Fin y => match Rsign y with Neg => NInf | _ => PInf end
  | NInf, Fin y => match Rsign y with Neg => PInf | _ => NInf end
  | Fin x, Fin y =>
      match Rsign y with
      | Zero => match Rsign x with
                | Zero => NaN
                | Pos => PInf
                | Neg => NInf
                end
      | _ => Fin (x / y)
      end
  end.

(** [a <= b] *)
Definition leb (a b : number) : bool :=
  match a, b with
  | NaN, _ | _, NaN => false
  | NInf, _ | _, PInf => true
  | PInf, _ | _, NInf => false
  | Fin x, Fin y => if Rle_dec x y then true else false
  end.

(** [a < b] *)
Definition ltb (a b : number) : bool :=
  match a, b with
  | NaN, _ | _, NaN => false
  | PInf, _ | _, NInf => false
  | NInf, _ | _, PInf => true
  | Fin x, Fin y => if Rlt_dec x y then true else false
  end.

(** [a >= b] and [a > b] *)
Definition geb (a b : number) : bool := leb b a.
Definition gtb (a b : number) : bool := ltb b a.

Definition Math_max (a b : number) : number :=
  match a, b with
  | NaN, _ | _, NaN => NaN
  | _, _ => if ltb a b then b else a
  end.

Definition Math_min (a b : number) : number :=
  match a, b with
  | NaN, _ | _, NaN => NaN
  | _, _ => if ltb b a then b else a
  end.

Definition Math_sqrt (a : number) : number :=
  match a with
  | NaN | NInf => NaN
  | PInf => PInf
  | Fin x => if Rlt_dec x 0 then NaN else Fin (sqrt x)
  end.

(** [Math.round]: the nearest integer, halves going up. *)
Definition Math_round (a : number) : number :=
  match a with
  | Fin x => Fin (IZR (Int_part (x + / 2)))
  | _ => a
  end.

Definition is_integer (y : R) : bool :=
  if Req_dec_T y (IZR (Int_part y)) then true else false.

Definition is_odd_integer (y : R) : bool :=
  is_integer y && Z.odd (Int_part y).

(** [Math.pow(b, y)] for a finite exponent [y], which is all the program
    uses (the exponents are the literals [2] and [1.5]). *)
Definition Math_pow (b : number) (y : R) : number :=
  if Req_dec_T y 0 then Fin 1 else
  match b with
  | NaN => NaN
  | PInf => if Rlt_dec 0 y then PInf else Fin 0
  | NInf => if Rlt_dec 0 y
            then (if is_odd_integer y then NInf else PInf)
            else Fin 0
  | Fin x =>
      match Rsign x with
      | Pos => Fin (Rpower x y)
      | Zero => if Rlt_dec 0 y then Fin 0 else PInf
      | Neg => if is_integer y
               then Fin ((if Z.odd (Int_part y) then -1 else 1)
                         * Rpower (- x) y)
               else NaN
      end
  end.

End JS.

(* ================================================================== *)
(** * JavaScript numbers as the program holds them: binary64 *)
(* ================================================================== *)

Module Binary64.

Local Open Scope float_scope.

(** [Math.max(a, b)] and [Math.min(a, b)]: [NaN] when an argument is
    [NaN]; of the two zeros, the positive one is the greater. *)
Definition Math_max (a b : float) : float :=
  if is_nan a || is_nan b then nan
  else if a <? b then b
  else if b <? a then a
  else if get_sign a then b else a.

Definition Math_min (a b : float) : float :=
  if is_nan a || is_nan b then nan
  else if a <? b then a
  else if b <? a then b
  else if get_sign a then a else b.

End Binary64.

(* ================================================================== *)
(** * JavaScript strings and regular expressions *)
(* ================================================================== *)

Module Str.

Local Open Scope string_scope.

Definition code (c : ascii) : N := N_of_ascii c.

Definition in_range (lo hi : N) (c : ascii) : bool :=
  (lo <=? code c)%N && (code c <=? hi)%N.

(** [\d], [\w] and [\s] on code units below 256. *)
Definition is_digit (c : ascii) : bool := in_range 48 57 c.

Definition is_word (c : ascii) : bool :=
  in_range 65 90 c || in_range 97 122 c || is_digit c || (code c =? 95)%N.

Definition is_space (c : ascii) : bool :=
  in_range 9 13 c || (code c =? 32)%N || (code c =? 160)%N.

Definition lower_char (c : ascii) : ascii :=
  if in_range 65 90 c
     || (in_range 192 222 c && negb (code c =? 215)%N)
  then ascii_of_N (code c + 32)
  else c.

(** [s.toLowerCase()] *)
Fixpoint toLowerCase (s : string) : string :=
  match s with
  | EmptyString => EmptyString
  | String c s' => String (lower_char c) (toLowerCase s')
  end.

(** [s.includes(sub)] *)
Fixpoint includes (s sub : string) : bool :=
  prefix sub s ||
  match s with
  | EmptyString => false
  | String _ s' => includes s' sub
  end.

Fixpoint trimStart (s : string) : string :=
  match s with
  | String c s' => if is_space c then trimStart s' else s
  | EmptyString => EmptyString
  end.

Fixpoint rev_string (acc s : string) : string :=
  match s with
  | EmptyString => acc
  | String c s' => rev_string (String c acc) s'
  end.

(** [s.trim()] *)
Definition trim (s : string) : string :=
  rev_string "" (trimStart (rev_string "" (trimStart s))).

(** Truthiness of a string: only the empty string is falsy. *)
Definition truthy (s : string) : bool :=
  match s with
  | EmptyString => false
  | String _ _ => true
  end.

Definition head (s : string) : option ascii :=
  match s with
  | EmptyString => None
  | String c _ => Some c
  end.

End Str.

Module RegExp.

Import Str.
Local Open Scope string_scope.

(** The fragment of the regular-expression syntax the program uses.
    A bounded repetition [r{m,n}] is written out with [Seq] and [Alt];
    [r+] is [Seq r (Star r)]; repetitions are greedy and alternatives are
    tried from the left, as a backtracking matcher does. *)
Inductive regex : Type :=
| Eps
| Chr (p : ascii -> bool)
| Seq (r1 r2 : regex)
| Alt (r1 r2 : regex)
| Star (r : regex)
| WordBoundary
| Group (r : regex).

Definition is_word_at (c : option ascii) : bool :=
  match c with
  | Some c => is_word c
  | None => false
  end.

(** [exec r prev s cap k]: match [r] at the front of [s], the code unit
    before it being [prev]; [cap] is the text of the capture group so far;
    the continuation [k] receives what is left. *)
Fixpoint exec (A : Type) (r : regex) (prev : option ascii) (s : string)
    (cap : option string)
    (k : option ascii -> string -> option string -> option A)
    {struct r} : option A :=
  match r with
  | Eps => k prev s cap
  | Chr p =>
      match s with
      | String c s' => if p c then k (Some c) s' cap else None
      | EmptyString => None
      end
  | Seq r1 r2 =>
      exec r1 prev s cap (fun prev' s' cap' => exec r2 prev' s' cap' k)
  | Alt r1 r2 =>
      match exec r1 prev s cap k with
      | Some a => Some a
      | None => exec r2 prev s cap k
      end
  | Star r1 =>
      (fix loop (fuel : nat) (prev : option ascii) (s : string)
           (cap : option string) {struct fuel} : option A :=
         match fuel with
         | O => k prev s cap
         | S fuel' =>
             match exec r1 prev s cap
                     (fun prev' s' cap' =>
                        if (String.length s' <? String.length s)%nat
                        then loop fuel' prev' s' cap'
                        else None) with
             | Some a => Some a
             | None => k prev s cap
             end
         end) (String.length s) prev s cap
  | WordBoundary =>
      if xorb (is_word_at prev) (is_word_at (head s))
      then k prev s cap
      else None
  | Group r1 =>
      exec r1 prev s cap
        (fun prev' s' _ =>
           k prev' s'
             (Some (substring 0 (String.length s - String.length s') s)))
  end.

(** A match starting exactly here: the rest of the string and the capture. *)
Definition match_here (r : regex) (prev : option ascii) (s : string)
  : option (string * option string) :=
  exec r prev s None (fun _ s' cap => Some (s', cap)).

(** The leftmost match. *)
Fixpoint search (r : regex) (prev : option ascii) (s : string)
  : option (string * option string) :=
  match match_here r prev s with
  | Some m => Some m
  | None =>
      match s with
      | EmptyString => None
      | String c s' => search r (Some c) s'
      end
  end.

(** [r.test(s)] *)
Definition test (r : regex) (s : string) : bool :=
  match search r None s with
  | Some _ => true
  | None => false
  end.

(** [s.match(r)] for a pattern with one capture group: [None] is [null],
    otherwise the text of group 1. *)
Definition match_group1 (r : regex) (s : string) : option string :=
  match search r None s with
  | Some (_, Some g) => Some g
  | Some (_, None) => Some ""
  | None => None
  end.

(** [s.split(r)]: [cur] is the piece being read, [skip] the number of code
    units of the separator that are still to be passed over. *)
Fixpoint split_from (r : regex) (prev : option ascii) (s : string)
    (skip : nat) (cur : string) : list string :=
  match s with
  | EmptyString => [cur]
  | String c s' =>
      match skip with
      | S n => split_from r (Some c) s' n cur
      | O =>
          match match_here r prev s with
          | Some (rest, _) =>
              match (String.length s - String.length rest)%nat with
              | S n => cur :: split_from r (Some c) s' n ""
              | O =>
                  if truthy cur
                  then cur :: split_from r (Some c) s' 0 (String c "")
                  else split_from r (Some c) s' 0 (String c "")
              end
          | None => split_from r (Some c) s' 0 (cur ++ String c "")
          end
      end
  end.

Definition split (r : regex) (s : string) : list string :=
  match s with
  | EmptyString =>
      match match_here r None "" with
      | Some _ => []
      | None => [""]
      end
  | _ => split_from r None s 0 ""
  end.

(** Pattern builders. *)
Definition plus (r : regex) : regex := Seq r (Star r).
Definition opt (r : regex) : regex := Alt r Eps.
Definition one_of (cs : string) : regex :=
  Chr (fun c => includes cs (String c "")).
Definition none_of (p : ascii -> bool) : regex := Chr (fun c => negb (p c)).
Definition digit : regex := Chr is_digit.

(** [r{1,2}] and [r{2,4}] *)
Definition rep_1_2 (r : regex) : regex := Seq r (opt r).
Definition rep_2_4 (r : regex) : regex := Seq r (Seq r (opt (Seq r (opt r)))).

(** A literal; with the [i] flag the comparison ignores case. *)
Fixpoint literal (ignore_case : bool) (s : string) : regex :=
  match s with
  | EmptyString => Eps
  | String c s' =>
      Seq (Chr (fun d => if ignore_case
                         then Ascii.eqb (lower_char d) (lower_char c)
                         else Ascii.eqb d c))
          (literal ignore_case s')
  end.

End RegExp.

(* ================================================================== *)
(** * The host: built-ins and third-party libraries *)
(* ================================================================== *)

Import JS.

Module Host.

Import Str RegExp.
Local Open Scope string_scope.

(** What [try { ... } catch] sees: a value or a thrown exception. *)
Inductive result (A : Type) : Type :=
| Ok (a : A)
| Throw (e : string).

Arguments Ok {A} a.
Arguments Throw {A} e.

(** [parseFloat] on a string of digits and dots, which is what group 1 of
    the score pattern holds: the longest prefix [digits], [digits.digits],
    [digits.] or [.digits]; [NaN] when that prefix has no digit. *)
Fixpoint take_digits (s : string) (acc : N) (count : nat)
  : N * nat * string :=
  match s with
  | String c s' =>
      if is_digit c
      then take_digits s' (10 * acc + (code c - 48))%N (S count)
      else (acc, count, s)
  | EmptyString => (acc, count, s)
  end.

Definition parseFloat (s : string) : number :=
  let '(i, ni, rest) := take_digits s 0%N 0%nat in
  match rest with
  | String "."%char rest' =>
      let '(f, nf, _) := take_digits rest' 0%N 0%nat in
      if (ni + nf =? 0)%nat then NaN
      else Fin (IZR (Z.of_N i * 10 ^ Z.of_nat nf + Z.of_N f)
                / IZR (10 ^ Z.of_nat nf))
  | _ => if (ni =? 0)%nat then NaN else Fin (IZR (Z.of_N i))
  end.

(** [natural.WordTokenizer]: the text is split at every run of code units
    outside [A-Za-z0-9_] (the library's class also lists the Cyrillic
    letters, which lie beyond code unit 255), and the pieces [''] and
    [' '] are dropped. *)
Definition WordTokenizer_pattern : regex := plus (none_of is_word).

Definition tokenize (s : string) : list string :=
  filter (fun t => negb (t =? "") && negb (t =? " "))
         (split WordTokenizer_pattern s).

(** The names every plain object inherits from [Object.prototype]: reading
    [obj[name]] gives the inherited member when [obj] has no own property
    of that name. *)
Definition Object_prototype_names : list string :=
  [ "constructor"; "__defineGetter__"; "__defineSetter__";
    "hasOwnProperty"; "__lookupGetter__"; "__lookupSetter__";
    "isPrototypeOf"; "propertyIsEnumerable"; "toString"; "valueOf";
    "__proto__"; "toLocaleString" ].

Definition inherited (name : string) : bool :=
  existsb (String.eqb name) Object_prototype_names.

(** The parts of the third-party libraries and of the number formatting
    that are taken as given: the Porter stemmer and the TF-IDF ranking of
    [natural], the compound polarity of [vader-sentiment], and the
    conversion of a number to text. *)
Class Lib : Type := {
  (** [natural.PorterStemmer.stem(word)] *)
  PorterStemmer_stem : string -> string;
  (** [vader.SentimentIntensityAnalyzer.polarity_scores(s).compound] *)
  polarity_compound : string -> number;
  (** [t = new TfIdf(); t.addDocument(tokens); t.listTerms(0)] *)
  TfIdf_listTerms_tokens : list string -> list (string * number);
  (** [t = new TfIdf(); t.addDocument(text); t.listTerms(0)] *)
  TfIdf_listTerms_text : string -> list (string * number);
  (** [String(x)], as a template literal does *)
  Number_toString : number -> string;
  (** [x.toFixed(digits)] *)
  Number_toFixed : number -> nat -> string
}.

(** [arr.reduce((sum, x) => sum + x, 0)] *)
Definition sum (xs : list number) : number := fold_left add xs (Fin 0).

(** [new Set(xs).size] *)
Definition Set_size (xs : list string) : nat :=
  List.length (nodup string_dec xs).

End Host.

Import Host.

(** [text.split(/[.!?]+/).filter(s => s.trim().length > 0)], which both the
    lexical analyzer and the request handler compute. *)
Definition sentencePattern : RegExp.regex := RegExp.plus (RegExp.one_of ".!?").

Definition splitSentences (text : string) : list string :=
  filter (fun s => (0 <? String.length (Str.trim s))%nat)
         (RegExp.split sentencePattern text).

(* ================================================================== *)
(** * semanticAnalysisEngine.ts *)
(* ================================================================== *)

Module SemanticAnalysisEngine.

Section WithLib.
Context {L : Lib}.

Record TextStructure : Type := {
  lexicalDiversity : number;
  avgSentenceLength : number;
  keyTerms : list (string * number);
  tokenCount : nat;
  sentenceCount : nat
}.

Definition analyzeTextStructure (text : string) : TextStructure :=
  let tokens := tokenize text in
  let uniqueTokens :=
    Set_size (map (fun token => PorterStemmer_stem (Str.toLowerCase token))
                  tokens) in
  let lexicalDiversity :=
    div (of_nat uniqueTokens) (of_nat (List.length tokens)) in
  let sentences := splitSentences text in
  let avgSentenceLength :=
    div (of_nat (List.length tokens)) (of_nat (List.length sentences)) in
  let keyTerms := firstn 5 (TfIdf_listTerms_text text) in
  {| lexicalDiversity := lexicalDiversity;
     avgSentenceLength := avgSentenceLength;
     keyTerms := keyTerms;
     tokenCount := List.length tokens;
     sentenceCount := List.length sentences |}.

End WithLib.

End SemanticAnalysisEngine.

(* ================================================================== *)
(** * aiSimilarityScoring.ts *)
(* ================================================================== *)

Module AISimilarityScoring.

Local Open Scope string_scope.

Section WithLib.
Context {L : Lib}.

Definition getAcademicWordList : list string :=
  [ "analyze"; "assess"; "concept"; "context"; "contrast"; "derive";
    "distribute"; "environment"; "establish"; "estimate"; "evaluate";
    "factor"; "function"; "identify"; "interpret"; "involve"; "method";
    "occur"; "principle"; "proceed"; "process"; "require"; "research";
    "respond"; "significant"; "similar"; "specific"; "structure"; "theory";
    "variable" ].

Definition connectorWords : list string :=
  [ "therefore"; "however"; "moreover"; "consequently"; "furthermore";
    "nevertheless"; "thus"; "hence"; "accordingly"; "besides" ].

Definition stemLower (token : string) : string :=
  PorterStemmer_stem (Str.toLowerCase token).

(** The tokens whose stem is the stem of a word of the list. *)
Definition wordsInText (words stemmedTokens : list string) : list string :=
  filter (fun token =>
            existsb (fun word => stemLower word =? token) words)
         stemmedTokens.

(** [markovChain] is a plain object used as a map from a stem to the array
    of the stems that follow it; own properties are kept in insertion order. *)
Definition chain : Type := list (string * list string).

Fixpoint own (m : chain) (key : string) : option (list string) :=
  match m with
  | [] => None
  | (k, v) :: m' => if k =? key then Some v else own m' key
  end.

Fixpoint push (m : chain) (key next : string) : chain :=
  match m with
  | [] => []
  | (k, v) :: m' =>
      if k =? key then (k, (v ++ [next])%list) :: m'
      else (k, v) :: push m' key next
  end.

(** The loop [for (i = 0; i < stemmedTokens.length - 1; i++)].  When the
    stem is not an own property but names a member of [Object.prototype],
    [markovChain[currentToken]] is that member, the array is not created,
    and the call of its [push] throws a [TypeError]. *)
Fixpoint buildMarkovChain (stemmedTokens : list string) (m : chain)
  : result chain :=
  match stemmedTokens with
  | currentToken :: ((nextToken :: _) as rest) =>
      match own m currentToken with
      | Some _ => buildMarkovChain rest (push m currentToken nextToken)
      | None =>
          if inherited currentToken
          then Throw "TypeError: markovChain[...].push is not a function"
          else buildMarkovChain rest (m ++ [(currentToken, [nextToken])])%list
      end
  | _ => Ok m
  end.

(** The loop [for (const token in markovChain)]: the pair
    [(totalTransitionOptions, tokenCount)]. *)
Definition transitionOptions (m : chain) : nat * nat :=
  fold_left (fun '(total, count) '(_, nexts) =>
               ((total + Set_size nexts)%nat, S count))
            m (0%nat, 0%nat).

Definition calculateVocabularyComplexity (text : string) : result number :=
  let tokens := tokenize text in
  let stemmedTokens := map stemLower tokens in
  let academicWordsInText := wordsInText getAcademicWordList stemmedTokens in
  let academicWordDensity :=
    div (of_nat (List.length academicWordsInText))
        (of_nat (List.length tokens)) in
  let connectorWordsInText := wordsInText connectorWords stemmedTokens in
  let connectorWordFrequency :=
    div (of_nat (List.length connectorWordsInText))
        (of_nat (List.length tokens)) in
  match buildMarkovChain stemmedTokens [] with
  | Throw e => Throw e
  | Ok markovChain =>
      let '(totalTransitionOptions, tokenCount) :=
        transitionOptions markovChain in
      let averageTransitionOptions :=
        if (0 <? tokenCount)%nat
        then div (of_nat totalTransitionOptions) (of_nat tokenCount)
        else Fin 0 in
      let normalizedTransitionScore :=
        Math_min (div averageTransitionOptions (Fin 5)) (Fin 1) in
      Ok (add (add (mul academicWordDensity (Fin 0.4))
                   (mul connectorWordFrequency (Fin 0.3)))
              (mul normalizedTransitionScore (Fin 0.3)))
  end.

Definition calculateEmotionalFluctuation (textSegments : list string)
  : number :=
  if (List.length textSegments <? 2)%nat then Fin 0
  else
    let sentimentScores := map polarity_compound textSegments in
    let mean :=
      div (sum sentimentScores) (of_nat (List.length sentimentScores)) in
    let squaredDifferences :=
      map (fun score => Math_pow (sub score mean) 2) sentimentScores in
    let variance :=
      div (sum squaredDifferences) (of_nat (List.length sentimentScores)) in
    let standardDeviation := Math_sqrt variance in
    Math_min (div standardDeviation (Fin 0.5)) (Fin 1).

(** The key concepts of a segment: its three best-ranked stems. *)
Definition segmentConcept (segment : string) : list string :=
  let tokens := tokenize segment in
  let stemmedTokens := map stemLower tokens in
  map fst (firstn 3 (TfIdf_listTerms_tokens stemmedTokens)).

(** The loop over the consecutive pairs of [segmentConcepts]. *)
Fixpoint totalJumpDistance (segmentConcepts : list (list string))
    (total : number) : number :=
  match segmentConcepts with
  | currentConcepts :: ((nextConcepts :: _) as rest) =>
      let commonConcepts :=
        filter (fun concept => existsb (String.eqb concept) nextConcepts)
               currentConcepts in
      let similarityScore :=
        div (of_nat (List.length commonConcepts))
            (Math_max (of_nat (List.length currentConcepts))
                      (of_nat (List.length nextConcepts))) in
      let jumpDistance := sub (Fin 1) similarityScore in
      totalJumpDistance rest (add total jumpDistance)
  | _ => total
  end.

Definition calculateCreativeDivergence (textSegments : list string)
  : number :=
  if (List.length textSegments <? 2)%nat then Fin 0
  else
    let segmentConcepts := map segmentConcept textSegments in
    let averageJumpDistance :=
      div (totalJumpDistance segmentConcepts (Fin 0))
          (of_nat (List.length segmentConcepts - 1)) in
    Math_min (mul averageJumpDistance (Fin 1.5)) (Fin 1).

Definition invertAIScore (aiScore : number) : number :=
  sub (Fin 1) (Math_pow aiScore 1.5).

Definition calculateOverallScore
    (vocabularyComplexity emotionalFluctuation creativeDivergence : number)
  : number :=
  let invertedVocabularyScore := invertAIScore vocabularyComplexity in
  let invertedEmotionalScore := invertAIScore emotionalFluctuation in
  let invertedCreativeScore := invertAIScore creativeDivergence in
  add (add (mul invertedVocabularyScore (Fin 0.3))
           (mul invertedEmotionalScore (Fin 0.4)))
      (mul invertedCreativeScore (Fin 0.3)).

End WithLib.

End AISimilarityScoring.

(* ================================================================== *)
(** * innovationFeatureMatrix.ts *)
(* ================================================================== *)

Module InnovationFeatureMatrix.

Import Str RegExp.
Local Open Scope string_scope.

Record FeatureResult : Type := {
  score : number;
  analysis : string;
  humanVsAI : string
}.

(** What [await grok.chat(...)] gives: the call is rejected, or it resolves
    to a response whose [choices] carry the [message.content] of each
    choice ([None] when the content is missing). *)
Inductive chat_outcome : Type :=
| Rejected (error : string)
| Resolved (choices : list (option string)).

Definition nl : string := String (ascii_of_nat 10) "".

(** [/score:?\s*([0-9.]+)/i] *)
Definition scorePattern : regex :=
  Seq (literal true "score")
      (Seq (opt (one_of ":"))
           (Seq (Star (Chr is_space))
                (Group (plus (Chr (fun c => is_digit c
                                            || Ascii.eqb c "."%char)))))).

(** The result of the [catch] branch of a judge. *)
Definition errorResult (dimension rubric : string) : FeatureResult :=
  {| score := Fin 0.5;
     analysis := "Error analyzing " ++ dimension;
     humanVsAI := rubric |}.

(** The body shared by the five judges that ask the language model; they
    differ in the prompt (which decides the [reply]), in the name of the
    dimension and in the [humanVsAI] text.  Reading [choices[0].message]
    of a response without choices throws, inside the [try]. *)
Definition judge (dimension rubric : string) (reply : chat_outcome)
  : FeatureResult :=
  match reply with
  | Rejected _ => errorResult dimension rubric
  | Resolved [] => errorResult dimension rubric
  | Resolved (content :: _) =>
      let analysisText :=
        match content with
        | Some s => s
        | None => ""
        end in
      let scoreMatch := match_group1 scorePattern analysisText in
      let score :=
        match scoreMatch with
        | Some group1 => parseFloat group1
        | None => Fin 0.5
        end in
      {| score := Math_min (Math_max score (Fin 0)) (Fin 1);
         analysis := analysisText;
         humanVsAI := rubric |}
  end.

Definition semanticElasticityRubric : string :=
  "Human: topic natural transitions, acknowledges knowledge gaps" ++ nl ++
  "AI: rigid logical structure, overuses transition phrases".

Definition emotionalExpressionRubric : string :=
  "Human: micro-emotional fluctuations, asymmetric responses" ++ nl ++
  "AI: flat emotional tone, excessive political correctness".

Definition referenceAbilityRubric : string :=
  "Human: concrete examples, idiosyncratic details" ++ nl ++
  "AI: generic examples, references to studies".

Definition ambiguityHandlingRubric : string :=
  "Human: temporary contradictions, self-correction" ++ nl ++
  "AI: forced consistency, avoidance of uncertainty".

Definition creativeThinkingRubric : string :=
  "Human: cross-domain analogies, imperfect but novel ideas" ++ nl ++
  "AI: pattern-based innovation, formulaic creativity".

Definition timePerceptionRubric : string :=
  "Human: reasonable delays, vague time references" ++ nl ++
  "AI: instant responses, precise time references".

Definition analyzeSemanticElasticity (reply : chat_outcome) : FeatureResult :=
  judge "semantic elasticity" semanticElasticityRubric reply.

Definition analyzeEmotionalExpression (reply : chat_outcome) : FeatureResult :=
  judge "emotional expression" emotionalExpressionRubric reply.

Definition analyzeReferenceAbility (reply : chat_outcome) : FeatureResult :=
  judge "reference ability" referenceAbilityRubric reply.

Definition analyzeAmbiguityHandling (reply : chat_outcome) : FeatureResult :=
  judge "ambiguity handling" ambiguityHandlingRubric reply.

Definition analyzeCreativeThinking (reply : chat_outcome) : FeatureResult :=
  judge "creative thinking" creativeThinkingRubric reply.

Definition timeExpressions : list string :=
  [ "recently"; "lately"; "the other day"; "last week"; "a while ago";
    "a few days ago"; "some time ago"; "earlier"; "previously" ].

(** [/\b\d{1,2}[\/\.-]\d{1,2}[\/\.-]\d{2,4}\b/] *)
Definition preciseDatePattern : regex :=
  Seq WordBoundary
      (Seq (rep_1_2 digit)
           (Seq (one_of "/.-")
                (Seq (rep_1_2 digit)
                     (Seq (one_of "/.-")
                          (Seq (rep_2_4 digit) WordBoundary))))).

(** [/\b\d{1,2}:\d{2}\b/] *)
Definition preciseTimePattern : regex :=
  Seq WordBoundary
      (Seq (rep_1_2 digit)
           (Seq (one_of ":")
                (Seq digit (Seq digit WordBoundary)))).

Definition averageDelay (responseDelays : list number) : number :=
  if (0 <? List.length responseDelays)%nat
  then div (sum responseDelays) (of_nat (List.length responseDelays))
  else Fin 0.

Definition hasVagueTimeReferences (text : string) : bool :=
  existsb (fun expr => includes (toLowerCase text) expr) timeExpressions.

Definition hasPreciseTimeReferences (text : string) : bool :=
  test preciseDatePattern text || test preciseTimePattern text.

(** The score before [Math.min(Math.max(score, 0), 1)]. *)
Definition timeScore (avgDelay : number) (vague precise : bool) : number :=
  let score := Fin 0.5 in
  let score :=
    if geb avgDelay (Fin 1200) && leb avgDelay (Fin 3400)
    then add score (Fin 0.2)
    else if ltb avgDelay (Fin 500)
         then sub score (Fin 0.2)
         else score in
  let score := if vague then add score (Fin 0.15) else score in
  let score := if precise then sub score (Fin 0.15) else score in
  score.

(** The same additions and subtractions as the program makes them, in
    binary64, followed by [Math.min(Math.max(score, 0), 1)]: the double
    that [score > 0.7] and [score < 0.3] are asked of. *)
Definition timeScore64 (avgDelay : number) (vague precise : bool) : float :=
  let score := 0.5%float in
  let score :=
    if geb avgDelay (Fin 1200) && leb avgDelay (Fin 3400)
    then (score + 0.2)%float
    else if ltb avgDelay (Fin 500)
         then (score - 0.2)%float
         else score in
  let score := if vague then (score + 0.15)%float else score in
  let score := if precise then (score - 0.15)%float else score in
  Binary64.Math_min (Binary64.Math_max score 0%float) 1%float.

Section WithLib.
Context {L : Lib}.

Definition analyzeTimePerception (text : string)
    (responseDelays : list number) : FeatureResult :=
  let avgDelay := averageDelay responseDelays in
  let vague := hasVagueTimeReferences text in
  let precise := hasPreciseTimeReferences text in
  let score := timeScore avgDelay vague precise in
  let score := Math_min (Math_max score (Fin 0)) (Fin 1) in
  let analysis := "Time perception analysis:" ++ nl in
  let analysis :=
    analysis ++ "- Average response delay: "
             ++ Number_toString (Math_round avgDelay) ++ "ms" ++ nl in
  let analysis :=
    analysis ++ "- Uses vague time references: "
             ++ (if vague then "Yes" else "No") ++ nl in
  let analysis :=
    analysis ++ "- Uses precise time references: "
             ++ (if precise then "Yes" else "No") ++ nl in
  let analysis :=
    analysis ++ "- Overall time perception score: "
             ++ Number_toFixed score 2 ++ nl in
  let score64 := timeScore64 avgDelay vague precise in
  let analysis :=
    if (0.7 <? score64)%float
    then analysis ++ "The text shows human-like time perception patterns."
    else if (score64 <? 0.3)%float
         then analysis ++ "The text shows AI-like time perception patterns."
         else analysis ++ "The text shows mixed time perception patterns." in
  {| score := score;
     analysis := analysis;
     humanVsAI := timePerceptionRubric |}.

End WithLib.

Record Scores : Type := {
  semanticElasticity : number;
  emotionalExpression : number;
  referenceAbility : number;
  ambiguityHandling : number;
  creativeThinking : number;
  timePerception : number
}.

Definition calculateOverallScore (scores : Scores) : number :=
  add (add (add (add (add
    (mul (semanticElasticity scores) (Fin 0.2))
    (mul (emotionalExpression scores) (Fin 0.2)))
    (mul (referenceAbility scores) (Fin 0.15)))
    (mul (ambiguityHandling scores) (Fin 0.15)))
    (mul (creativeThinking scores) (Fin 0.15)))
    (mul (timePerception scores) (Fin 0.15)).

(** The same sum on the doubles the program holds, the six products added
    from left to right. *)
Definition calculateOverallScore64
    (semanticElasticity emotionalExpression referenceAbility
     ambiguityHandling creativeThinking timePerception : float) : float :=
  ((semanticElasticity * 0.2) + (emotionalExpression * 0.2)
   + (referenceAbility * 0.15) + (ambiguityHandling * 0.15)
   + (creativeThinking * 0.15) + (timePerception * 0.15))%float.

End InnovationFeatureMatrix.

(* ================================================================== *)
(** * api/analyze/route.ts *)
(* ================================================================== *)

Module Route.

Import SemanticAnalysisEngine InnovationFeatureMatrix.
Local Open Scope string_scope.

(** The body of the request after [await request.json()]; a field that is
    missing or [null] is [None].  The fields have the types the page sends
    them with: a body that does not parse, or a text that is not a string,
    is not a [Request] (the handler answers both with status 500 from its
    outer [catch]). *)
Record Request : Type := {
  text : option string;
  responseDelays : option (list number);
  sessionId : option string
}.

(** The six dimensions of the innovation-feature matrix, in the order of
    the array given to [Promise.all]. *)
Inductive dimension : Type :=
| SemanticElasticity
| EmotionalExpression
| ReferenceAbility
| AmbiguityHandling
| CreativeThinking
| TimePerception.

(** What lies outside the process: the answer of the completion service to
    the request a judge makes for a text (the request of a judge is fixed by
    its dimension and the text), and whether the insertion into the store
    throws. *)
Record World : Type := {
  grok_chat : dimension -> string -> chat_outcome;
  supabase_insert_throws : bool
}.

(** The calls that leave the process, in the order they are made. *)
Inductive event : Type :=
| GrokChat (d : dimension) (text : string)
| SupabaseInsert (sessionId : string)
| MockAnalysisResultsPush (sessionId : string).

Module AiSimilarity.
Record t : Type := {
  vocabularyComplexity : number;
  emotionalFluctuation : number;
  creativeDivergence : number;
  overallScore : number
}.
End AiSimilarity.

Module InnovationFeatures.
Record t : Type := {
  semanticElasticity : FeatureResult;
  emotionalExpression : FeatureResult;
  referenceAbility : FeatureResult;
  ambiguityHandling : FeatureResult;
  creativeThinking : FeatureResult;
  timePerception : FeatureResult;
  overallScore : number
}.
End InnovationFeatures.

Record AnalysisReport : Type := {
  textStructure : TextStructure;
  aiSimilarity : AiSimilarity.t;
  innovationFeatures : InnovationFeatures.t;
  overallHumanLikenessScore : number;
  classification : string
}.

(** [NextResponse.json(body, { status })] *)
Inductive response : Type :=
| Status400 (error : string)
| Status500 (error : string)
| Status200 (report : AnalysisReport).

(** One turn of the loop [for (const sentence of sentences)], on the pair
    [(textSegments, currentSegment)]. *)
Definition groupStep (state : list string * string) (sentence : string)
  : list string * string :=
  let '(textSegments, currentSegment) := state in
  if (200 <? String.length currentSegment + String.length sentence)%nat
  then ((textSegments ++ [currentSegment])%list, sentence)
  else (textSegments,
        currentSegment ++ (if Str.truthy currentSegment then " " else "")
                       ++ sentence).

Definition groupSentences (sentences : list string) : list string :=
  let '(textSegments, currentSegment) :=
    fold_left groupStep sentences ([], "") in
  if Str.truthy currentSegment
  then (textSegments ++ [currentSegment])%list
  else textSegments.

Definition segmentText (text : string) : list string :=
  groupSentences (splitSentences text).

(** [(aiSimilarityScore * 0.4) + (innovationFeatureScore * 0.6)] *)
Definition combineScores (aiSimilarityScore innovationFeatureScore : number)
  : number :=
  add (mul aiSimilarityScore (Fin 0.4)) (mul innovationFeatureScore (Fin 0.6)).

Definition classify (overallHumanLikenessScore : number) : string :=
  if geb overallHumanLikenessScore (Fin 0.7) then "Human"
  else if leb overallHumanLikenessScore (Fin 0.3) then "AI"
  else "Ambiguous".

(** The same two steps on the doubles the program holds: each product and
    the sum are rounded, and the comparisons are those of binary64. *)
Definition combineScores64 (aiSimilarityScore innovationFeatureScore : float)
  : float :=
  ((aiSimilarityScore * 0.4) + (innovationFeatureScore * 0.6))%float.

Definition classify64 (overallHumanLikenessScore : float) : string :=
  if (0.7 <=? overallHumanLikenessScore)%float then "Human"
  else if (overallHumanLikenessScore <=? 0.3)%float then "AI"
  else "Ambiguous".

(** The value the [.catch] handler that the route attaches to the promise
    of a dimension returns. *)
Definition dimensionName (d : dimension) : string :=
  match d with
  | SemanticElasticity => "semantic elasticity"
  | EmotionalExpression => "emotional expression"
  | ReferenceAbility => "reference ability"
  | AmbiguityHandling => "ambiguity handling"
  | CreativeThinking => "creative thinking"
  | TimePerception => "time perception"
  end.

Definition dimensionRubric (d : dimension) : string :=
  match d with
  | SemanticElasticity =>
      "Human: topic natural transitions, acknowledges knowledge gaps" ++ nl ++
      "AI: rigid logical structure, overuses transition phrases"
  | EmotionalExpression =>
      "Human: micro-emotional fluctuations, asymmetric responses" ++ nl ++
      "AI: flat emotional tone, excessive political correctness"
  | ReferenceAbility =>
      "Human: concrete examples, idiosyncratic details" ++ nl ++
      "AI: generic examples, references to studies"
  | AmbiguityHandling =>
      "Human: temporary contradictions, self-correction" ++ nl ++
      "AI: forced consistency, avoidance of uncertainty"
  | CreativeThinking =>
      "Human: cross-domain analogies, imperfect but novel ideas" ++ nl ++
      "AI: pattern-based innovation, formulaic creativity"
  | TimePerception =>
      "Human: reasonable delays, vague time references" ++ nl ++
      "AI: instant responses, precise time references"
  end.

Definition catchResult (d : dimension) : FeatureResult :=
  {| score := Fin 0.5;
     analysis := "Error analyzing " ++ dimensionName d;
     humanVsAI := dimensionRubric d |}.

Section WithLib.
Context {L : Lib}.

(** The six promises given to [Promise.all].  No judge rejects (each one
    catches inside), so the [.catch] handlers of the route never run. *)
Definition runJudge (w : World) (text : string) (delays : list number)
    (d : dimension) : FeatureResult :=
  match d with
  | SemanticElasticity => analyzeSemanticElasticity (grok_chat w d text)
  | EmotionalExpression => analyzeEmotionalExpression (grok_chat w d text)
  | ReferenceAbility => analyzeReferenceAbility (grok_chat w d text)
  | AmbiguityHandling => analyzeAmbiguityHandling (grok_chat w d text)
  | CreativeThinking => analyzeCreativeThinking (grok_chat w d text)
  | TimePerception => analyzeTimePerception text delays
  end.

Definition judgeCalls (text : string) : list event :=
  [ GrokChat SemanticElasticity text; GrokChat EmotionalExpression text;
    GrokChat ReferenceAbility text; GrokChat AmbiguityHandling text;
    GrokChat CreativeThinking text ].

(** The block [if (sessionId) { try { insert } catch { mock } }]. *)
Definition storeCalls (w : World) (sessionId : option string) : list event :=
  match sessionId with
  | Some sid =>
      if Str.truthy sid
      then SupabaseInsert sid ::
           (if supabase_insert_throws w
            then [MockAnalysisResultsPush sid] else [])
      else []
  | None => []
  end.

Definition POST (w : World) (request : Request) : list event * response :=
  match text request with
  | None => ([], Status400 "Text is required")
  | Some text =>
      if negb (Str.truthy text) then ([], Status400 "Text is required")
      else
        let textSegments := segmentText text in
        let textStructure := analyzeTextStructure text in
        match AISimilarityScoring.calculateVocabularyComplexity text with
        | Throw _ => ([], Status500 "Failed to analyze text")
        | Ok vocabularyComplexity =>
            let emotionalFluctuation :=
              AISimilarityScoring.calculateEmotionalFluctuation textSegments in
            let creativeDivergence :=
              AISimilarityScoring.calculateCreativeDivergence textSegments in
            let aiSimilarityScore :=
              AISimilarityScoring.calculateOverallScore
                vocabularyComplexity emotionalFluctuation creativeDivergence in
            let delays :=
              match responseDelays request with
              | Some ds => ds
              | None => []
              end in
            let semanticElasticityResult :=
              runJudge w text delays SemanticElasticity in
            let emotionalExpressionResult :=
              runJudge w text delays EmotionalExpression in
            let referenceAbilityResult :=
              runJudge w text delays ReferenceAbility in
            let ambiguityHandlingResult :=
              runJudge w text delays AmbiguityHandling in
            let creativeThinkingResult :=
              runJudge w text delays CreativeThinking in
            let timePerceptionResult :=
              runJudge w text delays TimePerception in
            let innovationFeatureScore :=
              InnovationFeatureMatrix.calculateOverallScore
                {| InnovationFeatureMatrix.semanticElasticity :=
                     score semanticElasticityResult;
                   InnovationFeatureMatrix.emotionalExpression :=
                     score emotionalExpressionResult;
                   InnovationFeatureMatrix.referenceAbility :=
                     score referenceAbilityResult;
                   InnovationFeatureMatrix.ambiguityHandling :=
                     score ambiguityHandlingResult;
                   InnovationFeatureMatrix.creativeThinking :=
                     score creativeThinkingResult;
                   InnovationFeatureMatrix.timePerception :=
                     score timePerceptionResult |} in
            let overallHumanLikenessScore :=
              combineScores aiSimilarityScore innovationFeatureScore in
            let classification := classify overallHumanLikenessScore in
            ((judgeCalls text ++ storeCalls w (sessionId request))%list,
             Status200
               {| textStructure := textStructure;
                  aiSimilarity :=
                    {| AiSimilarity.vocabularyComplexity :=
                         vocabularyComplexity;
                       AiSimilarity.emotionalFluctuation :=
                         emotionalFluctuation;
                       AiSimilarity.creativeDivergence := creativeDivergence;
                       AiSimilarity.overallScore := aiSimilarityScore |};
                  innovationFeatures :=
                    {| InnovationFeatures.semanticElasticity :=
                         semanticElasticityResult;
                       InnovationFeatures.emotionalExpression :=
                         emotionalExpressionResult;
                       InnovationFeatures.referenceAbility :=
                         referenceAbilityResult;
                       InnovationFeatures.ambiguityHandling :=
                         ambiguityHandlingResult;
                       InnovationFeatures.creativeThinking :=
                         creativeThinkingResult;
                       InnovationFeatures.timePerception :=
                         timePerceptionResult;
                       InnovationFeatures.overallScore :=
                         innovationFeatureScore |};
                  overallHumanLikenessScore := overallHumanLikenessScore;
                  classification := classification |})
        end
  end.

(** The feature result a report holds for a dimension. *)
Definition feature (report : AnalysisReport) (d : dimension) : FeatureResult :=
  let f := innovationFeatures report in
  match d with
  | SemanticElasticity => InnovationFeatures.semanticElasticity f
  | EmotionalExpression => InnovationFeatures.emotionalExpression f
  | ReferenceAbility => InnovationFeatures.referenceAbility f
  | AmbiguityHandling => InnovationFeatures.ambiguityHandling f
  | CreativeThinking => InnovationFeatures.creativeThinking f
  | TimePerception => InnovationFeatures.timePerception f
  end.

End WithLib.

End Route.

(* ================================================================== *)
(** * Running the pipeline *)
(* ================================================================== *)

Module Sample.

Import Route InnovationFeatureMatrix.
Local Open Scope string_scope.

(** A stand-in for the libraries, so that the handler can be run on a given
    request: the stemmer leaves a word as it is, every segment is neutral,
    the terms of a document are its distinct tokens. *)
Definition lib : Lib := {|
  PorterStemmer_stem := fun word => word;
  polarity_compound := fun _ => Fin 0;
  TfIdf_listTerms_tokens :=
    fun tokens => map (fun t => (t, Fin 1)) (nodup string_dec tokens);
  TfIdf_listTerms_text :=
    fun text => map (fun t => (t, Fin 1))
                    (nodup string_dec (tokenize (Str.toLowerCase text)));
  Number_toString := fun _ => "n";
  Number_toFixed := fun _ _ => "n"
|}.

(** A completion service that is down, and a store that works. *)
Definition offline : World := {|
  grok_chat := fun _ _ => Rejected "ECONNREFUSED";
  supabase_insert_throws := false
|}.

(** A completion service that answers every judge with the same text. *)
Definition answering (reply : string) : World := {|
  grok_chat := fun _ _ => Resolved [Some reply];
  supabase_insert_throws := false
|}.

Fixpoint repeat_string (s : string) (n : nat) : string :=
  match n with
  | O => ""
  | S n' => s ++ repeat_string s n'
  end.

Definition lateRequest : Request :=
  {| text := Some "I was late. Sorry!";
     responseDelays := Some [Fin 1800; Fin 2400];
     sessionId := Some "session-1" |}.

Definition blankRequest : Request :=
  {| text := Some " "; responseDelays := None; sessionId := None |}.

End Sample.

(* ================================================================== *)
(** * semanticAnalysisEngine.ts: questions and response delays *)
(* ================================================================== *)

Module QuestionEngine.

Import InnovationFeatureMatrix.
Local Open Scope string_scope.

Definition questionCategories : list string :=
  [ "Workplace Conflicts"; "Emergency Responses"; "Ethical Dilemmas";
    "Creative Problem Solving"; "Personal Growth"; "Leadership Challenges";
    "Technical Decisions"; "Cultural Sensitivity"; "Future Planning";
    "Interpersonal Relationships" ].

(** The own properties of the object [questions]. *)
Definition questions : list (string * list string) :=
  [ ("Workplace Conflicts",
     [ "How would you handle a disagreement with a colleague about a project approach?";
       "What would you do if your manager assigned you a task that you believe is outside your job description?";
       "How would you address a team member who consistently misses deadlines?" ]);
    ("Emergency Responses",
     [ "How would you respond if a critical system went down during a major client presentation?";
       "What would you do if you discovered a major security vulnerability just before a product launch?";
       "How would you handle an unexpected crisis that requires immediate attention?" ]) ].

Definition defaultQuestion : string :=
  "Tell me about a challenging situation you faced and how you handled it.".

(** [response.choices[0].message.content || ''] inside [try], and [''] from
    the [catch] branch: the body shared by [generateAIAnswer] and
    [generateFollowUpQuestion]. *)
Definition contentOrEmpty (reply : chat_outcome) : string :=
  match reply with
  | Rejected _ => ""
  | Resolved [] => ""
  | Resolved (Some content :: _) => content
  | Resolved (None :: _) => ""
  end.

Definition generateAIAnswer (reply : chat_outcome) : string :=
  contentOrEmpty reply.

Definition generateFollowUpQuestion (reply : chat_outcome) : string :=
  contentOrEmpty reply.

Module DelayPattern.
Record t : Type := {
  averageDelay : number;
  isHumanLike : bool;
  confidenceScore : number
}.
End DelayPattern.

Definition analyzeResponseDelays (delayTimes : list number)
  : DelayPattern.t :=
  let averageDelay :=
    div (sum delayTimes) (of_nat (List.length delayTimes)) in
  let isWithinHumanRange :=
    geb averageDelay (Fin 1200) && leb averageDelay (Fin 3400) in
  let variance :=
    div (fold_left (fun sum time =>
                      add sum (Math_pow (sub time averageDelay) 2))
                   delayTimes (Fin 0))
        (of_nat (List.length delayTimes)) in
  let standardDeviation := Math_sqrt variance in
  let hasHumanVariation := gtb standardDeviation (Fin 500) in
  let isHumanLike := isWithinHumanRange && hasHumanVariation in
  let confidenceScore := Fin 0.5 in
  let confidenceScore :=
    if isWithinHumanRange then add confidenceScore (Fin 0.25)
    else confidenceScore in
  let confidenceScore :=
    if hasHumanVariation then add confidenceScore (Fin 0.25)
    else confidenceScore in
  {| DelayPattern.averageDelay := averageDelay;
     DelayPattern.isHumanLike := isHumanLike;
     DelayPattern.confidenceScore := confidenceScore |}.

(** [Math.floor(Math.random() * length)], [random] being what
    [Math.random()] returned. *)
Definition randomIndex (random : R) (length : nat) : nat :=
  Z.to_nat (Int_part (random * INR length)).

(** What [this.questions[category]] is: an own array, a member inherited
    from [Object.prototype] (a function, with its [length], or the
    prototype object itself for ["__proto__"]), or [undefined]. *)
Inductive property : Type :=
| OwnArray (categoryQuestions : list string)
| InheritedFunction (length : nat)
| InheritedObject
| Undefined.

Definition Object_prototype_functions : list (string * nat) :=
  [ ("constructor", 1); ("__defineGetter__", 2); ("__defineSetter__", 2);
    ("hasOwnProperty", 1); ("__lookupGetter__", 1); ("__lookupSetter__", 1);
    ("isPrototypeOf", 1); ("propertyIsEnumerable", 1); ("toString", 0);
    ("valueOf", 0); ("toLocaleString", 0) ].

Fixpoint assoc (A : Type) (key : string) (entries : list (string * A))
  : option A :=
  match entries with
  | [] => None
  | (k, v) :: rest => if k =? key then Some v else assoc key rest
  end.

Definition questionsOf (category : string) : property :=
  match assoc category questions with
  | Some categoryQuestions => OwnArray categoryQuestions
  | None =>
      match assoc category Object_prototype_functions with
      | Some length => InheritedFunction length
      | None => if category =? "__proto__" then InheritedObject else Undefined
      end
  end.

(** [getRandomQuestion(category)]; [random1] is the draw of the category
    (made when no category is given) and [random2] the draw of the
    question.  [None] is [undefined]. *)
Definition getRandomQuestion (category : option string)
    (random1 random2 : R) : option string :=
  let drawn :=
    match nth_error questionCategories
            (randomIndex random1 (List.length questionCategories)) with
    | Some c => c
    | None => "undefined"
    end in
  let category :=
    match category with
    | Some c => if Str.truthy c then c else drawn
    | None => drawn
    end in
  match questionsOf category with
  | OwnArray categoryQuestions =>
      if (List.length categoryQuestions =? 0)%nat then Some defaultQuestion
      else nth_error categoryQuestions
             (randomIndex random2 (List.length categoryQuestions))
  | InheritedFunction length =>
      if (length =? 0)%nat then Some defaultQuestion else None
  | InheritedObject => None
  | Undefined => Some defaultQuestion
  end.

End QuestionEngine.

(* ================================================================== *)
(** * The in-memory fallback store ([global.mock...]) *)
(* ================================================================== *)

Module MockStore.

Local Open Scope string_scope.

(** A [Map] with string keys, in insertion order. *)
Definition Map (V : Type) : Type := list (string * V).

Fixpoint get (V : Type) (m : Map V) (key : string) : option V :=
  match m with
  | [] => None
  | (k, v) :: rest => if k =? key then Some v else get rest key
  end.

Definition has (V : Type) (m : Map V) (key : string) : bool :=
  match get m key with
  | Some _ => true
  | None => false
  end.

Fixpoint set (V : Type) (m : Map V) (key : string) (value : V) : Map V :=
  match m with
  | [] => [(key, value)]
  | (k, v) :: rest =>
      if k =? key then (k, value) :: rest else (k, v) :: set rest key value
  end.

Record Session : Type := {
  id : string;
  created_at : string
}.

Module Interaction.
Record t : Type := {
  id : string;
  session_id : string;
  question : string;
  response : string;
  follow_up_question : string;
  depth : number;
  created_at : string
}.
End Interaction.

Module AnalysisResult.
Record t : Type := {
  id : string;
  session_id : string;
  text : string;
  ai_similarity_score : number;
  innovation_feature_score : number;
  overall_score : number;
  classification : string;
  text_structure : SemanticAnalysisEngine.TextStructure;
  vocabulary_complexity : number;
  emotional_fluctuation : number;
  creative_divergence : number;
  semantic_elasticity : number;
  emotional_expression : number;
  reference_ability : number;
  ambiguity_handling : number;
  creative_thinking : number;
  time_perception : number;
  created_at : string
}.
End AnalysisResult.

(** The three globals; [None] is a global that has not been assigned. *)
Record Globals : Type := {
  mockSessions : option (Map Session);
  mockInteractions : option (Map (list Interaction.t));
  mockAnalysisResults : option (Map (list AnalysisResult.t))
}.

Definition unassigned : Globals :=
  {| mockSessions := None; mockInteractions := None;
     mockAnalysisResults := None |}.

Definition orEmpty (V : Type) (m : option (Map V)) : Map V :=
  match m with
  | Some m => m
  | None => []
  end.

(** [if (!global.m) global.m = new Map(); if (!global.m.has(key))
    global.m.set(key, []); global.m.get(key)?.push(row)] *)
Definition pushRow (V : Type) (m : option (Map (list V))) (key : string)
    (row : V) : option (Map (list V)) :=
  let m := orEmpty m in
  let m := if has m key then m else set m key [] in
  match get m key with
  | Some rows => Some (set m key (rows ++ [row])%list)
  | None => Some m
  end.

(** The clock and the identifier generator: [Date.now().toString()],
    [new Date().toISOString()] and [uuidv4()]. *)
Record Clock : Type := {
  now_ms : string;
  now_iso : string;
  uuid : string
}.

End MockStore.

(* ================================================================== *)
(** * api/sessions/route.ts *)
(* ================================================================== *)

Module SessionsRoute.

Import MockStore.
Local Open Scope string_scope.

(** What awaiting a query of the store gives: a rejection, or the pair
    [{ data, error }] ([error] is whether the error is truthy). *)
Inductive query (A : Type) : Type :=
| Rejects
| Resolves (data : option A) (error : bool).

Arguments Rejects {A}.
Arguments Resolves {A} data error.

Record World : Type := {
  (** [from('sessions').insert(...).select()] *)
  insert_session : query (list Session);
  (** [from('sessions').select('*').eq('id', id).single()] *)
  select_session : string -> query Session;
  (** [from('interactions').select('*').eq('session_id', id).order(...)] *)
  select_interactions : string -> query (list Interaction.t);
  (** [from('analysis_results').select('*').eq('session_id', id).order(...)] *)
  select_analysis_results : string -> query (list AnalysisResult.t)
}.

(** The statements at the top of the module, run when it is loaded. *)
Definition load (g : Globals) : Globals :=
  {| mockSessions := Some (orEmpty (mockSessions g));
     mockInteractions := Some (orEmpty (mockInteractions g));
     mockAnalysisResults := Some (orEmpty (mockAnalysisResults g)) |}.

Module SessionData.
Record t : Type := {
  session : option Session;
  interactions : option (list Interaction.t);
  analysisResults : option (list AnalysisResult.t)
}.
End SessionData.

Inductive response : Type :=
| Created (sessionId : string)
| Found (data : SessionData.t)
| Status400 (error : string)
| Status404 (error : string)
| Status500 (error : string).

Definition POST (w : World) (clock : Clock) (g : Globals)
  : response * Globals :=
  let fallback :=
    let sessionId := uuid clock in
    match mockSessions g with
    | Some sessions =>
        (Created sessionId,
         {| mockSessions :=
              Some (set sessions sessionId
                        {| id := sessionId; created_at := now_iso clock |});
            mockInteractions := mockInteractions g;
            mockAnalysisResults := mockAnalysisResults g |})
    | None => (Status500 "Failed to create session", g)
    end in
  match insert_session w with
  | Resolves data false =>
      match data with
      | Some (first :: _) => (Created (id first), g)
      | _ => fallback
      end
  | _ => fallback
  end.

Definition GET (w : World) (g : Globals) (sessionId : option string)
  : response :=
  match sessionId with
  | None => Status400 "Session ID is required"
  | Some sessionId =>
      if negb (Str.truthy sessionId) then Status400 "Session ID is required"
      else
        let fallback :=
          match mockSessions g with
          | None => Status500 "Failed to get session data"
          | Some sessions =>
              match get sessions sessionId with
              | None => Status404 "Session not found"
              | Some session =>
                  match mockInteractions g, mockAnalysisResults g with
                  | Some interactions, Some analysisResults =>
                      Found
                        {| SessionData.session := Some session;
                           SessionData.interactions :=
                             Some (match get interactions sessionId with
                                   | Some rows => rows
                                   | None => []
                                   end);
                           SessionData.analysisResults :=
                             Some (match get analysisResults sessionId with
                                   | Some rows => rows
                                   | None => []
                                   end) |}
                  | _, _ => Status500 "Failed to get session data"
                  end
              end
          end in
        match select_session w sessionId with
        | Resolves session false =>
            match select_interactions w sessionId with
            | Resolves interactions false =>
                match select_analysis_results w sessionId with
                | Resolves analysisResults false =>
                    Found {| SessionData.session := session;
                             SessionData.interactions := interactions;
                             SessionData.analysisResults := analysisResults |}
                | _ => fallback
                end
            | _ => fallback
            end
        | _ => fallback
        end
  end.

End SessionsRoute.

(* ================================================================== *)
(** * api/questions/route.ts *)
(* ================================================================== *)

Module QuestionsRoute.

Import MockStore QuestionEngine InnovationFeatureMatrix.
Local Open Scope string_scope.

(** The body of the request after [await request.json()]. *)
Record Body : Type := {
  originalQuestion : option string;
  userResponse : option string;
  depth : option number;
  sessionId : option string
}.

Record World : Type := {
  (** the answer of the completion service to the request
      [generateFollowUpQuestion] makes *)
  grok_followUp : string -> string -> number -> chat_outcome;
  supabase_insert_throws : bool
}.

Inductive response : Type :=
| Question (question : option string)
| FollowUp (followUpQuestion : string)
| Status400 (error : string).

(** [depth || 1] *)
Definition depthOrOne (depth : option number) : number :=
  match depth with
  | Some (Fin x) => if Req_dec_T x 0 then Fin 1 else Fin x
  | Some NaN => Fin 1
  | Some d => d
  | None => Fin 1
  end.

(** [GET]; [random1] and [random2] are what [Math.random()] returns. *)
Definition GET (category : option string) (random1 random2 : R)
  : response :=
  Question (getRandomQuestion
              (match category with
               | Some c => if Str.truthy c then Some c else None
               | None => None
               end)
              random1 random2).

Definition POST (w : World) (clock : Clock) (body : Body) (g : Globals)
  : response * Globals :=
  match originalQuestion body, userResponse body with
  | Some question, Some response =>
      if Str.truthy question && Str.truthy response then
        let followUpQuestion :=
          generateFollowUpQuestion
            (grok_followUp w question response (depthOrOne (depth body))) in
        let stored :=
          match sessionId body with
          | Some sessionId =>
              if Str.truthy sessionId && supabase_insert_throws w then
                {| mockSessions := mockSessions g;
                   mockInteractions :=
                     pushRow (mockInteractions g) sessionId
                       {| Interaction.id := now_ms clock;
                          Interaction.session_id := sessionId;
                          Interaction.question := question;
                          Interaction.response := response;
                          Interaction.follow_up_question := followUpQuestion;
                          Interaction.depth := depthOrOne (depth body);
                          Interaction.created_at := now_iso clock |};
                   mockAnalysisResults := mockAnalysisResults g |}
              else g
          | None => g
          end in
        (FollowUp followUpQuestion, stored)
      else
        (Status400 "Original question and user response are required", g)
  | _, _ => (Status400 "Original question and user response are required", g)
  end.

End QuestionsRoute.

(* ================================================================== *)
(** * api/analyze/route.ts: the fallback store *)
(* ================================================================== *)

Module AnalyzeRoute.

Import MockStore Route InnovationFeatureMatrix.

(** The object pushed by the fallback. *)
Definition row (clock : Clock) (sessionId text : string)
    (report : AnalysisReport) : AnalysisResult.t :=
  {| AnalysisResult.id := now_ms clock;
     AnalysisResult.session_id := sessionId;
     AnalysisResult.text := text;
     AnalysisResult.ai_similarity_score :=
       AiSimilarity.overallScore (aiSimilarity report);
     AnalysisResult.innovation_feature_score :=
       InnovationFeatures.overallScore (innovationFeatures report);
     AnalysisResult.overall_score := overallHumanLikenessScore report;
     AnalysisResult.classification := classification report;
     AnalysisResult.text_structure := textStructure report;
     AnalysisResult.vocabulary_complexity :=
       AiSimilarity.vocabularyComplexity (aiSimilarity report);
     AnalysisResult.emotional_fluctuation :=
       AiSimilarity.emotionalFluctuation (aiSimilarity report);
     AnalysisResult.creative_divergence :=
       AiSimilarity.creativeDivergence (aiSimilarity report);
     AnalysisResult.semantic_elasticity :=
       score (feature report SemanticElasticity);
     AnalysisResult.emotional_expression :=
       score (feature report EmotionalExpression);
     AnalysisResult.reference_ability :=
       score (feature report ReferenceAbility);
     AnalysisResult.ambiguity_handling :=
       score (feature report AmbiguityHandling);
     AnalysisResult.creative_thinking :=
       score (feature report CreativeThinking);
     AnalysisResult.time_perception :=
       score (feature report TimePerception);
     AnalysisResult.created_at := now_iso clock |}.

(** What a call of the handler does to the globals. *)
Definition record (clock : Clock) (text : string) (report : AnalysisReport)
    (g : Globals) (call : event) : Globals :=
  match call with
  | MockAnalysisResultsPush sessionId =>
      {| mockSessions := mockSessions g;
         mockInteractions := mockInteractions g;
         mockAnalysisResults :=
           pushRow (mockAnalysisResults g) sessionId
                   (row clock sessionId text report) |}
  | _ => g
  end.

(** The handler with the globals it leaves. *)
Definition POST {L : Lib} (w : World) (clock : Clock) (request : Request)
    (g : Globals) : response * Globals :=
  let '(calls, answer) := Route.POST w request in
  match answer, text request with
  | Status200 report, Some text =>
      (answer, fold_left (record clock text report) calls g)
  | _, _ => (answer, g)
  end.

End AnalyzeRoute.

(* ================================================================== *)
(** * components/QuestionCard.tsx *)
(* ================================================================== *)

Module QuestionCard.

Local Open Scope string_scope.

Record State : Type := {
  response : string;
  responseDelays : list number;
  lastKeyTime : option number
}.

Definition initial : State :=
  {| response := ""; responseDelays := []; lastKeyTime := None |}.

(** Truthiness of a number: [0] and [NaN] are falsy. *)
Definition truthy_number (x : number) : bool :=
  match x with
  | Fin r => if Req_dec_T r 0 then false else true
  | NaN => false
  | _ => true
  end.

(** [handleKeyPress]; [currentTime] is what [Date.now()] returns. *)
Definition handleKeyPress (currentTime : number) (st : State) : State :=
  {| response := response st;
     responseDelays :=
       match lastKeyTime st with
       | Some last =>
           if truthy_number last then
             let delay := sub currentTime last in
             if geb delay (Fin 100) && leb delay (Fin 10000)
             then (responseDelays st ++ [delay])%list
             else responseDelays st
           else responseDelays st
       | None => responseDelays st
       end;
     lastKeyTime := Some currentTime |}.

(** [onChange={(e) => setResponse(e.target.value)}] *)
Definition handleChange (value : string) (st : State) : State :=
  {| response := value;
     responseDelays := responseDelays st;
     lastKeyTime := lastKeyTime st |}.

(** [handleSubmit]: the arguments given to [onSubmit], if it is called, and
    the state left. *)
Definition handleSubmit (st : State)
  : option (string * list number) * State :=
  if Str.truthy (Str.trim (response st))
  then (Some (response st, responseDelays st), initial)
  else (None, st).

(** What the user does in the text area. *)
Inductive input : Type :=
| KeyDown (currentTime : number)
| Change (value : string).

Definition handle (st : State) (i : input) : State :=
  match i with
  | KeyDown currentTime => handleKeyPress currentTime st
  | Change value => handleChange value st
  end.

End QuestionCard.

(* ================================================================== *)
(** * The test page: the bodies it sends *)
(* ================================================================== *)

Module TestPage.

(** The body of the request to [/api/analyze] in [handleSubmitResponse]. *)
Definition analyzeRequest (response : string) (responseDelays : list number)
    (sessionId : option string) : Route.Request :=
  {| Route.text := Some response;
     Route.responseDelays := Some responseDelays;
     Route.sessionId := sessionId |}.

(** The body of the request to [/api/questions] in
    [handleSubmitResponse]. *)
Definition followUpRequest (originalQuestion response : string)
    (questionDepth : number) (sessionId : option string)
  : QuestionsRoute.Body :=
  {| QuestionsRoute.originalQuestion := Some originalQuestion;
     QuestionsRoute.userResponse := Some response;
     QuestionsRoute.depth := Some questionDepth;
     QuestionsRoute.sessionId := sessionId |}.

End TestPage.

(* ================================================================== *)
(** * components/ResultsCard.tsx *)
(* ================================================================== *)

Module ResultsCard.

Local Open Scope string_scope.

(** A number after [JSON.stringify] and [JSON.parse]: [NaN] and the
    infinities become [null]. *)
Definition fromJSON (x : number) : option number :=
  match x with
  | Fin r => Some (Fin r)
  | _ => None
  end.

Definition formatScore {L : Lib} (score : option number) : string :=
  match score with
  | None => "N/A"
  | Some score => Number_toString (Math_round (mul score (Fin 100))) ++ "%"
  end.

Definition getScoreColor (score : option number) (isHumanScore : bool)
  : string :=
  match score with
  | None => "text-gray-600"
  | Some score =>
      let adjustedScore :=
        if isHumanScore then score else sub (Fin 1) score in
      if geb adjustedScore (Fin 0.7) then "text-green-600"
      else if leb adjustedScore (Fin 0.3) then "text-red-600"
      else "text-yellow-600"
  end.

(** The class of the classification label. *)
Definition classificationColor (classification : string) : string :=
  if classification =? "Human" then "text-green-600"
  else if classification =? "AI" then "text-red-600"
  else "text-yellow-600".

(** The class of the figure [overallHumanLikenessScore]. *)
Definition overallColor (report : Route.AnalysisReport) : string :=
  getScoreColor (fromJSON (Route.overallHumanLikenessScore report)) true.

(** The class of the figure of the bar "Overall AI Similarity". *)
Definition aiSimilarityColor (report : Route.AnalysisReport) : string :=
  getScoreColor
    (fromJSON (Route.AiSimilarity.overallScore (Route.aiSimilarity report)))
    false.

End ResultsCard.

(* ================================================================== *)
(** * Notions used in the statements *)
(* ================================================================== *)

(** A score field is within [0,1]. *)
Definition in_unit_interval (x : number) : Prop :=
  match x with
  | Fin r => (0 <= r <= 1)%R
  | _ => False
  end.

(** [responseDelays || []] *)
Definition delaysOf (request : Route.Request) : list number :=
  match Route.responseDelays request with
  | Some ds => ds
  | None => []
  end.

(** The answer is a report (status 200). *)
Definition is_report (answer : list Route.event * Route.response) : bool :=
  match snd answer with
  | Route.Status200 _ => true
  | _ => false
  end.

(** The answer turns the request away (status 400). *)
Definition rejected (answer : list Route.event * Route.response) : bool :=
  match snd answer with
  | Route.Status400 _ => true
  | _ => false
  end.

(** A segment is short, or it is one of the sentences as it stands. *)
Definition short_or_sentence (sentences : list string) (segment : string)
  : Prop :=
  String.length segment <= 201 \/ In segment sentences.

(** The specification's inversion [f(x) = 1 - x^1.5], on the non-negative
    reals, where [x^1.5] is the square root of the cube. *)
Definition three_halves_power (x : R) : R := sqrt (x ^ 3).

Definition inversion (x : R) : R := (1 - three_halves_power x)%R.

(** The composite classifier as the specification words it, on real
    numbers: the score is [0.4 a + 0.6 i], and the label follows from the
    two inclusive thresholds. *)
Module CompositeSpec.

Local Open Scope R_scope.

Definition score (a i : R) : R := 0.4 * a + 0.6 * i.


End CompositeSpec.

Module TimePerceptionSpec.

Import Str RegExp InnovationFeatureMatrix.
Local Open Scope R_scope.

(** The score as the specification words it, for delays that are real
    numbers; the two patterns are parameters. *)
Definition mean (delays : list R) : R :=
  match delays with
  | [] => 0
  | _ => fold_right Rplus 0 delays / INR (List.length delays)
  end.

Definition clamp (x : R) : R := Rmin (Rmax x 0) 1.

Definition containsVaguePhrase (text : string) : bool :=
  existsb (fun phrase => includes (toLowerCase text) phrase) timeExpressions.

Definition described (datePattern timePattern : regex) (text : string)
    (delays : list R) : R :=
  let m := mean delays in
  clamp (0.5
         + (if Rle_dec 1200 m
            then if Rle_dec m 3400 then 0.2 else 0
            else 0)
         - (if Rlt_dec m 500 then 0.2 else 0)
         + (if containsVaguePhrase text then 0.15 else 0)
         - (if test datePattern text || test timePattern text
            then 0.15 else 0)).

(** [\d{1,2}[/.-]\d{1,2}[/.-]\d{2,4}] and [\d{1,2}:\d{2}], as the
    specification prints them, without word boundaries. *)
Definition datePattern : regex :=
  Seq (rep_1_2 digit)
      (Seq (one_of "/.-")
           (Seq (rep_1_2 digit)
                (Seq (one_of "/.-") (rep_2_4 digit)))).

Definition timePattern : regex :=
  Seq (rep_1_2 digit) (Seq (one_of ":") (Seq digit digit)).

End TimePerceptionSpec.

(* ================================================================== *)
(** * Notions used in the further properties *)
(* ================================================================== *)

(** Every key of the chain is an own property name, not one that
    [Object.prototype] answers. *)
Definition keys_own (m : AISimilarityScoring.chain) : Prop :=
  Forall (fun entry => inherited (fst entry) = false) m.

(** Every key of the chain has at least one successor. *)
Definition successors_present (m : AISimilarityScoring.chain) : Prop :=
  Forall (fun entry : string * list string => snd entry <> []) m.

(** Two consecutive segments have no key concept in common. *)
Definition share_no_concept (current next : list string) : Prop :=
  forall concept, In concept current -> ~ In concept next.

(** [P] holds of every pair of consecutive segments. *)
Fixpoint consecutive (P : list string -> list string -> Prop)
    (segmentConcepts : list (list string)) : Prop :=
  match segmentConcepts with
  | current :: ((next :: _) as rest) => P current next /\ consecutive P rest
  | _ => True
  end.

(** The mean delay is in the window the time-perception judge rewards. *)
Definition humanWindow (avgDelay : number) : bool :=
  geb avgDelay (Fin 1200) && leb avgDelay (Fin 3400).

(** The closing sentence of the time-perception analysis, from the three
    signals. *)
Definition verdictSentence (avgDelay : number) (vague precise : bool)
  : string :=
  if humanWindow avgDelay && vague && negb precise
  then "The text shows human-like time perception patterns."%string
  else if ltb avgDelay (Fin 500) && precise
       then "The text shows AI-like time perception patterns."%string
       else "The text shows mixed time perception patterns."%string.

(** No code unit of the string is in the class. *)
Fixpoint class_free (p : ascii -> bool) (s : string) : bool :=
  match s with
  | EmptyString => true
  | String c s' => negb (p c) && class_free p s'
  end.

(** The lengths of the pieces, one more counted for each piece. *)
Definition weight (pieces : list string) : nat :=
  fold_right (fun piece n => S (String.length piece + n)) 0 pieces.

(** The class [[.!?]]. *)
Definition is_terminator (c : ascii) : bool :=
  Str.includes ".!?" (String c "").

(** The sentences of a group, joined by single spaces. *)
Definition joinSentences (group : list string) : string :=
  match group with
  | [] => ""%string
  | first :: rest =>
      fold_left (fun joined sentence => (joined ++ " " ++ sentence)%string)
                rest first
  end.

(** The state of the grouping loop after some sentences: the groups closed
    so far and the open group. *)
Definition grouped (groups : list (list string)) (group : list string)
    (state : list string * string) : Prop :=
  state = (map joinSentences groups, joinSentences group)
  /\ Forall (fun g => g <> []) (List.tl groups)
  /\ (group = [] -> groups = []).

(** The first sentence alone is over the limit of a segment. *)
Definition first_is_long (sentences : list string) : Prop :=
  match sentences with
  | [] => False
  | first :: _ => 200 < String.length first
  end.

(** A world where the completion service and the store are both down. *)
Definition storeDown : Route.World := {|
  Route.grok_chat := fun _ _ => InnovationFeatureMatrix.Rejected "ECONNREFUSED";
  Route.supabase_insert_throws := true
|}.

(* ================================================================== *)
(** * Notions used in the properties of the routes and the components *)
(* ================================================================== *)

(** The field is given and is not the empty string. *)
Definition present (field : option string) : bool :=
  match field with
  | Some s => Str.truthy s
  | None => false
  end.

(** The rows kept for a key: [[]] when there are none. *)
Definition rowsOf (V : Type) (m : option (MockStore.Map (list V)))
    (key : string) : list V :=
  match m with
  | Some m =>
      match MockStore.get m key with
      | Some rows => rows
      | None => []
      end
  | None => []
  end.

(** The three globals are assigned, as they are once the sessions route is
    loaded. *)
Definition loaded (g : MockStore.Globals) : Prop :=
  MockStore.mockSessions g <> None
  /\ MockStore.mockInteractions g <> None
  /\ MockStore.mockAnalysisResults g <> None.

(** The query of the session fails: it is rejected or resolves with an
    error. *)
Definition session_query_fails (w : SessionsRoute.World) (sessionId : string)
  : Prop :=
  match SessionsRoute.select_session w sessionId with
  | SessionsRoute.Rejects => True
  | SessionsRoute.Resolves _ error => error = true
  end.

(** The insertion of a session gives no row: it is rejected, resolves with
    an error, or resolves without a first row. *)
Definition session_insert_fails (w : SessionsRoute.World) : Prop :=
  match SessionsRoute.insert_session w with
  | SessionsRoute.Resolves (Some (_ :: _)) false => False
  | _ => True
  end.

(** The session that a key names in the fallback store. *)
Definition sessionOf (g : MockStore.Globals) (key : string)
  : option MockStore.Session :=
  match MockStore.mockSessions g with
  | Some sessions => MockStore.get sessions key
  | None => None
  end.

Module Offline.

Local Open Scope string_scope.

(** A store of which every query is rejected. *)
Definition store : SessionsRoute.World := {|
  SessionsRoute.insert_session := SessionsRoute.Rejects;
  SessionsRoute.select_session := fun _ => SessionsRoute.Rejects;
  SessionsRoute.select_interactions := fun _ => SessionsRoute.Rejects;
  SessionsRoute.select_analysis_results := fun _ => SessionsRoute.Rejects
|}.

Definition questions : QuestionsRoute.World := {|
  QuestionsRoute.grok_followUp :=
    fun _ _ _ => InnovationFeatureMatrix.Rejected "ECONNREFUSED";
  QuestionsRoute.supabase_insert_throws := true
|}.

Definition clock : MockStore.Clock := {|
  MockStore.now_ms := "1700000000000";
  MockStore.now_iso := "2023-11-14T22:13:20.000Z";
  MockStore.uuid := "0b6f4c1e-5d2a-4c58-9a57-3f1f0c9f6f10"
|}.

(** The globals once the sessions route is loaded into a fresh process. *)
Definition fresh : MockStore.Globals :=
  SessionsRoute.load MockStore.unassigned.

End Offline.

(** A delay the question card keeps: a number of [100, 10000]. *)
Definition delay_recorded (delay : number) : Prop :=
  exists x : R, delay = Fin x /\ (100 <= x <= 10000)%R.

(** The number of key presses among the inputs. *)
Definition keyDowns (inputs : list QuestionCard.input) : nat :=
  List.length
    (filter (fun i => match i with
                      | QuestionCard.KeyDown _ => true
                      | QuestionCard.Change _ => false
                      end) inputs).

(** The state of the question card after the inputs, from the state it is
    mounted in. *)
Definition typed (inputs : list QuestionCard.input) : QuestionCard.State :=
  fold_left QuestionCard.handle inputs QuestionCard.initial.

(* ================================================================== *)
(** * Arithmetic of the number model *)
(* ================================================================== *)

Section NumberFacts.

Local Open Scope R_scope.

Lemma Rsign_zero : Rsign 0 = Zero.
Proof.
  unfold Rsign.
  destruct (Rlt_dec 0 0) as [H | _]; [ lra | reflexivity ].
Qed.

Lemma Rsign_pos : forall x, 0 < x -> Rsign x = Pos.
Proof.
  intros x Hx. unfold Rsign.
  destruct (Rlt_dec 0 x); [ reflexivity | lra ].
Qed.

Lemma Rsign_neg : forall x, x < 0 -> Rsign x = Neg.
Proof.
  intros x Hx. unfold Rsign.
  destruct (Rlt_dec 0 x); [ lra | ].
  destruct (Rlt_dec x 0); [ reflexivity | lra ].
Qed.

Lemma div_zero_zero : div (Fin 0) (Fin 0) = NaN.
Proof. simpl. now rewrite Rsign_zero. Qed.

Lemma div_of_nat_zero_zero : div (of_nat 0) (of_nat 0) = NaN.
Proof. exact div_zero_zero. Qed.

Lemma div_Fin_pos : forall x y, 0 < y -> div (Fin x) (Fin y) = Fin (x / y).
Proof. intros x y Hy. simpl. now rewrite (Rsign_pos Hy). Qed.

Lemma mul_comm : forall a b, mul a b = mul b a.
Proof.
  intros [ | | | x] [ | | | y]; simpl; try reflexivity.
  now rewrite Rmult_comm.
Qed.

Lemma leb_Fin_true : forall x y, x <= y -> leb (Fin x) (Fin y) = true.
Proof. intros x y H. simpl. destruct (Rle_dec x y); [ reflexivity | lra ]. Qed.

Lemma leb_Fin_false : forall x y, y < x -> leb (Fin x) (Fin y) = false.
Proof. intros x y H. simpl. destruct (Rle_dec x y); [ lra | reflexivity ]. Qed.

Lemma ltb_Fin_true : forall x y, x < y -> ltb (Fin x) (Fin y) = true.
Proof. intros x y H. simpl. destruct (Rlt_dec x y); [ reflexivity | lra ]. Qed.

Lemma ltb_Fin_false : forall x y, y <= x -> ltb (Fin x) (Fin y) = false.
Proof. intros x y H. simpl. destruct (Rlt_dec x y); [ lra | reflexivity ]. Qed.

(** The clamp [Math.min(Math.max(x, 0), 1)] on a real number. *)
Lemma clamp_inside :
  forall x, 0 <= x <= 1 -> Math_min (Math_max (Fin x) (Fin 0)) (Fin 1) = Fin x.
Proof.
  intros x [H0 H1].
  unfold Math_max. rewrite (ltb_Fin_false H0).
  unfold Math_min. now rewrite (ltb_Fin_false H1).
Qed.

End NumberFacts.

(* ================================================================== *)
(** * The local scorers on fewer than two segments *)
(* ================================================================== *)

Section FewSegments.

Import AISimilarityScoring.
Context {L : Lib}.

(** C6.  Given a list of fewer than two segments (the empty list or a
    single segment), [calculateEmotionalFluctuation] and
    [calculateCreativeDivergence] both return exactly 0. *)
Theorem scorers_zero_below_two_segments :
  forall textSegments : list string,
    (List.length textSegments < 2)%nat ->
    calculateEmotionalFluctuation textSegments = Fin 0
    /\ calculateCreativeDivergence textSegments = Fin 0.
Proof.
  intros textSegments Hlen.
  apply Nat.ltb_lt in Hlen.
  unfold calculateEmotionalFluctuation, calculateCreativeDivergence.
  rewrite Hlen. split; reflexivity.
Qed.

End FewSegments.

Lemma scorers_zero_below_two_segments_witness :
  (List.length ["It was fine"%string] < 2)%nat
  /\ AISimilarityScoring.calculateEmotionalFluctuation (L := Sample.lib)
       ["It was fine"%string] = Fin 0
  /\ AISimilarityScoring.calculateCreativeDivergence (L := Sample.lib)
       ["It was fine"%string] = Fin 0.
Proof.
  split.
  - simpl. lia.
  - apply (@scorers_zero_below_two_segments Sample.lib). simpl. lia.
Defined.

(* ================================================================== *)
(** * The composite classifier *)
(* ================================================================== *)

Section Classifier.

Import Route.
Local Open Scope R_scope.
Local Open Scope string_scope.

Lemma combineScores_Fin :
  forall a i : R, combineScores (Fin a) (Fin i) = Fin (0.4 * a + 0.6 * i).
Proof.
  intros a i. unfold combineScores. simpl. f_equal. lra.
Qed.

Lemma classify_human : forall x : R, 0.7 <= x -> classify (Fin x) = "Human".
Proof.
  intros x Hx. unfold classify, geb. now rewrite (leb_Fin_true Hx).
Qed.

Lemma classify_ai : forall x : R, x <= 0.3 -> classify (Fin x) = "AI".
Proof.
  intros x Hx. unfold classify, geb.
  rewrite leb_Fin_false by lra. now rewrite (leb_Fin_true Hx).
Qed.

Lemma classify_ambiguous :
  forall x : R, 0.3 < x < 0.7 -> classify (Fin x) = "Ambiguous".
Proof.
  intros x [Hlo Hhi]. unfold classify, geb.
  rewrite leb_Fin_false by lra. now rewrite leb_Fin_false by lra.
Qed.

(** What a produced report holds: the two fields are computed from the two
    overall scores of the same report. *)
Lemma POST_composite :
  forall (L : Lib) (w : World) (request : Request) calls report,
    POST w request = (calls, Status200 report) ->
    overallHumanLikenessScore report
    = combineScores (AiSimilarity.overallScore (aiSimilarity report))
        (InnovationFeatures.overallScore (innovationFeatures report))
    /\ classification report = classify (overallHumanLikenessScore report).
Proof.
  intros L w request calls report H.
  unfold POST in H.
  destruct (text request) as [t | ]; [ | discriminate ].
  destruct (negb (Str.truthy t)); [ discriminate | ].
  destruct (AISimilarityScoring.calculateVocabularyComplexity t);
    [ | discriminate ].
  injection H as _ <-. split; reflexivity.
Qed.









End Classifier.

(* ================================================================== *)
(** * The request handler *)
(* ================================================================== *)

Section Handler.

Import Route InnovationFeatureMatrix.
Local Open Scope string_scope.
Context {L : Lib}.

(** The shape of every answer with status 200. *)
Lemma POST_200_inv :
  forall (w : World) (request : Request) calls report,
    POST w request = (calls, Status200 report) ->
    exists t v,
      text request = Some t
      /\ Str.truthy t = true
      /\ AISimilarityScoring.calculateVocabularyComplexity t = Ok v
      /\ calls = (judgeCalls t ++ storeCalls w (sessionId request))%list
      /\ AiSimilarity.vocabularyComplexity (aiSimilarity report) = v
      /\ (forall d, feature report d = runJudge w t (delaysOf request) d).
Proof.
  intros w request calls report H.
  unfold POST in H.
  destruct (text request) as [t | ]; [ | discriminate ].
  destruct (Str.truthy t) eqn:Ht; simpl in H; [ | discriminate ].
  destruct (AISimilarityScoring.calculateVocabularyComplexity t) as [v | e]
    eqn:Hv; [ | discriminate ].
  injection H as <- <-.
  exists t, v.
  split; [ reflexivity | ]. split; [ exact Ht | ].
  split; [ exact Hv | ]. split; [ reflexivity | ].
  split; [ reflexivity | ].
  intros d. destruct d; reflexivity.
Qed.

(** A non-empty text whose vocabulary scorer returns is answered with a
    report, after the five calls to the completion service. *)
Lemma POST_200_intro :
  forall (w : World) (request : Request) t v,
    text request = Some t ->
    Str.truthy t = true ->
    AISimilarityScoring.calculateVocabularyComplexity t = Ok v ->
    exists report,
      POST w request
      = ((judgeCalls t ++ storeCalls w (sessionId request))%list,
         Status200 report).
Proof.
  intros w request t v Ht Htruthy Hv.
  unfold POST. rewrite Ht, Htruthy, Hv. simpl.
  eexists. reflexivity.
Qed.

Lemma is_report_world :
  forall (w w' : World) (request : Request),
    is_report (POST w request) = is_report (POST w' request).
Proof.
  intros w w' request. unfold POST.
  destruct (text request) as [t | ]; [ | reflexivity ].
  destruct (negb (Str.truthy t)); [ reflexivity | ].
  destruct (AISimilarityScoring.calculateVocabularyComplexity t);
    reflexivity.
Qed.

Lemma rejected_iff :
  forall (w : World) (request : Request),
    rejected (POST w request) = true
    <-> (text request = None \/ text request = Some "").
Proof.
  intros w request. unfold POST, rejected.
  destruct (text request) as [t | ].
  - destruct t as [ | c t']; simpl.
    + split; [ now right | reflexivity ].
    + destruct (AISimilarityScoring.calculateVocabularyComplexity
                  (String c t')); simpl;
        (split; [ discriminate | intros [H | H]; discriminate ]).
  - simpl. split; [ now left | reflexivity ].
Qed.

End Handler.

(* ================================================================== *)
(** * Texts without a token *)
(* ================================================================== *)

Section NoToken.

Import Route InnovationFeatureMatrix SemanticAnalysisEngine.
Local Open Scope string_scope.
Context {L : Lib}.

Lemma tokenize_dots : tokenize "..." = [].
Proof. vm_compute. reflexivity. Qed.

Lemma tokenize_blank : tokenize " " = [].
Proof. vm_compute. reflexivity. Qed.

Lemma splitSentences_dots : splitSentences "..." = [].
Proof. vm_compute. reflexivity. Qed.

(** Without a token both densities are 0 / 0. *)
Lemma vocabulary_no_token :
  forall text,
    tokenize text = [] ->
    AISimilarityScoring.calculateVocabularyComplexity text = Ok NaN.
Proof.
  intros text Htok.
  unfold AISimilarityScoring.calculateVocabularyComplexity.
  rewrite Htok. cbn -[div of_nat].
  rewrite div_of_nat_zero_zero. reflexivity.
Qed.

Lemma lexicalDiversity_no_token :
  forall text,
    tokenize text = [] ->
    lexicalDiversity (analyzeTextStructure text) = NaN.
Proof.
  intros text Htok.
  unfold analyzeTextStructure. cbn -[div of_nat]. rewrite Htok.
  apply div_of_nat_zero_zero.
Qed.

Lemma avgSentenceLength_no_sentence :
  forall text,
    tokenize text = [] ->
    splitSentences text = [] ->
    avgSentenceLength (analyzeTextStructure text) = NaN.
Proof.
  intros text Htok Hsent.
  unfold analyzeTextStructure. cbn -[div of_nat]. rewrite Htok, Hsent.
  apply div_of_nat_zero_zero.
Qed.

Lemma overallScore_NaN :
  forall e c, AISimilarityScoring.calculateOverallScore NaN e c = NaN.
Proof.
  intros e c. unfold AISimilarityScoring.calculateOverallScore.
  assert (H : AISimilarityScoring.invertAIScore NaN = NaN).
  { unfold AISimilarityScoring.invertAIScore, Math_pow.
    destruct (Req_dec_T 1.5 0) as [E | _]; [ lra | reflexivity ]. }
  rewrite H. reflexivity.
Qed.

Lemma combineScores_NaN : forall i, combineScores NaN i = NaN.
Proof. reflexivity. Qed.

End NoToken.

Section PunctuationOnly.

Import Route InnovationFeatureMatrix SemanticAnalysisEngine.
Local Open Scope string_scope.

(** C1.  The request whose text is "..." is accepted, whatever the
    libraries, the completion service, the delays and the session: the
    handler answers with a report, and in that report
    [aiSimilarity.vocabularyComplexity], [aiSimilarity.overallScore] and
    [overallHumanLikenessScore] are NaN, which is not a number of [0,1]. *)
Theorem report_scores_NaN_without_token :
  forall (L : Lib) (w : World) delays session,
    let request :=
      {| text := Some "..."; responseDelays := delays;
         sessionId := session |} in
    exists calls report,
      POST w request = (calls, Status200 report)
      /\ AiSimilarity.vocabularyComplexity (aiSimilarity report) = NaN
      /\ AiSimilarity.overallScore (aiSimilarity report) = NaN
      /\ overallHumanLikenessScore report = NaN
      /\ ~ in_unit_interval
             (AiSimilarity.vocabularyComplexity (aiSimilarity report))
      /\ ~ in_unit_interval (AiSimilarity.overallScore (aiSimilarity report))
      /\ ~ in_unit_interval (overallHumanLikenessScore report).
Proof.
  intros L w delays session request.
  subst request. unfold POST. cbn [text Str.truthy negb].
  rewrite (vocabulary_no_token "..." tokenize_dots).
  rewrite overallScore_NaN, combineScores_NaN.
  do 2 eexists. split; [ reflexivity | ].
  cbn [aiSimilarity overallHumanLikenessScore
       AiSimilarity.vocabularyComplexity AiSimilarity.overallScore
       in_unit_interval].
  repeat split; auto.
Qed.

(** C7.  On the text "...", which has no token and no sentence, the two
    quotients of [analyzeTextStructure] are 0 / 0: [lexicalDiversity] and
    [avgSentenceLength] are NaN, with [tokenCount] and [sentenceCount] 0. *)
Theorem textStructure_NaN_without_token :
  forall L : Lib,
    let structure := analyzeTextStructure "..." in
    tokenCount structure = 0%nat
    /\ sentenceCount structure = 0%nat
    /\ lexicalDiversity structure = NaN
    /\ avgSentenceLength structure = NaN.
Proof.
  intros L structure. unfold structure.
  split; [ | split; [ | split ] ].
  - unfold analyzeTextStructure. cbn [tokenCount].
    now rewrite tokenize_dots.
  - unfold analyzeTextStructure. cbn [sentenceCount].
    now rewrite splitSentences_dots.
  - apply lexicalDiversity_no_token, tokenize_dots.
  - apply avgSentenceLength_no_sentence;
      [ apply tokenize_dots | apply splitSentences_dots ].
Qed.

End PunctuationOnly.

(* ================================================================== *)
(** * Input validation *)
(* ================================================================== *)

Section Validation.

Import Route InnovationFeatureMatrix.
Local Open Scope string_scope.

(** A text of whitespace only is a non-empty string: the handler runs the
    whole pipeline on it, the five calls to the completion service
    included, and answers with status 200. *)
Lemma whitespace_text_is_analyzed :
  Str.trim " " = ""
  /\ rejected (POST (L := Sample.lib) Sample.offline Sample.blankRequest)
     = false
  /\ is_report (POST (L := Sample.lib) Sample.offline Sample.blankRequest)
     = true
  /\ fst (POST (L := Sample.lib) Sample.offline Sample.blankRequest)
     = judgeCalls " ".
Proof.
  unfold POST, rejected, is_report, Sample.blankRequest.
  cbn [text Str.truthy negb].
  rewrite (vocabulary_no_token " " tokenize_blank).
  cbn [snd fst sessionId storeCalls].
  repeat split.
Qed.

(** C8, amended.  A request whose text is missing or is the empty string is
    answered at once with status 400 and the message "Text is required";
    nothing of the pipeline runs and no call leaves the process. *)
Theorem empty_text_rejected :
  forall (L : Lib) (w : World) (request : Request),
    (text request = None \/ text request = Some "") ->
    POST w request = ([], Status400 "Text is required").
Proof.
  intros L w request [H | H]; unfold POST; rewrite H; reflexivity.
Qed.

Lemma empty_text_rejected_witness :
  POST (L := Sample.lib) Sample.offline
       {| text := Some ""; responseDelays := Some [Fin 150];
          sessionId := Some "s1" |}
  = ([], Status400 "Text is required").
Proof.
  apply (empty_text_rejected Sample.lib Sample.offline
           {| text := Some ""; responseDelays := Some [Fin 150];
              sessionId := Some "s1" |}).
  right. reflexivity.
Defined.

End Validation.

(* ================================================================== *)
(** * Failure of a judge *)
(* ================================================================== *)

Section JudgeFailure.

Import Route InnovationFeatureMatrix.
Local Open Scope string_scope.

Lemma runJudge_rejected :
  forall (L : Lib) (w : World) t delays d e,
    d <> TimePerception ->
    grok_chat w d t = Rejected e ->
    runJudge w t delays d = catchResult d.
Proof.
  intros L w t delays d e Hd He.
  destruct d; try contradiction; unfold runJudge; rewrite He; reflexivity.
Qed.

(** The result of a judge depends on the world only through the answer to
    its own request. *)
Lemma runJudge_local :
  forall (L : Lib) (w w' : World) t delays d,
    grok_chat w' d t = grok_chat w d t ->
    runJudge w' t delays d = runJudge w t delays d.
Proof.
  intros L w w' t delays d H.
  destruct d; unfold runJudge; try rewrite H; reflexivity.
Qed.

(** The judge on given replies: a score that is read, a score above 1, a
    reply without a score, a score made of a single dot (which [parseFloat]
    does not read: the clamp keeps NaN), and a response without choices. *)
Lemma judge_reads_score :
  score (analyzeSemanticElasticity
           (Resolved [Some "Overall Score: 0.85. Natural transitions."]))
  = Fin 0.85.
Proof.
  unfold analyzeSemanticElasticity, judge. cbn [score].
  replace (RegExp.match_group1 scorePattern
             "Overall Score: 0.85. Natural transitions.")
    with (Some "0.85.") by (vm_compute; reflexivity).
  replace (parseFloat "0.85.") with (Fin 0.85) by (cbv; f_equal).
  apply clamp_inside. lra.
Qed.

Lemma judge_clamps_score :
  score (analyzeSemanticElasticity (Resolved [Some "score: 7"])) = Fin 1.
Proof.
  unfold analyzeSemanticElasticity, judge. cbn [score].
  replace (RegExp.match_group1 scorePattern "score: 7")
    with (Some "7") by (vm_compute; reflexivity).
  replace (parseFloat "7") with (Fin 7) by (cbv; f_equal).
  unfold Math_max. rewrite ltb_Fin_false by lra.
  unfold Math_min. now rewrite ltb_Fin_true by lra.
Qed.

Lemma judge_without_score :
  score (analyzeSemanticElasticity (Resolved [Some "Very human-like."]))
  = Fin 0.5.
Proof.
  unfold analyzeSemanticElasticity, judge. cbn [score].
  replace (RegExp.match_group1 scorePattern "Very human-like.")
    with (@None string) by (vm_compute; reflexivity).
  apply clamp_inside. lra.
Qed.

Lemma judge_unreadable_score :
  score (analyzeSemanticElasticity (Resolved [Some "Score: ..."])) = NaN.
Proof.
  unfold analyzeSemanticElasticity, judge. cbn [score].
  replace (RegExp.match_group1 scorePattern "Score: ...")
    with (Some "...") by (vm_compute; reflexivity).
  reflexivity.
Qed.

Lemma judge_without_choice :
  analyzeSemanticElasticity (Resolved [])
  = catchResult SemanticElasticity.
Proof. reflexivity. Qed.

(** C4.  When the call of one of the five judges that ask the language
    model is rejected, that judge yields
    [{score: 0.5, analysis: "Error analyzing <dimension>", humanVsAI: the
    rubric of the dimension}]; the result of every other judge is what it is
    in any world that answers the other requests in the same way; whether
    the caller gets a report does not depend on the world; and when the
    handler answers with a report, the report holds the canned result for
    the failed dimension and the result of its judge for each of the six
    dimensions. *)
Theorem judge_failure_isolated :
  forall (L : Lib) (w : World) (request : Request) t d e,
    text request = Some t ->
    d <> TimePerception ->
    grok_chat w d t = Rejected e ->
    runJudge w t (delaysOf request) d = catchResult d
    /\ (forall w' d',
          d' <> d ->
          grok_chat w' d' t = grok_chat w d' t ->
          runJudge w' t (delaysOf request) d'
          = runJudge w t (delaysOf request) d')
    /\ (forall w', is_report (POST w' request) = is_report (POST w request))
    /\ (forall v,
          Str.truthy t = true ->
          AISimilarityScoring.calculateVocabularyComplexity t = Ok v ->
          exists calls report,
            POST w request = (calls, Status200 report)
            /\ feature report d = catchResult d
            /\ (forall d', feature report d'
                           = runJudge w t (delaysOf request) d')).
Proof.
  intros L w request t d e Ht Hd He.
  assert (Hcanned : runJudge w t (delaysOf request) d = catchResult d)
    by (eapply runJudge_rejected; eassumption).
  split; [ exact Hcanned | ].
  split; [ intros w' d' _ Hsame; now apply runJudge_local | ].
  split; [ intros w'; apply is_report_world | ].
  intros v Htruthy Hv.
  destruct (POST_200_intro w request Ht Htruthy Hv) as [report Hpost].
  destruct (POST_200_inv _ _ Hpost) as (t' & v' & Ht' & _ & _ & _ & _ & Hf).
  rewrite Ht in Ht'. injection Ht' as <-.
  exists (judgeCalls t ++ storeCalls w (sessionId request))%list, report.
  split; [ exact Hpost | ].
  split; [ now rewrite Hf | exact Hf ].
Qed.

End JudgeFailure.

(* ================================================================== *)
(** * Segmentation *)
(* ================================================================== *)

Section Segmentation.

Import Route.
Local Open Scope string_scope.

Lemma length_concat :
  forall s1 s2 : string,
    String.length (s1 ++ s2) = (String.length s1 + String.length s2)%nat.
Proof.
  induction s1 as [ | c s1 IH]; intros s2; simpl.
  - reflexivity.
  - now rewrite IH.
Qed.

Lemma truthy_length :
  forall s, String.length (if Str.truthy s then " " else "") <= 1.
Proof. intros []; simpl; lia. Qed.

Lemma groupStep_keeps :
  forall all textSegments currentSegment sentence,
    Forall (short_or_sentence all) textSegments ->
    short_or_sentence all currentSegment ->
    In sentence all ->
    Forall (short_or_sentence all)
           (fst (groupStep (textSegments, currentSegment) sentence))
    /\ short_or_sentence all
         (snd (groupStep (textSegments, currentSegment) sentence)).
Proof.
  intros all textSegments currentSegment sentence Hsegs Hcur Hin.
  unfold groupStep.
  destruct (200 <? String.length currentSegment + String.length sentence)%nat
    eqn:Hcmp; cbn [fst snd].
  - split.
    + apply Forall_app. split; [ exact Hsegs | ].
      constructor; [ exact Hcur | constructor ].
    + right. exact Hin.
  - split; [ exact Hsegs | ].
    left. apply Nat.ltb_ge in Hcmp.
    rewrite !length_concat.
    pose proof (truthy_length currentSegment). lia.
Qed.

Lemma fold_groupStep_keeps :
  forall all sentences textSegments currentSegment,
    incl sentences all ->
    Forall (short_or_sentence all) textSegments ->
    short_or_sentence all currentSegment ->
    Forall (short_or_sentence all)
           (fst (fold_left groupStep sentences
                           (textSegments, currentSegment)))
    /\ short_or_sentence all
         (snd (fold_left groupStep sentences
                         (textSegments, currentSegment))).
Proof.
  intros all sentences.
  induction sentences as [ | sentence rest IH];
    intros textSegments currentSegment Hincl Hsegs Hcur.
  - simpl. split; assumption.
  - cbn [fold_left].
    destruct (groupStep_keeps sentence Hsegs Hcur) as [Hsegs' Hcur'].
    { apply Hincl. now left. }
    destruct (groupStep (textSegments, currentSegment) sentence)
      as [textSegments' currentSegment'].
    apply IH; [ | exact Hsegs' | exact Hcur' ].
    intros s Hs. apply Hincl. now right.
Qed.

Lemma groupSentences_short_or_sentence :
  forall sentences,
    Forall (short_or_sentence sentences) (groupSentences sentences).
Proof.
  intros sentences. unfold groupSentences.
  destruct (@fold_groupStep_keeps sentences sentences [] "")
    as [Hsegs Hcur].
  - apply incl_refl.
  - constructor.
  - left. simpl. lia.
  - destruct (fold_left groupStep sentences ([], ""))
      as [textSegments currentSegment].
    cbn [fst snd] in Hsegs, Hcur.
    destruct (Str.truthy currentSegment); [ | exact Hsegs ].
    apply Forall_app. split; [ exact Hsegs | ].
    constructor; [ exact Hcur | constructor ].
Qed.

(** C9, amended.  Every segment of a text is at most 201 characters long
    (the test bounds the sum of the two lengths by 200 and does not count
    the joining space), unless it is one single sentence of the text, which
    is never cut and makes a segment of its own length. *)
Theorem segment_length_bound :
  forall (text segment : string),
    In segment (segmentText text) ->
    String.length segment <= 201 \/ In segment (splitSentences text).
Proof.
  intros text segment Hin.
  pose proof (groupSentences_short_or_sentence (splitSentences text)) as H.
  rewrite Forall_forall in H. exact (H segment Hin).
Qed.

End Segmentation.

(** A sentence of 250 characters makes a segment of 250 characters, after
    an empty first segment; two sentences of 100 characters are joined into
    one segment of 201 characters. *)
Lemma long_sentence_long_segment :
  Route.segmentText (Sample.repeat_string "a" 250)
  = [""%string; Sample.repeat_string "a" 250]
  /\ String.length (Sample.repeat_string "a" 250) = 250
  /\ Route.segmentText (Sample.repeat_string "a" 100 ++ ". "
                        ++ Sample.repeat_string "b" 99)
     = [(Sample.repeat_string "a" 100 ++ "  "
         ++ Sample.repeat_string "b" 99)%string]
  /\ String.length (Sample.repeat_string "a" 100 ++ "  "
                    ++ Sample.repeat_string "b" 99) = 201.
Proof.
  repeat split; vm_compute; reflexivity.
Qed.

Lemma segment_length_bound_witness :
  In "Hello there  How are you"%string
     (Route.segmentText "Hello there. How are you?")
  /\ (String.length "Hello there  How are you" <= 201
      \/ In "Hello there  How are you"%string
            (splitSentences "Hello there. How are you?")).
Proof.
  assert (H : In "Hello there  How are you"%string
                 (Route.segmentText "Hello there. How are you?")).
  { vm_compute. left. reflexivity. }
  split; [ exact H | ].
  exact (segment_length_bound "Hello there. How are you?"
           "Hello there  How are you" H).
Defined.

(* ================================================================== *)
(** * The time-perception judge *)
(* ================================================================== *)

Section TimePerceptionRange.

Import Route InnovationFeatureMatrix.
Local Open Scope R_scope.

Lemma timeScore_range :
  forall avgDelay vague precise,
    exists x, timeScore avgDelay vague precise = Fin x
              /\ 0.15 <= x <= 0.85.
Proof.
  intros avgDelay vague precise. unfold timeScore.
  destruct (geb avgDelay (Fin 1200) && leb avgDelay (Fin 3400));
    [ | destruct (ltb avgDelay (Fin 500)) ];
    destruct vague, precise; cbn [add sub];
    eexists; (split; [ reflexivity | lra ]).
Qed.

Lemma delay_adjustments_exclusive :
  forall avgDelay,
    geb avgDelay (Fin 1200) && leb avgDelay (Fin 3400) = true ->
    ltb avgDelay (Fin 500) = false.
Proof.
  intros [ | | | x]; simpl; try discriminate; try reflexivity.
  destruct (Rle_dec 1200 x); [ | discriminate ].
  intros _. destruct (Rlt_dec x 500); [ lra | reflexivity ].
Qed.

Lemma timeScore_clamp :
  forall avgDelay vague precise,
    Math_min (Math_max (timeScore avgDelay vague precise) (Fin 0)) (Fin 1)
    = timeScore avgDelay vague precise.
Proof.
  intros avgDelay vague precise.
  destruct (timeScore_range avgDelay vague precise) as (x & Hx & Hrange).
  rewrite Hx. apply clamp_inside. lra.
Qed.

Lemma analyzeTimePerception_score :
  forall (L : Lib) (text : string) (responseDelays : list number),
    score (analyzeTimePerception text responseDelays)
    = timeScore (averageDelay responseDelays) (hasVagueTimeReferences text)
        (hasPreciseTimeReferences text).
Proof.
  intros L text responseDelays.
  unfold analyzeTimePerception. cbn [score]. apply timeScore_clamp.
Qed.

(** C10.  For every text and every array of delays, the score of the
    time-perception judge is a number of [0.15, 0.85]; the two delay
    adjustments exclude each other; and the final clamp returns the score
    it is given. *)
Theorem time_perception_score_range :
  forall (L : Lib) (text : string) (responseDelays : list number),
    let avgDelay := averageDelay responseDelays in
    let unclamped :=
      timeScore avgDelay (hasVagueTimeReferences text)
                (hasPreciseTimeReferences text) in
    (exists x, score (analyzeTimePerception text responseDelays) = Fin x
               /\ 0.15 <= x <= 0.85)
    /\ (geb avgDelay (Fin 1200) && leb avgDelay (Fin 3400)
        && ltb avgDelay (Fin 500) = false)
    /\ Math_min (Math_max unclamped (Fin 0)) (Fin 1) = unclamped
    /\ score (analyzeTimePerception text responseDelays) = unclamped.
Proof.
  intros L text responseDelays avgDelay unclamped.
  destruct (timeScore_range avgDelay (hasVagueTimeReferences text)
              (hasPreciseTimeReferences text)) as (x & Hx & Hrange).
  assert (Hclamp : Math_min (Math_max unclamped (Fin 0)) (Fin 1) = unclamped)
    by apply timeScore_clamp.
  assert (Hscore : score (analyzeTimePerception text responseDelays)
                   = unclamped)
    by apply analyzeTimePerception_score.
  split; [ exists x; split; [ now rewrite Hscore | exact Hrange ] | ].
  split; [ | split; assumption ].
  destruct (geb avgDelay (Fin 1200) && leb avgDelay (Fin 3400)) eqn:E;
    [ | reflexivity ].
  now rewrite (delay_adjustments_exclusive _ E).
Qed.

End TimePerceptionRange.

(* ================================================================== *)
(** * The AI-similarity aggregator *)
(* ================================================================== *)

Section Aggregator.

Import AISimilarityScoring.
Local Open Scope R_scope.

Lemma three_halves_power_Rpower :
  forall x, 0 < x -> Rpower x 1.5 = three_halves_power x.
Proof.
  intros x Hx. unfold three_halves_power.
  replace 1.5 with (INR 3 * / 2) by (simpl; lra).
  rewrite <- Rpower_mult, Rpower_pow by exact Hx.
  apply Rpower_sqrt. now apply pow_lt.
Qed.

Lemma Math_pow_three_halves :
  forall x, 0 <= x -> Math_pow (Fin x) 1.5 = Fin (three_halves_power x).
Proof.
  intros x Hx. unfold Math_pow.
  destruct (Req_dec_T 1.5 0) as [E | _]; [ lra | ].
  destruct Hx as [Hpos | <-].
  - rewrite (Rsign_pos Hpos). now rewrite three_halves_power_Rpower.
  - rewrite Rsign_zero.
    destruct (Rlt_dec 0 1.5) as [_ | N]; [ | lra ].
    unfold three_halves_power.
    replace (0 ^ 3) with 0 by (simpl; ring).
    now rewrite sqrt_0.
Qed.

Lemma invertAIScore_Fin :
  forall x, 0 <= x -> invertAIScore (Fin x) = Fin (inversion x).
Proof.
  intros x Hx. unfold invertAIScore.
  now rewrite (Math_pow_three_halves Hx).
Qed.

(** C5.  For three scores [v], [s], [d] (non-negative reals),
    [calculateOverallScore] returns 0.3 f(v) + 0.4 f(s) + 0.3 f(d) with
    f(x) = 1 - x^1.5; and on any three numbers it is the weighted sum, with
    these weights, of the three values of [invertAIScore]. *)
Theorem aggregator_formula :
  (forall v s d : R,
     0 <= v -> 0 <= s -> 0 <= d ->
     calculateOverallScore (Fin v) (Fin s) (Fin d)
     = Fin (0.3 * inversion v + 0.4 * inversion s + 0.3 * inversion d))
  /\ (forall v s d : number,
        calculateOverallScore v s d
        = add (add (mul (Fin 0.3) (invertAIScore v))
                   (mul (Fin 0.4) (invertAIScore s)))
              (mul (Fin 0.3) (invertAIScore d))).
Proof.
  split.
  - intros v s d Hv Hs Hd. unfold calculateOverallScore.
    rewrite (invertAIScore_Fin Hv), (invertAIScore_Fin Hs),
      (invertAIScore_Fin Hd).
    cbn [mul add]. f_equal. ring.
  - intros v s d. unfold calculateOverallScore.
    now rewrite !(mul_comm (Fin _)).
Qed.

Lemma aggregator_formula_witness :
  calculateOverallScore (Fin 0) (Fin 1) (Fin 0.25)
  = Fin (0.3 * inversion 0 + 0.4 * inversion 1 + 0.3 * inversion 0.25).
Proof.
  apply (proj1 aggregator_formula); lra.
Defined.

End Aggregator.

(* ================================================================== *)
(** * The time-perception score against its description *)
(* ================================================================== *)
Section TimePerceptionFormula.

Import Str RegExp InnovationFeatureMatrix TimePerceptionSpec.
Local Open Scope R_scope.

Lemma sum_Fin_from :
  forall (delays : list R) (a : R),
    fold_left add (map Fin delays) (Fin a) = Fin (fold_left Rplus delays a).
Proof.
  induction delays as [ | d rest IH]; intros a; simpl.
  - reflexivity.
  - apply IH.
Qed.

Lemma sum_Fin :
  forall delays : list R,
    sum (map Fin delays) = Fin (fold_right Rplus 0 delays).
Proof.
  intros delays. unfold sum. rewrite sum_Fin_from. f_equal.
  apply fold_symmetric; intros; ring.
Qed.

Lemma averageDelay_mean :
  forall delays : list R, averageDelay (map Fin delays) = Fin (mean delays).
Proof.
  intros delays. unfold averageDelay, mean.
  rewrite length_map, sum_Fin.
  destruct delays as [ | d rest]; [ reflexivity | ].
  cbn [List.length Nat.ltb Nat.leb]. unfold of_nat.
  apply div_Fin_pos. apply lt_0_INR. lia.
Qed.

Lemma clamp_inside_R : forall x, 0 <= x <= 1 -> clamp x = x.
Proof.
  intros x [H0 H1]. unfold clamp.
  rewrite Rmax_left by exact H0. now rewrite Rmin_left.
Qed.

(** The score of the judge is the described score, the two patterns being
    the ones of the program. *)
Lemma timePerception_described :
  forall (L : Lib) (text : string) (delays : list R),
    score (analyzeTimePerception text (map Fin delays))
    = Fin (described preciseDatePattern preciseTimePattern text delays).
Proof.
  intros L text delays.
  rewrite analyzeTimePerception_score, averageDelay_mean.
  unfold described, timeScore, geb, leb, ltb.
  fold (hasPreciseTimeReferences text).
  change (containsVaguePhrase text) with (hasVagueTimeReferences text).
  set (m := mean delays).
  destruct (Rle_dec 1200 m), (Rle_dec m 3400), (Rlt_dec m 500);
    try lra;
    destruct (hasVagueTimeReferences text),
             (hasPreciseTimeReferences text);
    cbn [andb add sub]; rewrite clamp_inside_R by lra; f_equal; lra.
Qed.

End TimePerceptionFormula.

Section TimePerceptionExamples.

Import Str RegExp InnovationFeatureMatrix TimePerceptionSpec.
Local Open Scope R_scope.
Local Open Scope string_scope.

Lemma mean_human : mean [2000; 2200; 2100] = 2100.
Proof. unfold mean. simpl. field. Qed.

Lemma mean_fast : mean [100; 120] = 110.
Proof. unfold mean. simpl. field. Qed.

Lemma mean_empty : mean [] = 0.
Proof. reflexivity. Qed.

Lemma contains_last_week :
  forall text,
    includes (toLowerCase text) "last week" = true ->
    containsVaguePhrase text = true.
Proof.
  intros text H. unfold containsVaguePhrase.
  apply existsb_exists. exists "last week". split; [ | exact H ].
  simpl. tauto.
Qed.

(** The value of [described] once the mean and the two tests are known. *)
Ltac described_value :=
  unfold described;
  repeat match goal with
         | H : _ = _ |- _ => rewrite H
         end;
  repeat match goal with
         | |- context [Rle_dec ?a ?b] => destruct (Rle_dec a b); try lra
         | |- context [Rlt_dec ?a ?b] => destruct (Rlt_dec a b); try lra
         end;
  try (rewrite clamp_inside_R by lra; lra).

Lemma described_human :
  forall date time text,
    containsVaguePhrase text = true ->
    test date text || test time text = false ->
    described date time text [2000; 2200; 2100] = 0.85.
Proof.
  intros date time text Hv Hp.
  pose proof mean_human as Hm. described_value.
Qed.

Lemma described_fast_precise :
  forall date time text,
    containsVaguePhrase text = false ->
    test date text || test time text = true ->
    described date time text [100; 120] = 0.15.
Proof.
  intros date time text Hv Hp.
  pose proof mean_fast as Hm. described_value.
Qed.

Lemma described_no_delay :
  forall date time text,
    containsVaguePhrase text = false ->
    described date time text []
    = if test date text || test time text then 0.15 else 0.3.
Proof.
  intros date time text Hv.
  pose proof mean_empty as Hm.
  destruct (test date text || test time text) eqn:Hp; described_value.
Qed.

(** C3, amended.  With the date pattern
    [\b\d{1,2}[/.-]\d{1,2}[/.-]\d{2,4}\b] and the time pattern
    [\b\d{1,2}:\d{2}\b], each held between two word boundaries, and a phrase
    of the list looked for in the lower-cased text, the score of the judge
    is 0.5, plus 0.2 if the mean delay (0 for no delay) is within
    [1200, 3400], minus 0.2 if it is below 500, plus 0.15 for a vague
    phrase, minus 0.15 for a precise date or time, clamped to [0,1].  The
    delays [2000, 2200, 2100] with a text that contains "last week" and no
    precise date or time give 0.85; the delays [100, 120] with the text
    "Meeting at 14:30 on 12/05/2024" give 0.15. *)
Theorem time_perception_formula :
  forall L : Lib,
    (forall (text : string) (delays : list R),
       score (analyzeTimePerception text (map Fin delays))
       = Fin (described preciseDatePattern preciseTimePattern text delays))
    /\ (forall text : string,
          includes (toLowerCase text) "last week" = true ->
          hasPreciseTimeReferences text = false ->
          score (analyzeTimePerception text [Fin 2000; Fin 2200; Fin 2100])
          = Fin 0.85)
    /\ score (analyzeTimePerception "Meeting at 14:30 on 12/05/2024"
                [Fin 100; Fin 120])
       = Fin 0.15.
Proof.
  intros L. split; [ apply timePerception_described | ]. split.
  - intros text Hweek Hprecise.
    change [Fin 2000; Fin 2200; Fin 2100] with (map Fin [2000; 2200; 2100]).
    rewrite timePerception_described. f_equal.
    apply described_human; [ now apply contains_last_week | exact Hprecise ].
  - change [Fin 100; Fin 120] with (map Fin [100; 120]).
    rewrite timePerception_described. f_equal.
    apply described_fast_precise; vm_compute; reflexivity.
Qed.

End TimePerceptionExamples.

Lemma time_perception_formula_witness :
  Str.includes (Str.toLowerCase "I saw her Last Week") "last week" = true
  /\ InnovationFeatureMatrix.hasPreciseTimeReferences "I saw her Last Week"
     = false
  /\ InnovationFeatureMatrix.score
       (InnovationFeatureMatrix.analyzeTimePerception (L := Sample.lib)
          "I saw her Last Week" [Fin 2000; Fin 2200; Fin 2100])
     = Fin 0.85.
Proof.
  assert (Hweek : Str.includes (Str.toLowerCase "I saw her Last Week")
                    "last week" = true) by (vm_compute; reflexivity).
  assert (Hprecise :
            InnovationFeatureMatrix.hasPreciseTimeReferences
              "I saw her Last Week" = false) by (vm_compute; reflexivity).
  split; [ exact Hweek | ]. split; [ exact Hprecise | ].
  exact (proj1 (proj2 (time_perception_formula Sample.lib))
           "I saw her Last Week"%string Hweek Hprecise).
Defined.

(** On "ticket 123-45-6789" with no delay the judge scores 0.3: neither
    pattern of the program matches, each digit run being too long for the
    word boundaries.  The patterns without the boundaries find "23-45-6789"
    and bring the described score down to 0.15. *)
Lemma unanchored_patterns_differ :
  InnovationFeatureMatrix.score
    (InnovationFeatureMatrix.analyzeTimePerception (L := Sample.lib)
       "ticket 123-45-6789" [])
  = Fin 0.3
  /\ TimePerceptionSpec.described TimePerceptionSpec.datePattern
       TimePerceptionSpec.timePattern "ticket 123-45-6789" []
     = 0.15%R
  /\ (0.15 < 0.3)%R.
Proof.
  split; [ | split; [ | lra ] ].
  - change (@nil number) with (map Fin []).
    rewrite timePerception_described. f_equal.
    rewrite described_no_delay by (vm_compute; reflexivity).
    replace (RegExp.test InnovationFeatureMatrix.preciseDatePattern
               "ticket 123-45-6789"
             || RegExp.test InnovationFeatureMatrix.preciseTimePattern
                  "ticket 123-45-6789") with false
      by (vm_compute; reflexivity).
    reflexivity.
  - rewrite described_no_delay by (vm_compute; reflexivity).
    replace (RegExp.test TimePerceptionSpec.datePattern "ticket 123-45-6789"
             || RegExp.test TimePerceptionSpec.timePattern
                  "ticket 123-45-6789") with true
      by (vm_compute; reflexivity).
    reflexivity.
Qed.

(* ================================================================== *)
(** * A request that is analyzed *)
(* ================================================================== *)

Section Analyzed.

Import Route InnovationFeatureMatrix.
Local Open Scope string_scope.

Lemma vocabulary_returns :
  forall (L : Lib) (text : string) m,
    AISimilarityScoring.buildMarkovChain
      (map AISimilarityScoring.stemLower (tokenize text)) [] = Ok m ->
    exists v, AISimilarityScoring.calculateVocabularyComplexity text = Ok v.
Proof.
  intros L text m H.
  unfold AISimilarityScoring.calculateVocabularyComplexity.
  rewrite H. destruct (AISimilarityScoring.transitionOptions m).
  eexists. reflexivity.
Qed.

Lemma lateRequest_vocabulary :
  exists v,
    AISimilarityScoring.calculateVocabularyComplexity (L := Sample.lib)
      "I was late. Sorry!" = Ok v.
Proof.
  eapply vocabulary_returns. vm_compute. reflexivity.
Qed.

Lemma lateRequest_report :
  exists report,
    POST (L := Sample.lib) Sample.offline Sample.lateRequest
    = ((judgeCalls "I was late. Sorry!"
        ++ [SupabaseInsert "session-1"])%list,
       Status200 report).
Proof.
  destruct lateRequest_vocabulary as [v Hv].
  exact (POST_200_intro (L := Sample.lib) Sample.offline Sample.lateRequest
           eq_refl eq_refl Hv).
Qed.

End Analyzed.


Lemma judge_failure_isolated_witness :
  Route.grok_chat Sample.offline Route.SemanticElasticity
    "I was late. Sorry!" = InnovationFeatureMatrix.Rejected "ECONNREFUSED"
  /\ Route.runJudge (L := Sample.lib) Sample.offline "I was late. Sorry!"
       (delaysOf Sample.lateRequest) Route.SemanticElasticity
     = Route.catchResult Route.SemanticElasticity
  /\ (forall w',
        is_report (Route.POST (L := Sample.lib) w' Sample.lateRequest)
        = is_report (Route.POST (L := Sample.lib) Sample.offline
                       Sample.lateRequest))
  /\ exists calls report,
       Route.POST (L := Sample.lib) Sample.offline Sample.lateRequest
       = (calls, Route.Status200 report)
       /\ Route.feature report Route.SemanticElasticity
          = Route.catchResult Route.SemanticElasticity.
Proof.
  assert (Hd : Route.SemanticElasticity <> Route.TimePerception)
    by discriminate.
  destruct (@judge_failure_isolated Sample.lib Sample.offline Sample.lateRequest
              "I was late. Sorry!" Route.SemanticElasticity "ECONNREFUSED"
              eq_refl Hd eq_refl)
    as (Hcanned & _ & Hstatus & Hreport).
  split; [ reflexivity | ].
  split; [ exact Hcanned | ].
  split; [ exact Hstatus | ].
  destruct lateRequest_vocabulary as [v Hv].
  destruct (Hreport v eq_refl Hv) as (calls & report & Hpost & Hfeature & _).
  exists calls, report. split; assumption.
Defined.

(* ================================================================== *)
(** * The score fields away from the quotients 0 / 0 *)
(* ================================================================== *)

Section RangeFacts.

Local Open Scope R_scope.

Lemma ratio_in_unit_interval :
  forall k n : nat,
    (k <= n)%nat -> (0 < n)%nat ->
    exists x, div (of_nat k) (of_nat n) = Fin x /\ 0 <= x <= 1.
Proof.
  intros k n Hk Hn. unfold of_nat.
  assert (Hpos : 0 < INR n) by (apply lt_0_INR; exact Hn).
  rewrite (div_Fin_pos _ Hpos).
  exists (INR k / INR n). split; [ reflexivity | ].
  assert (H0 : 0 <= INR k) by apply pos_INR.
  assert (H1 : INR k <= INR n) by (apply le_INR; exact Hk).
  split.
  - apply Rmult_le_pos; [ exact H0 | ]. left. now apply Rinv_0_lt_compat.
  - apply (Rmult_le_reg_r (INR n)); [ exact Hpos | ].
    unfold Rdiv. rewrite Rmult_assoc, Rinv_l by lra. lra.
Qed.

Lemma min_one_in_unit_interval :
  forall x, 0 <= x ->
    exists y, Math_min (Fin x) (Fin 1) = Fin y /\ 0 <= y <= 1.
Proof.
  intros x Hx. unfold Math_min. simpl.
  destruct (Rlt_dec 1 x).
  - exists 1. split; [ reflexivity | lra ].
  - exists x. split; [ reflexivity | lra ].
Qed.

Lemma clamp_in_unit_interval :
  forall x, in_unit_interval (Math_min (Math_max (Fin x) (Fin 0)) (Fin 1)).
Proof.
  intros x. unfold Math_max, Math_min. simpl.
  destruct (Rlt_dec x 0); simpl.
  - destruct (Rlt_dec 1 0); simpl; lra.
  - destruct (Rlt_dec 1 x); simpl; lra.
Qed.

Lemma Math_pow_square : forall y, Math_pow (Fin y) 2 = Fin (y * y).
Proof.
  intros y. unfold Math_pow.
  destruct (Req_dec_T 2 0) as [E | _]; [ lra | ].
  assert (Hint : Int_part 2 = 2%Z).
  { change 2 with (INR 2). now rewrite Int_part_INR. }
  destruct (Rtotal_order 0 y) as [Hpos | [<- | Hneg]].
  - rewrite (Rsign_pos Hpos). f_equal.
    change 2 with (INR 2). rewrite Rpower_pow by exact Hpos. simpl. ring.
  - rewrite Rsign_zero.
    destruct (Rlt_dec 0 2); [ f_equal; ring | lra ].
  - rewrite (Rsign_neg Hneg). unfold is_integer. rewrite Hint.
    destruct (Req_dec_T 2 2) as [_ | N]; [ | contradiction ].
    cbn [Z.odd]. f_equal.
    change 2 with (INR 2). rewrite Rpower_pow by lra. simpl. ring.
Qed.

Lemma Math_sqrt_Fin : forall x, 0 <= x -> Math_sqrt (Fin x) = Fin (sqrt x).
Proof.
  intros x Hx. simpl. destruct (Rlt_dec x 0); [ lra | reflexivity ].
Qed.

Lemma inversion_in_unit_interval :
  forall x, 0 <= x <= 1 -> 0 <= inversion x <= 1.
Proof.
  intros x [H0 H1]. unfold inversion, three_halves_power.
  assert (Hc0 : 0 <= x ^ 3) by (apply pow_le; exact H0).
  assert (Hc1 : x ^ 3 <= 1).
  { replace 1 with (1 ^ 3) by (simpl; ring). apply pow_incr. lra. }
  pose proof (sqrt_pos (x ^ 3)) as Hs0.
  assert (Hs1 : sqrt (x ^ 3) <= 1).
  { rewrite <- sqrt_1. apply sqrt_le_1; lra. }
  lra.
Qed.

End RangeFacts.

Section ScorerRanges.

Import AISimilarityScoring.
Local Open Scope R_scope.
Context {L : Lib}.

Lemma wordsInText_length :
  forall words stemmedTokens,
    (List.length (wordsInText words stemmedTokens)
     <= List.length stemmedTokens)%nat.
Proof. intros. unfold wordsInText. apply filter_length_le. Qed.

Lemma density_in_unit_interval :
  forall words tokens,
    tokens <> [] ->
    exists x,
      div (of_nat (List.length (wordsInText words (map stemLower tokens))))
          (of_nat (List.length tokens)) = Fin x
      /\ 0 <= x <= 1.
Proof.
  intros words tokens Hne.
  apply ratio_in_unit_interval.
  - rewrite <- (length_map stemLower tokens). apply wordsInText_length.
  - destruct tokens; [ contradiction | simpl; lia ].
Qed.

Lemma vocabulary_in_unit_interval :
  forall text v,
    tokenize text <> [] ->
    calculateVocabularyComplexity text = Ok v ->
    in_unit_interval v.
Proof.
  intros text v Hne H.
  unfold calculateVocabularyComplexity in H.
  destruct (density_in_unit_interval getAcademicWordList Hne)
    as (a & Ha & Hra).
  destruct (density_in_unit_interval connectorWords Hne)
    as (c & Hc & Hrc).
  rewrite Ha, Hc in H.
  destruct (buildMarkovChain (map stemLower (tokenize text)) [])
    as [m | e]; [ | discriminate ].
  destruct (transitionOptions m) as [total count].
  assert (Havg : exists t, 0 <= t /\
            (if (0 <? count)%nat
             then div (of_nat total) (of_nat count) else Fin 0) = Fin t).
  { destruct (0 <? count)%nat eqn:E.
    - apply Nat.ltb_lt in E. unfold of_nat.
      rewrite div_Fin_pos by (apply lt_0_INR; exact E).
      eexists. split; [ | reflexivity ].
      apply Rmult_le_pos; [ apply pos_INR | ].
      left. apply Rinv_0_lt_compat. apply lt_0_INR. exact E.
    - exists 0. split; [ lra | reflexivity ]. }
  destruct Havg as (t & Ht & Havg).
  rewrite Havg, div_Fin_pos in H by lra.
  destruct (@min_one_in_unit_interval (t / 5)) as (n & Hn & Hrn); [ lra | ].
  rewrite Hn in H. cbn [mul add] in H.
  injection H as <-. simpl. lra.
Qed.

Lemma polarities_finite :
  (forall s, exists x, polarity_compound s = Fin x) ->
  forall segments, exists xs,
    map polarity_compound segments = map Fin xs
    /\ List.length xs = List.length segments.
Proof.
  intros Hfin. induction segments as [ | s rest (xs & Hxs & Hlen)].
  - exists []. split; reflexivity.
  - destruct (Hfin s) as [x Hx].
    exists (x :: xs). simpl. rewrite Hx, Hxs, Hlen. split; reflexivity.
Qed.

Lemma sum_squares_nonneg :
  forall (m : R) (xs : list R),
    0 <= fold_right Rplus 0 (map (fun x => (x - m) * (x - m)) xs).
Proof.
  intros m. induction xs as [ | x xs IH]; simpl.
  - lra.
  - pose proof (Rle_0_sqr (x - m)) as Hsq. unfold Rsqr in Hsq. lra.
Qed.

Lemma emotional_in_unit_interval :
  (forall s, exists x, polarity_compound s = Fin x) ->
  forall textSegments,
    in_unit_interval (calculateEmotionalFluctuation textSegments).
Proof.
  intros Hfin textSegments. unfold calculateEmotionalFluctuation.
  destruct (List.length textSegments <? 2)%nat eqn:E; [ simpl; lra | ].
  apply Nat.ltb_ge in E.
  destruct (polarities_finite Hfin textSegments) as (xs & -> & Hlen).
  rewrite length_map, Hlen.
  assert (Hn : 0 < INR (List.length textSegments))
    by (apply lt_0_INR; lia).
  rewrite sum_Fin. unfold of_nat. rewrite (div_Fin_pos _ Hn).
  set (m := fold_right Rplus 0 xs / INR (List.length textSegments)).
  rewrite map_map.
  rewrite (map_ext _ (fun x => Fin ((x - m) * (x - m))))
    by (intros x; cbn [sub]; apply Math_pow_square).
  rewrite <- (map_map (fun x => (x - m) * (x - m)) Fin), sum_Fin.
  rewrite (div_Fin_pos _ Hn).
  pose proof (sum_squares_nonneg m xs) as Hsum.
  set (total := fold_right Rplus 0 (map (fun x => (x - m) * (x - m)) xs))
    in *.
  assert (Hvar : 0 <= total / INR (List.length textSegments)).
  { apply Rmult_le_pos; [ exact Hsum | ].
    left. now apply Rinv_0_lt_compat. }
  rewrite (Math_sqrt_Fin Hvar), div_Fin_pos by lra.
  pose proof (sqrt_pos (total / INR (List.length textSegments))) as Hsd.
  destruct (@min_one_in_unit_interval
              (sqrt (total / INR (List.length textSegments)) / 0.5))
    as (y & -> & Hy); [ lra | ].
  exact Hy.
Qed.

End ScorerRanges.

Section DivergenceRange.

Import AISimilarityScoring.
Local Open Scope R_scope.
Context {L : Lib}.

Lemma Math_max_of_nat :
  forall a b : nat, Math_max (of_nat a) (of_nat b) = of_nat (Nat.max a b).
Proof.
  intros a b. unfold Math_max, of_nat. simpl.
  destruct (Rlt_dec (INR a) (INR b)) as [Hlt | Hge].
  - apply INR_lt in Hlt. now rewrite Nat.max_r by lia.
  - apply Rnot_lt_le, INR_le in Hge. now rewrite Nat.max_l by lia.
Qed.

Lemma jump_nonneg :
  forall currentConcepts nextConcepts : list string,
    currentConcepts <> [] ->
    exists j,
      sub (Fin 1)
          (div (of_nat (List.length
                          (filter (fun concept =>
                                     existsb (String.eqb concept) nextConcepts)
                                  currentConcepts)))
               (Math_max (of_nat (List.length currentConcepts))
                         (of_nat (List.length nextConcepts))))
      = Fin j /\ 0 <= j <= 1.
Proof.
  intros currentConcepts nextConcepts Hne.
  rewrite Math_max_of_nat.
  destruct (@ratio_in_unit_interval
              (List.length (filter (fun concept =>
                                      existsb (String.eqb concept) nextConcepts)
                                   currentConcepts))
              (Nat.max (List.length currentConcepts)
                       (List.length nextConcepts)))
    as (r & -> & Hr).
  - apply Nat.le_trans with (List.length currentConcepts);
      [ apply filter_length_le | apply Nat.le_max_l ].
  - apply Nat.lt_le_trans with (List.length currentConcepts);
      [ | apply Nat.le_max_l ].
    destruct currentConcepts; [ contradiction | simpl; lia ].
  - exists (1 - r). split; [ reflexivity | lra ].
Qed.

Lemma totalJumpDistance_nonneg :
  forall segmentConcepts total,
    Forall (fun concepts : list string => concepts <> []) segmentConcepts ->
    0 <= total ->
    exists t, totalJumpDistance segmentConcepts (Fin total) = Fin t /\ 0 <= t.
Proof.
  induction segmentConcepts as [ | current rest IH]; intros total Hall Htot.
  - exists total. split; [ reflexivity | exact Htot ].
  - destruct rest as [ | next rest'].
    + exists total. split; [ reflexivity | exact Htot ].
    + cbn [totalJumpDistance].
      inversion Hall as [ | ? ? Hcur Hrest]; subst.
      destruct (jump_nonneg next Hcur) as (j & -> & Hj).
      cbn [add]. apply IH; [ exact Hrest | lra ].
Qed.

Lemma divergence_in_unit_interval :
  forall textSegments,
    Forall (fun segment => segmentConcept segment <> []) textSegments ->
    in_unit_interval (calculateCreativeDivergence textSegments).
Proof.
  intros textSegments Hall. unfold calculateCreativeDivergence.
  destruct (List.length textSegments <? 2)%nat eqn:E; [ simpl; lra | ].
  apply Nat.ltb_ge in E.
  destruct (@totalJumpDistance_nonneg (map segmentConcept textSegments) 0)
    as (t & -> & Ht).
  - apply Forall_map. exact Hall.
  - lra.
  - rewrite length_map. unfold of_nat.
    assert (Hn : 0 < INR (List.length textSegments - 1))
      by (apply lt_0_INR; lia).
    rewrite (div_Fin_pos _ Hn). cbn [mul].
    assert (Havg : 0 <= t / INR (List.length textSegments - 1)).
    { apply Rmult_le_pos; [ exact Ht | ].
      left. now apply Rinv_0_lt_compat. }
    destruct (@min_one_in_unit_interval
                (t / INR (List.length textSegments - 1) * 1.5))
      as (y & -> & Hy); [ lra | ].
    exact Hy.
Qed.

Lemma overallScore_in_unit_interval :
  forall v e c,
    in_unit_interval v -> in_unit_interval e -> in_unit_interval c ->
    in_unit_interval (calculateOverallScore v e c).
Proof.
  intros [ | | | v] [ | | | e] [ | | | c]; simpl; try contradiction.
  intros Hv He Hc. unfold calculateOverallScore.
  rewrite !invertAIScore_Fin by lra. cbn [mul add in_unit_interval].
  pose proof (inversion_in_unit_interval Hv).
  pose proof (inversion_in_unit_interval He).
  pose proof (inversion_in_unit_interval Hc).
  lra.
Qed.

End DivergenceRange.

Section JudgeRanges.

Import InnovationFeatureMatrix Route.
Local Open Scope R_scope.

Lemma parseFloat_cases :
  forall s, parseFloat s = NaN \/ exists x, parseFloat s = Fin x.
Proof.
  intros s. unfold parseFloat.
  destruct (take_digits s 0%N 0%nat) as [[i ni] rest].
  destruct rest as [ | c rest'].
  - destruct (ni =? 0)%nat; [ now left | right; eexists; reflexivity ].
  - destruct (Ascii.eqb c "."%char) eqn:E.
    + apply Ascii.eqb_eq in E. subst c.
      destruct (take_digits rest' 0%N 0%nat) as [[f nf] rest''].
      destruct (ni + nf =? 0)%nat; [ now left | right; eexists; reflexivity ].
    + assert (H : (if (ni =? 0)%nat then NaN else Fin (IZR (Z.of_N i)))
                  = NaN \/ exists x,
                    (if (ni =? 0)%nat then NaN else Fin (IZR (Z.of_N i)))
                    = Fin x).
      { destruct (ni =? 0)%nat; [ now left | right; eexists; reflexivity ]. }
      destruct c as [[] [] [] [] [] [] [] []]; try exact H; discriminate.
Qed.

Lemma judge_score_cases :
  forall dimension rubric reply,
    score (judge dimension rubric reply) = NaN
    \/ in_unit_interval (score (judge dimension rubric reply)).
Proof.
  intros dimension rubric reply. unfold judge.
  destruct reply as [e | [ | content choices]];
    try (right; simpl; lra).
  cbn [score].
  destruct (RegExp.match_group1 scorePattern
              match content with Some s => s | None => ""%string end)
    as [group1 | ].
  - destruct (parseFloat_cases group1) as [-> | [x ->]].
    + now left.
    + right. apply clamp_in_unit_interval.
  - right. apply clamp_in_unit_interval.
Qed.

Lemma runJudge_score_cases :
  forall (L : Lib) (w : World) t delays d,
    score (runJudge w t delays d) = NaN
    \/ in_unit_interval (score (runJudge w t delays d)).
Proof.
  intros L w t delays d.
  destruct d; try apply judge_score_cases.
  right. cbn [runJudge]. rewrite analyzeTimePerception_score.
  destruct (timeScore_range (averageDelay delays)
              (hasVagueTimeReferences t) (hasPreciseTimeReferences t))
    as (x & -> & Hx).
  simpl. lra.
Qed.

Lemma innovation_in_unit_interval :
  forall scores,
    in_unit_interval (semanticElasticity scores) ->
    in_unit_interval (emotionalExpression scores) ->
    in_unit_interval (referenceAbility scores) ->
    in_unit_interval (ambiguityHandling scores) ->
    in_unit_interval (creativeThinking scores) ->
    in_unit_interval (timePerception scores) ->
    in_unit_interval (InnovationFeatureMatrix.calculateOverallScore scores).
Proof.
  intros [[ | | | a] [ | | | b] [ | | | c] [ | | | d] [ | | | e] [ | | | f]];
    simpl; try contradiction.
  intros. unfold InnovationFeatureMatrix.calculateOverallScore. simpl. lra.
Qed.

Lemma combineScores_in_unit_interval :
  forall a i,
    in_unit_interval a -> in_unit_interval i ->
    in_unit_interval (combineScores a i).
Proof.
  intros [ | | | a] [ | | | i]; simpl; try contradiction.
  intros. lra.
Qed.

End JudgeRanges.

Section ReportRanges.

Import InnovationFeatureMatrix Route.
Local Open Scope string_scope.
Context {L : Lib}.

(** The fields of a report, as the handler computes them. *)
Lemma POST_200_fields :
  forall (w : World) (request : Request) calls report,
    POST w request = (calls, Status200 report) ->
    exists t v,
      text request = Some t
      /\ AISimilarityScoring.calculateVocabularyComplexity t = Ok v
      /\ AiSimilarity.vocabularyComplexity (aiSimilarity report) = v
      /\ AiSimilarity.emotionalFluctuation (aiSimilarity report)
         = AISimilarityScoring.calculateEmotionalFluctuation (segmentText t)
      /\ AiSimilarity.creativeDivergence (aiSimilarity report)
         = AISimilarityScoring.calculateCreativeDivergence (segmentText t)
      /\ AiSimilarity.overallScore (aiSimilarity report)
         = AISimilarityScoring.calculateOverallScore
             (AiSimilarity.vocabularyComplexity (aiSimilarity report))
             (AiSimilarity.emotionalFluctuation (aiSimilarity report))
             (AiSimilarity.creativeDivergence (aiSimilarity report))
      /\ InnovationFeatures.overallScore (innovationFeatures report)
         = InnovationFeatureMatrix.calculateOverallScore
             {| semanticElasticity :=
                  score (feature report SemanticElasticity);
                emotionalExpression :=
                  score (feature report EmotionalExpression);
                referenceAbility := score (feature report ReferenceAbility);
                ambiguityHandling :=
                  score (feature report AmbiguityHandling);
                creativeThinking := score (feature report CreativeThinking);
                timePerception := score (feature report TimePerception) |}.
Proof.
  intros w request calls report H.
  unfold POST in H.
  destruct (text request) as [t | ]; [ | discriminate ].
  destruct (negb (Str.truthy t)); [ discriminate | ].
  destruct (AISimilarityScoring.calculateVocabularyComplexity t) as [v | e]
    eqn:Hv; [ | discriminate ].
  injection H as _ <-.
  exists t, v. repeat (split; [ reflexivity || exact Hv | ]). reflexivity.
Qed.

(** X15.  Where no quotient is 0 / 0 and every score the judges read is a
    number, the twelve score fields of the report are within [0,1]: the
    text has a token, every segment has a key concept, the polarities are
    finite, and no feature score is NaN. *)
Theorem report_scores_in_unit_interval :
  forall (w : World) (request : Request) t calls report,
    POST w request = (calls, Status200 report) ->
    text request = Some t ->
    tokenize t <> [] ->
    Forall (fun segment => AISimilarityScoring.segmentConcept segment <> [])
           (segmentText t) ->
    (forall s, exists x, polarity_compound s = Fin x) ->
    (forall d, score (feature report d) <> NaN) ->
    in_unit_interval (AiSimilarity.vocabularyComplexity (aiSimilarity report))
    /\ in_unit_interval
         (AiSimilarity.emotionalFluctuation (aiSimilarity report))
    /\ in_unit_interval (AiSimilarity.creativeDivergence (aiSimilarity report))
    /\ in_unit_interval (AiSimilarity.overallScore (aiSimilarity report))
    /\ (forall d, in_unit_interval (score (feature report d)))
    /\ in_unit_interval
         (InnovationFeatures.overallScore (innovationFeatures report))
    /\ in_unit_interval (overallHumanLikenessScore report).
Proof.
  intros w request t calls report Hpost Ht Htok Hconcepts Hpol Hjudges.
  destruct (POST_200_fields _ _ Hpost)
    as (t' & v & Ht' & Hv & Hvoc & Hemo & Hdiv & Hai & Hinn).
  rewrite Ht in Ht'. injection Ht' as <-.
  destruct (POST_200_inv _ _ Hpost) as (t' & _ & Ht' & _ & _ & _ & _ & Hf).
  rewrite Ht in Ht'. injection Ht' as <-.
  destruct (POST_composite _ _ _ Hpost) as [Hall _].
  assert (R1 : in_unit_interval
                 (AiSimilarity.vocabularyComplexity (aiSimilarity report))).
  { rewrite Hvoc. eapply vocabulary_in_unit_interval; eassumption. }
  assert (R2 : in_unit_interval
                 (AiSimilarity.emotionalFluctuation (aiSimilarity report))).
  { rewrite Hemo. now apply emotional_in_unit_interval. }
  assert (R3 : in_unit_interval
                 (AiSimilarity.creativeDivergence (aiSimilarity report))).
  { rewrite Hdiv. now apply divergence_in_unit_interval. }
  assert (R4 : in_unit_interval
                 (AiSimilarity.overallScore (aiSimilarity report))).
  { rewrite Hai. now apply overallScore_in_unit_interval. }
  assert (R5 : forall d, in_unit_interval (score (feature report d))).
  { intros d. specialize (Hjudges d). rewrite Hf in *.
    destruct (runJudge_score_cases L w t (delaysOf request) d) as [E | E];
      [ contradiction | exact E ]. }
  assert (R6 : in_unit_interval
                 (InnovationFeatures.overallScore
                    (innovationFeatures report))).
  { rewrite Hinn. apply innovation_in_unit_interval; apply R5. }
  repeat (split; [ assumption | ]).
  rewrite Hall. now apply combineScores_in_unit_interval.
Qed.

End ReportRanges.

Section AnalyzedExample.

Import InnovationFeatureMatrix Route.
Local Open Scope string_scope.

Lemma judge_reply_eight :
  forall dimension rubric,
    score (judge dimension rubric (Resolved [Some "Score: 0.8"])) = Fin 0.8.
Proof.
  intros dimension rubric. unfold judge. cbn [score].
  replace (RegExp.match_group1 scorePattern "Score: 0.8")
    with (Some "0.8") by (vm_compute; reflexivity).
  replace (parseFloat "0.8") with (Fin 0.8) by (cbv; f_equal).
  apply clamp_inside. lra.
Qed.

(** The request "I was late. Sorry!", every judge being answered
    "Score: 0.8": all the score fields of the report are within [0,1]. *)
Lemma lateRequest_scores :
  exists calls report,
    POST (L := Sample.lib) (Sample.answering "Score: 0.8") Sample.lateRequest
    = (calls, Status200 report)
    /\ (forall d, in_unit_interval (score (feature report d)))
    /\ in_unit_interval (AiSimilarity.overallScore (aiSimilarity report))
    /\ in_unit_interval
         (InnovationFeatures.overallScore (innovationFeatures report))
    /\ in_unit_interval (overallHumanLikenessScore report).
Proof.
  destruct lateRequest_vocabulary as [v Hv].
  destruct (POST_200_intro (L := Sample.lib) (Sample.answering "Score: 0.8")
              Sample.lateRequest eq_refl eq_refl Hv) as [report Hpost].
  destruct (POST_200_inv _ _ Hpost) as (t & _ & Ht & _ & _ & _ & _ & Hf).
  injection Ht as <-.
  destruct (@report_scores_in_unit_interval Sample.lib
              (Sample.answering "Score: 0.8") Sample.lateRequest
              "I was late. Sorry!" _ report Hpost eq_refl)
    as (_ & _ & _ & Hai & Hfeatures & Hinn & Hall).
  - vm_compute. discriminate.
  - repeat constructor. vm_compute. discriminate.
  - intros s. exists 0%R. reflexivity.
  - intros d. rewrite Hf.
    destruct d; cbn [runJudge Sample.answering grok_chat];
      try (unfold analyzeSemanticElasticity, analyzeEmotionalExpression,
             analyzeReferenceAbility, analyzeAmbiguityHandling,
             analyzeCreativeThinking;
           rewrite judge_reply_eight; discriminate).
    rewrite analyzeTimePerception_score.
    destruct (timeScore_range
                (averageDelay (delaysOf Sample.lateRequest))
                (hasVagueTimeReferences "I was late. Sorry!")
                (hasPreciseTimeReferences "I was late. Sorry!"))
      as (x & -> & _).
    discriminate.
  - do 2 eexists. split; [ exact Hpost | ].
    repeat split; assumption.
Defined.

End AnalyzedExample.

(* ================================================================== *)
(** * Further properties of the scorers, the judges and the handler *)
(* ================================================================== *)

Section MarkovChain.

Import AISimilarityScoring.
Local Open Scope string_scope.

Lemma own_key : forall m key v, own m key = Some v -> In key (map fst m).
Proof.
  induction m as [ | [k w] m IH]; intros key v H; simpl in *.
  - discriminate.
  - destruct (k =? key) eqn:E.
    + apply String.eqb_eq in E. now left.
    + right. eapply IH. eassumption.
Qed.

Lemma own_not_inherited :
  forall m key v, keys_own m -> own m key = Some v -> inherited key = false.
Proof.
  intros m key v Hm Hown. apply own_key in Hown.
  apply in_map_iff in Hown. destruct Hown as ([k w] & <- & Hin).
  unfold keys_own in Hm. rewrite Forall_forall in Hm. exact (Hm _ Hin).
Qed.

Lemma push_keys : forall m key next, map fst (push m key next) = map fst m.
Proof.
  induction m as [ | [k w] m IH]; intros key next; simpl.
  - reflexivity.
  - destruct (k =? key); simpl; [ reflexivity | now rewrite IH ].
Qed.

Lemma push_keys_own :
  forall m key next, keys_own m -> keys_own (push m key next).
Proof.
  unfold keys_own. intros m key next H.
  rewrite Forall_forall in *. intros [k w] Hin.
  apply (in_map fst) in Hin. rewrite push_keys in Hin.
  apply in_map_iff in Hin. destruct Hin as ([k' w'] & E & Hin').
  simpl in *. subst k'. exact (H _ Hin').
Qed.

Lemma push_successors :
  forall m key next,
    successors_present m -> successors_present (push m key next).
Proof.
  unfold successors_present.
  induction m as [ | [k w] m IH]; intros key next H; simpl.
  - constructor.
  - inversion H as [ | ? ? Hw Hm]; subst.
    destruct (k =? key).
    + constructor; [ | exact Hm ]. simpl. now destruct w.
    + constructor; [ exact Hw | now apply IH ].
Qed.

Lemma push_nonempty :
  forall m key next, m <> [] -> push m key next <> [].
Proof.
  intros [ | [k w] m] key next H; [ contradiction | ].
  simpl. destruct (k =? key); discriminate.
Qed.

Lemma buildMarkovChain_step :
  forall current next rest m,
    buildMarkovChain (current :: next :: rest) m
    = match own m current with
      | Some _ => buildMarkovChain (next :: rest) (push m current next)
      | None =>
          if inherited current
          then Throw "TypeError: markovChain[...].push is not a function"
          else buildMarkovChain (next :: rest)
                 (m ++ [(current, [next])])%list
      end.
Proof. reflexivity. Qed.

(** The chain throws exactly when a stem other than the last one names a
    member of [Object.prototype]. *)
Lemma buildMarkovChain_throws :
  forall stemmedTokens m,
    keys_own m ->
    (exists e, buildMarkovChain stemmedTokens m = Throw e)
    <-> existsb inherited (removelast stemmedTokens) = true.
Proof.
  induction stemmedTokens as [ | current rest IH]; intros m Hm.
  - simpl. split; [ intros [e H]; discriminate | discriminate ].
  - destruct rest as [ | next rest'].
    + simpl. split; [ intros [e H]; discriminate | discriminate ].
    + rewrite buildMarkovChain_step.
      change (removelast (current :: next :: rest'))
        with (current :: removelast (next :: rest')).
      cbn [existsb].
      destruct (own m current) as [v | ] eqn:Hown.
      * rewrite (own_not_inherited _ Hm Hown). cbn [orb].
        apply IH. now apply push_keys_own.
      * destruct (inherited current) eqn:Hinh.
        -- cbn [orb]. split; [ reflexivity | intros _; eexists; reflexivity ].
        -- cbn [orb]. apply IH.
           unfold keys_own. apply Forall_app. split; [ exact Hm | ].
           constructor; [ exact Hinh | constructor ].
Qed.

Lemma buildMarkovChain_successors :
  forall stemmedTokens m m',
    successors_present m ->
    buildMarkovChain stemmedTokens m = Ok m' ->
    successors_present m'
    /\ (m <> [] \/ 2 <= List.length stemmedTokens -> m' <> []).
Proof.
  induction stemmedTokens as [ | current rest IH]; intros m m' Hm H.
  - simpl in H. injection H as <-. split; [ exact Hm | ].
    intros [Hne | Hlen]; [ exact Hne | simpl in Hlen; lia ].
  - destruct rest as [ | next rest'].
    + simpl in H. injection H as <-. split; [ exact Hm | ].
      intros [Hne | Hlen]; [ exact Hne | simpl in Hlen; lia ].
    + rewrite buildMarkovChain_step in H.
      destruct (own m current) as [v | ] eqn:Hown.
      * destruct (IH _ _ (push_successors current next Hm) H) as [Hs Hne].
        split; [ exact Hs | ]. intros _. apply Hne. left.
        apply push_nonempty. intros ->. discriminate.
      * destruct (inherited current); [ discriminate | ].
        assert (Hm' : successors_present (m ++ [(current, [next])])%list).
        { unfold successors_present. apply Forall_app.
          split; [ exact Hm | ]. constructor; [ discriminate | constructor ]. }
        destruct (IH _ _ Hm' H) as [Hs Hne].
        split; [ exact Hs | ]. intros _. apply Hne. left.
        intros E. apply app_eq_nil in E. destruct E as [_ E]. discriminate.
Qed.

Lemma Set_size_positive : forall xs, xs <> [] -> 1 <= Set_size xs.
Proof.
  intros [ | x xs] H; [ contradiction | ].
  unfold Set_size.
  destruct (nodup string_dec (x :: xs)) as [ | y ys] eqn:E.
  - assert (Hin : In x (nodup string_dec (x :: xs)))
      by (apply nodup_In; now left).
    rewrite E in Hin. contradiction.
  - simpl. lia.
Qed.

Lemma transitionOptions_from :
  forall m total count,
    successors_present m ->
    count <= total ->
    let '(total', count') :=
      fold_left (fun '(total, count) '(_, nexts) =>
                   ((total + Set_size nexts)%nat, S count))
                m (total, count) in
    count' = (count + List.length m)%nat /\ count' <= total'.
Proof.
  induction m as [ | [k nexts] m IH]; intros total count Hm Hle.
  - simpl. split; lia.
  - cbn [fold_left]. inversion Hm as [ | ? ? Hn Hm']; subst.
    simpl in Hn. pose proof (Set_size_positive Hn) as Hpos.
    specialize (IH (total + Set_size nexts)%nat (S count) Hm').
    destruct (fold_left _ m ((total + Set_size nexts)%nat, S count))
      as [total' count'].
    destruct IH as [Hc Ht]; [ lia | ].
    split; [ simpl; lia | exact Ht ].
Qed.

Lemma transitionOptions_bounds :
  forall m total count,
    successors_present m ->
    transitionOptions m = (total, count) ->
    count = List.length m /\ count <= total.
Proof.
  intros m total count Hm H.
  pose proof (@transitionOptions_from m 0 0 Hm (Nat.le_refl 0)) as Hf.
  unfold transitionOptions in H. rewrite H in Hf. exact Hf.
Qed.

End MarkovChain.

Section VocabularyBounds.

Import AISimilarityScoring.
Local Open Scope R_scope.
Context {L : Lib}.

Lemma Math_min_Fin :
  forall x y, Math_min (Fin x) (Fin y) = Fin (Rmin x y).
Proof.
  intros x y. unfold Math_min, ltb, Rmin.
  destruct (Rlt_dec y x), (Rle_dec x y); try reflexivity; try lra;
    f_equal; lra.
Qed.

Lemma quotient_nat_bounds :
  forall total count : nat,
    (0 < count)%nat -> (count <= total)%nat ->
    div (of_nat total) (of_nat count) = Fin (INR total / INR count)
    /\ 1 <= INR total / INR count.
Proof.
  intros total count Hpos Hle. unfold of_nat.
  assert (Hc : 0 < INR count) by (apply lt_0_INR; exact Hpos).
  rewrite (div_Fin_pos _ Hc). split; [ reflexivity | ].
  apply (Rmult_le_reg_r (INR count)); [ exact Hc | ].
  unfold Rdiv. rewrite Rmult_assoc, Rinv_l by lra.
  apply le_INR in Hle. lra.
Qed.

(** X1.  On a text with at least one token, when the chain of transitions
    is built without an exception, [calculateVocabularyComplexity] returns
    a number of [0,1]; with two tokens or more every stem of the chain has a
    successor, the average branching is at least 1, and the score is at
    least 0.06. *)
Theorem vocabulary_complexity_bounds :
  forall (text : string) (v : number),
    tokenize text <> [] ->
    calculateVocabularyComplexity text = Ok v ->
    exists x,
      v = Fin x /\ 0 <= x <= 1
      /\ ((2 <= List.length (tokenize text))%nat -> 0.06 <= x).
Proof.
  intros text v Hne H.
  unfold calculateVocabularyComplexity in H.
  destruct (density_in_unit_interval getAcademicWordList Hne)
    as (a & Ha & Hra).
  destruct (density_in_unit_interval connectorWords Hne)
    as (c & Hc & Hrc).
  rewrite Ha, Hc in H.
  destruct (buildMarkovChain (map stemLower (tokenize text)) [])
    as [m | e] eqn:Hchain; [ | discriminate ].
  destruct (@buildMarkovChain_successors
              (map stemLower (tokenize text)) [] m)
    as [Hsucc Hnonempty]; [ constructor | exact Hchain | ].
  destruct (transitionOptions m) as [total count] eqn:Hopt.
  destruct (transitionOptions_bounds Hsucc Hopt) as [Hcount Hle].
  assert (Havg : exists t,
            (if (0 <? count)%nat
             then div (of_nat total) (of_nat count) else Fin 0) = Fin t
            /\ 0 <= t
            /\ ((2 <= List.length (tokenize text))%nat -> 1 <= t)).
  { destruct (0 <? count)%nat eqn:E.
    - apply Nat.ltb_lt in E.
      destruct (quotient_nat_bounds E Hle) as [-> Hone].
      eexists. split; [ reflexivity | ]. split; [ lra | intros _; exact Hone ].
    - exists 0. split; [ reflexivity | ]. split; [ lra | ].
      intros Hlen. apply Nat.ltb_ge in E.
      assert (Hm : m <> []).
      { apply Hnonempty. right. now rewrite length_map. }
      destruct m; [ contradiction | simpl in Hcount; lia ]. }
  destruct Havg as (t & Havg & Ht & Hone).
  rewrite Havg, div_Fin_pos, Math_min_Fin in H by lra.
  cbn [mul add] in H. injection H as <-.
  eexists. split; [ reflexivity | ].
  assert (Hmin0 : 0 <= Rmin (t / 5) 1) by (apply Rmin_glb; lra).
  pose proof (Rmin_r (t / 5) 1) as Hmin1.
  split; [ lra | ].
  intros Hlen. specialize (Hone Hlen).
  assert (0.2 <= Rmin (t / 5) 1) by (apply Rmin_glb; lra).
  lra.
Qed.

End VocabularyBounds.

Lemma vocabulary_complexity_bounds_witness :
  tokenize "I was late. Sorry!" <> []
  /\ exists v x,
       AISimilarityScoring.calculateVocabularyComplexity (L := Sample.lib)
         "I was late. Sorry!" = Ok v
       /\ v = Fin x /\ (0 <= x <= 1)%R /\ (0.06 <= x)%R.
Proof.
  assert (Hne : tokenize "I was late. Sorry!" <> [])
    by (vm_compute; discriminate).
  split; [ exact Hne | ].
  destruct lateRequest_vocabulary as [v Hv].
  destruct (@vocabulary_complexity_bounds Sample.lib "I was late. Sorry!"
              v Hne Hv) as (x & Hx & Hrange & Hlow).
  exists v, x. repeat split; try assumption; try apply Hrange.
  apply Hlow. vm_compute. lia.
Defined.

Section PrototypeNames.

Import AISimilarityScoring Route.
Local Open Scope string_scope.
Context {L : Lib}.

Lemma vocabulary_throw_iff :
  forall text : string,
    (exists e, calculateVocabularyComplexity text = Throw e)
    <-> existsb inherited (removelast (map stemLower (tokenize text))) = true.
Proof.
  intros text.
  rewrite <- (@buildMarkovChain_throws (map stemLower (tokenize text)) [])
    by constructor.
  unfold calculateVocabularyComplexity.
  destruct (buildMarkovChain (map stemLower (tokenize text)) []) as [m | e].
  - destruct (transitionOptions m).
    split; intros [e H]; discriminate.
  - split; intros _; eexists; reflexivity.
Qed.

(** X2.  [calculateVocabularyComplexity] throws exactly when a stem of the
    text other than the last one names a member of [Object.prototype]
    ("constructor", "__proto__", ...): [markovChain[stem]] is then the
    inherited member, no array is created, and [push] is not a function. *)
Theorem vocabulary_throws_on_prototype_name :
  forall text : string,
    (exists e, calculateVocabularyComplexity text = Throw e)
    <-> existsb inherited (removelast (map stemLower (tokenize text))) = true.
Proof. exact vocabulary_throw_iff. Qed.

(** X3.  For a request whose text is a string, the analyze handler answers
    with status 500 exactly when a stem of the text other than the last
    names a member of [Object.prototype]; no call has then left the
    process (neither the completion service nor the store is reached). *)
Theorem POST_internal_error :
  forall (w : World) (request : Request) (t : string),
    text request = Some t ->
    (snd (POST w request) = Status500 "Failed to analyze text"
     <-> existsb inherited (removelast (map stemLower (tokenize t))) = true)
    /\ (snd (POST w request) = Status500 "Failed to analyze text" ->
        fst (POST w request) = []).
Proof.
  intros w request t Ht. unfold POST. rewrite Ht.
  destruct t as [ | c t'].
  - simpl. split; [ | discriminate ].
    split; [ discriminate | ].
    intros Hex. vm_compute in Hex. discriminate.
  - cbn [Str.truthy negb].
    pose proof (vocabulary_throw_iff (String c t')) as Hiff.
    destruct (calculateVocabularyComplexity (String c t')) as [v | e].
    + cbn [snd fst]. split; [ | discriminate ].
      split; [ discriminate | ].
      intros Hex. apply Hiff in Hex. destruct Hex as [e He]. discriminate.
    + cbn [snd fst]. split; [ | reflexivity ].
      split; [ | reflexivity ].
      intros _. apply Hiff. eexists. reflexivity.
Qed.

End PrototypeNames.

Lemma vocabulary_throws_on_prototype_name_witness :
  existsb inherited
    (removelast (map (AISimilarityScoring.stemLower (L := Sample.lib))
                     (tokenize "The constructor is called first")))
  = true
  /\ exists e,
       AISimilarityScoring.calculateVocabularyComplexity (L := Sample.lib)
         "The constructor is called first" = Throw e.
Proof.
  assert (H : existsb inherited
                (removelast (map (AISimilarityScoring.stemLower
                                    (L := Sample.lib))
                               (tokenize "The constructor is called first")))
              = true) by (vm_compute; reflexivity).
  split; [ exact H | ].
  exact (proj2 (@vocabulary_throws_on_prototype_name Sample.lib
                  "The constructor is called first") H).
Defined.

Lemma POST_internal_error_witness :
  Route.POST (L := Sample.lib) Sample.offline
    {| Route.text := Some "The constructor is called first"%string;
       Route.responseDelays := None;
       Route.sessionId := Some "session-1"%string |}
  = ([], Route.Status500 "Failed to analyze text").
Proof.
  pose (request :=
          {| Route.text := Some "The constructor is called first"%string;
             Route.responseDelays := None;
             Route.sessionId := Some "session-1"%string |}).
  destruct (@POST_internal_error Sample.lib Sample.offline request
              "The constructor is called first"%string eq_refl)
    as [[_ Hstatus] Hcalls].
  assert (H : snd (Route.POST (L := Sample.lib) Sample.offline request)
              = Route.Status500 "Failed to analyze text").
  { apply Hstatus. vm_compute. reflexivity. }
  specialize (Hcalls H). fold request.
  destruct (Route.POST (L := Sample.lib) Sample.offline request) as [c r].
  simpl in *. now subst.
Defined.

Section FluctuationFacts.

Import AISimilarityScoring.
Local Open Scope R_scope.
Context {L : Lib}.





End FluctuationFacts.


Section DivergenceFacts.

Import AISimilarityScoring.
Local Open Scope R_scope.
Context {L : Lib}.

Lemma filter_none :
  forall (A : Type) (f : A -> bool) (xs : list A),
    (forall x, In x xs -> f x = false) -> filter f xs = [].
Proof.
  intros A f. induction xs as [ | x xs IH]; intros H; simpl.
  - reflexivity.
  - rewrite (H x) by now left. apply IH. intros y Hy. apply H. now right.
Qed.

Lemma filter_all :
  forall (A : Type) (f : A -> bool) (xs : list A),
    (forall x, In x xs -> f x = true) -> filter f xs = xs.
Proof.
  intros A f. induction xs as [ | x xs IH]; intros H; simpl.
  - reflexivity.
  - rewrite (H x) by now left. f_equal. apply IH.
    intros y Hy. apply H. now right.
Qed.

Lemma existsb_eqb_In :
  forall (concept : string) (concepts : list string),
    existsb (String.eqb concept) concepts = true <-> In concept concepts.
Proof.
  intros concept concepts. rewrite existsb_exists. split.
  - intros (y & Hin & E). apply String.eqb_eq in E. now subst.
  - intros Hin. exists concept. split; [ exact Hin | apply String.eqb_refl ].
Qed.

Lemma jump_disjoint :
  forall current next : list string,
    current <> [] -> share_no_concept current next ->
    sub (Fin 1)
        (div (of_nat (List.length
                        (filter (fun concept =>
                                   existsb (String.eqb concept) next)
                                current)))
             (Math_max (of_nat (List.length current))
                       (of_nat (List.length next))))
    = Fin 1.
Proof.
  intros current next Hne Hdis.
  rewrite filter_none.
  2:{ intros c Hc. destruct (existsb (String.eqb c) next) eqn:E;
        [ | reflexivity ].
      apply existsb_eqb_In in E. now destruct (Hdis c Hc). }
  rewrite Math_max_of_nat. unfold of_nat.
  rewrite div_Fin_pos.
  - cbn [sub List.length INR]. f_equal. unfold Rdiv. ring.
  - apply lt_0_INR.
    apply Nat.lt_le_trans with (List.length current);
      [ | apply Nat.le_max_l ].
    destruct current; [ contradiction | simpl; lia ].
Qed.

Lemma jump_same :
  forall current : list string,
    current <> [] ->
    sub (Fin 1)
        (div (of_nat (List.length
                        (filter (fun concept =>
                                   existsb (String.eqb concept) current)
                                current)))
             (Math_max (of_nat (List.length current))
                       (of_nat (List.length current))))
    = Fin 0.
Proof.
  intros current Hne.
  rewrite filter_all by (intros c Hc; now apply existsb_eqb_In).
  rewrite Math_max_of_nat, Nat.max_id. unfold of_nat.
  assert (Hpos : 0 < INR (List.length current)).
  { apply lt_0_INR. destruct current; [ contradiction | simpl; lia ]. }
  rewrite (div_Fin_pos _ Hpos). cbn [sub]. f_equal. field. lra.
Qed.

Lemma totalJumpDistance_disjoint :
  forall segmentConcepts total,
    Forall (fun concepts : list string => concepts <> []) segmentConcepts ->
    consecutive share_no_concept segmentConcepts ->
    totalJumpDistance segmentConcepts (Fin total)
    = Fin (total + INR (List.length segmentConcepts - 1)).
Proof.
  induction segmentConcepts as [ | current rest IH];
    intros total Hall Hcons.
  - simpl. f_equal. ring.
  - destruct rest as [ | next rest'].
    + simpl. f_equal. ring.
    + inversion Hall as [ | ? ? Hcur Hrest]; subst.
      destruct Hcons as [Hdis Hcons].
      change (totalJumpDistance (current :: next :: rest') (Fin total))
        with (totalJumpDistance (next :: rest')
                (add (Fin total)
                   (sub (Fin 1)
                      (div (of_nat (List.length
                                      (filter (fun concept =>
                                                 existsb (String.eqb concept)
                                                         next)
                                              current)))
                           (Math_max (of_nat (List.length current))
                                     (of_nat (List.length next))))))).
      rewrite (jump_disjoint Hcur Hdis). cbn [add].
      rewrite (IH _ Hrest Hcons). f_equal.
      replace (List.length (current :: next :: rest') - 1)%nat
        with (S (List.length (next :: rest') - 1)) by (simpl; lia).
      rewrite S_INR. ring.
Qed.

Lemma totalJumpDistance_same :
  forall (concepts : list string) (n : nat) total,
    concepts <> [] ->
    totalJumpDistance (repeat concepts n) (Fin total) = Fin total.
Proof.
  intros concepts n total Hne. revert total.
  induction n as [ | n IH]; intros total.
  - reflexivity.
  - destruct n as [ | n'].
    + reflexivity.
    + change (totalJumpDistance (repeat concepts (S (S n'))) (Fin total))
        with (totalJumpDistance (repeat concepts (S n'))
                (add (Fin total)
                   (sub (Fin 1)
                      (div (of_nat (List.length
                                      (filter (fun concept =>
                                                 existsb (String.eqb concept)
                                                         concepts)
                                              concepts)))
                           (Math_max (of_nat (List.length concepts))
                                     (of_nat (List.length concepts))))))).
      rewrite (jump_same Hne). cbn [add].
      rewrite IH. f_equal. ring.
Qed.

End DivergenceFacts.

Section DivergenceBounds.

Import AISimilarityScoring.
Local Open Scope R_scope.
Context {L : Lib}.

Lemma map_constant_repeat :
  forall (A B : Type) (f : A -> B) (b : B) (xs : list A),
    (forall x, In x xs -> f x = b) ->
    map f xs = repeat b (List.length xs).
Proof.
  intros A B f b. induction xs as [ | x xs IH]; intros H; simpl.
  - reflexivity.
  - rewrite (H x) by now left. f_equal. apply IH.
    intros y Hy. apply H. now right.
Qed.

(** X5.  When every segment has a key concept,
    [calculateCreativeDivergence] returns a number of [0,1]; it returns 1
    when no two consecutive segments share a concept, and 0 when all the
    segments have the same concepts. *)
Theorem creative_divergence_bounds :
  forall textSegments : list string,
    Forall (fun segment => segmentConcept segment <> []) textSegments ->
    in_unit_interval (calculateCreativeDivergence textSegments)
    /\ ((2 <= List.length textSegments)%nat ->
        consecutive share_no_concept (map segmentConcept textSegments) ->
        calculateCreativeDivergence textSegments = Fin 1)
    /\ (forall concepts,
          (forall segment, In segment textSegments ->
                           segmentConcept segment = concepts) ->
          calculateCreativeDivergence textSegments = Fin 0).
Proof.
  intros textSegments Hall.
  split; [ now apply divergence_in_unit_interval | ].
  split.
  - intros Hlen Hcons. unfold calculateCreativeDivergence.
    assert (E : (List.length textSegments <? 2)%nat = false)
      by (apply Nat.ltb_ge; exact Hlen).
    rewrite E, totalJumpDistance_disjoint;
      [ | apply Forall_map; exact Hall | exact Hcons ].
    rewrite length_map. unfold of_nat.
    assert (Hn : 0 < INR (List.length textSegments - 1))
      by (apply lt_0_INR; lia).
    rewrite (div_Fin_pos _ Hn). cbn [mul]. rewrite Math_min_Fin.
    f_equal.
    replace ((0 + INR (List.length textSegments - 1))
             / INR (List.length textSegments - 1)) with 1 by (field; lra).
    apply Rmin_right. lra.
  - intros concepts Hsame. unfold calculateCreativeDivergence.
    destruct (List.length textSegments <? 2)%nat eqn:E; [ reflexivity | ].
    apply Nat.ltb_ge in E.
    assert (Hne : concepts <> []).
    { destruct textSegments as [ | segment rest]; [ simpl in E; lia | ].
      rewrite <- (Hsame segment) by now left.
      now inversion Hall. }
    rewrite (@map_constant_repeat _ _ segmentConcept concepts textSegments Hsame).
    rewrite totalJumpDistance_same by exact Hne.
    rewrite repeat_length. unfold of_nat.
    assert (Hn : 0 < INR (List.length textSegments - 1))
      by (apply lt_0_INR; lia).
    rewrite (div_Fin_pos _ Hn). cbn [mul]. rewrite Math_min_Fin.
    f_equal. unfold Rdiv. rewrite !Rmult_0_l. apply Rmin_left. lra.
Qed.

End DivergenceBounds.

Lemma creative_divergence_bounds_witness :
  AISimilarityScoring.calculateCreativeDivergence (L := Sample.lib)
    ["red apple"; "blue sky"; "green grass"]%string = Fin 1
  /\ AISimilarityScoring.calculateCreativeDivergence (L := Sample.lib)
       ["red apple"; "red apple"]%string = Fin 0.
Proof.
  split.
  - apply (@creative_divergence_bounds Sample.lib
             ["red apple"; "blue sky"; "green grass"]%string).
    + repeat constructor; vm_compute; discriminate.
    + simpl. lia.
    + vm_compute. repeat split; intros concept H;
        repeat (destruct H as [<- | H]; [ intros [E | [E | E]];
                                          try discriminate; contradiction | ]);
        contradiction.
  - apply (proj2 (proj2 (@creative_divergence_bounds Sample.lib
                           ["red apple"; "red apple"]%string
                           ltac:(repeat constructor; vm_compute; discriminate)))
             (AISimilarityScoring.segmentConcept (L := Sample.lib)
                "red apple")).
    intros segment [<- | [<- | []]]; reflexivity.
Defined.

Section AggregatorBounds.

Import AISimilarityScoring.
Local Open Scope R_scope.

Lemma inversion_antitone :
  forall x y, 0 <= x <= y -> inversion y <= inversion x.
Proof.
  intros x y [H0 Hxy]. unfold inversion, three_halves_power.
  assert (Hpow : x ^ 3 <= y ^ 3) by (apply pow_incr; lra).
  assert (Hx : 0 <= x ^ 3) by (apply pow_le; exact H0).
  assert (Hy : 0 <= y ^ 3) by (apply pow_le; lra).
  pose proof (sqrt_le_1 _ _ Hx Hy Hpow). lra.
Qed.

Lemma inversion_zero : inversion 0 = 1.
Proof.
  unfold inversion, three_halves_power.
  replace (0 ^ 3) with 0 by (simpl; ring). rewrite sqrt_0. ring.
Qed.

Lemma inversion_one : inversion 1 = 0.
Proof.
  unfold inversion, three_halves_power.
  replace (1 ^ 3) with 1 by (simpl; ring). rewrite sqrt_1. ring.
Qed.

Lemma overallScore_Fin :
  forall v e c,
    0 <= v -> 0 <= e -> 0 <= c ->
    calculateOverallScore (Fin v) (Fin e) (Fin c)
    = Fin (inversion v * 0.3 + inversion e * 0.4 + inversion c * 0.3).
Proof.
  intros v e c Hv He Hc. unfold calculateOverallScore.
  now rewrite !invertAIScore_Fin by assumption.
Qed.

(** X6.  On three scores of [0,1], [calculateOverallScore] returns a
    number of [0,1] that does not increase when an input increases; the
    inputs (0, 0, 0) give 1 and (1, 1, 1) give 0. *)
Theorem aggregator_antitone :
  (forall v e c v' e' c' : R,
      0 <= v <= v' -> v' <= 1 ->
      0 <= e <= e' -> e' <= 1 ->
      0 <= c <= c' -> c' <= 1 ->
      exists x x',
        calculateOverallScore (Fin v) (Fin e) (Fin c) = Fin x
        /\ calculateOverallScore (Fin v') (Fin e') (Fin c') = Fin x'
        /\ 0 <= x' <= x /\ x <= 1)
  /\ calculateOverallScore (Fin 0) (Fin 0) (Fin 0) = Fin 1
  /\ calculateOverallScore (Fin 1) (Fin 1) (Fin 1) = Fin 0.
Proof.
  split; [ | split ].
  - intros v e c v' e' c' Hv Hv' He He' Hc Hc'.
    rewrite !overallScore_Fin by lra.
    do 2 eexists. split; [ reflexivity | ]. split; [ reflexivity | ].
    pose proof (inversion_antitone Hv).
    pose proof (inversion_antitone He).
    pose proof (inversion_antitone Hc).
    pose proof (@inversion_in_unit_interval v ltac:(lra)).
    pose proof (@inversion_in_unit_interval e ltac:(lra)).
    pose proof (@inversion_in_unit_interval c ltac:(lra)).
    pose proof (@inversion_in_unit_interval v' ltac:(lra)).
    pose proof (@inversion_in_unit_interval e' ltac:(lra)).
    pose proof (@inversion_in_unit_interval c' ltac:(lra)).
    lra.
  - rewrite overallScore_Fin by lra. rewrite inversion_zero. f_equal. lra.
  - rewrite overallScore_Fin by lra. rewrite inversion_one. f_equal. lra.
Qed.

Lemma aggregator_antitone_witness :
  exists x x',
    calculateOverallScore (Fin 0.1) (Fin 0.2) (Fin 0.3) = Fin x
    /\ calculateOverallScore (Fin 0.5) (Fin 0.2) (Fin 0.9) = Fin x'
    /\ 0 <= x' <= x /\ x <= 1.
Proof.
  apply (proj1 aggregator_antitone 0.1 0.2 0.3 0.5 0.2 0.9); lra.
Defined.

End AggregatorBounds.

Section JudgeShape.

Import InnovationFeatureMatrix Route.
Local Open Scope string_scope.
Context {L : Lib}.

Lemma runJudge_rubric :
  forall (w : World) t delays d,
    humanVsAI (runJudge w t delays d) = dimensionRubric d.
Proof.
  intros w t delays d.
  destruct d; cbn [runJudge];
    try (unfold analyzeSemanticElasticity, analyzeEmotionalExpression,
           analyzeReferenceAbility, analyzeAmbiguityHandling,
           analyzeCreativeThinking, judge;
         destruct (grok_chat w _ t) as [e | [ | content choices]];
         reflexivity).
  reflexivity.
Qed.

Lemma judge_analysis :
  forall dimension rubric content rest,
    analysis (judge dimension rubric (Resolved (Some content :: rest)))
    = content.
Proof. reflexivity. Qed.

Lemma judge_missing_content :
  forall dimension rubric rest,
    judge dimension rubric (Resolved (None :: rest))
    = {| score := Fin 0.5; analysis := ""; humanVsAI := rubric |}.
Proof.
  intros dimension rubric rest. unfold judge.
  replace (RegExp.match_group1 scorePattern "") with (@None string)
    by (vm_compute; reflexivity).
  f_equal. apply clamp_inside. lra.
Qed.

(** X7.  Whatever the completion service answers, the result of a judge
    carries the rubric of its dimension, and its score is within [0,1] or
    is NaN (a score that [parseFloat] cannot read); for the five judges
    that ask the language model, the analysis is the content of the first
    choice, and a first choice without content gives the score 0.5 and an
    empty analysis. *)
Theorem judge_result_shape :
  forall (w : World) (t : string) (delays : list number) (d : dimension),
    humanVsAI (runJudge w t delays d) = dimensionRubric d
    /\ (score (runJudge w t delays d) = NaN
        \/ in_unit_interval (score (runJudge w t delays d)))
    /\ (d <> TimePerception ->
        (forall content rest,
            grok_chat w d t = Resolved (Some content :: rest) ->
            analysis (runJudge w t delays d) = content)
        /\ (forall rest,
              grok_chat w d t = Resolved (None :: rest) ->
              runJudge w t delays d
              = {| score := Fin 0.5; analysis := "";
                   humanVsAI := dimensionRubric d |})).
Proof.
  intros w t delays d.
  split; [ apply runJudge_rubric | ].
  split; [ apply runJudge_score_cases | ].
  intros Hd. split.
  - intros content rest H.
    destruct d; try contradiction; cbn [runJudge]; rewrite H;
      apply judge_analysis.
  - intros rest H.
    destruct d; try contradiction; cbn [runJudge]; rewrite H;
      apply judge_missing_content.
Qed.

End JudgeShape.

Lemma judge_result_shape_witness :
  InnovationFeatureMatrix.analysis
    (Route.runJudge (L := Sample.lib) (Sample.answering "Score: 0.8")
       "I was late. Sorry!" [] Route.CreativeThinking)
  = "Score: 0.8"%string.
Proof.
  assert (Hd : Route.CreativeThinking <> Route.TimePerception)
    by discriminate.
  destruct (@judge_result_shape Sample.lib (Sample.answering "Score: 0.8")
              "I was late. Sorry!" [] Route.CreativeThinking)
    as (_ & _ & H).
  destruct (H Hd) as [Hcontent _].
  exact (Hcontent "Score: 0.8"%string [] eq_refl).
Defined.

Section Convexity.

Import InnovationFeatureMatrix Route.
Local Open Scope R_scope.
Local Open Scope string_scope.

Lemma classify_human_inv :
  forall x : R, classify (Fin x) = "Human" -> 0.7 <= x.
Proof.
  intros x H. unfold classify, geb, leb in H.
  destruct (Rle_dec 0.7 x); [ assumption | ].
  destruct (Rle_dec x 0.3); discriminate.
Qed.

Lemma classify_ai_inv :
  forall x : R, classify (Fin x) = "AI" -> x <= 0.3.
Proof.
  intros x H. unfold classify, geb, leb in H.
  destruct (Rle_dec 0.7 x); [ discriminate | ].
  destruct (Rle_dec x 0.3); [ assumption | discriminate ].
Qed.

(** X8.  As exact values the two weighted sums are convex combinations:
    when the six feature scores lie between two bounds so does the
    innovation score, and the composite score lies between the
    AI-similarity score and the innovation score.  The doubles of the
    program follow these values up to rounding only: the innovation sum of
    (0, 0.4, 0.7, 0.7, 0.7, 0.7) is 0.49999999999999994, and with an
    AI-similarity score of 1 the composite is 0.7 and the label "Human". *)
Theorem weighted_sums_convex :
  (forall lo hi a b c d e f : R,
      lo <= a <= hi -> lo <= b <= hi -> lo <= c <= hi ->
      lo <= d <= hi -> lo <= e <= hi -> lo <= f <= hi ->
      exists x,
        InnovationFeatureMatrix.calculateOverallScore
          {| semanticElasticity := Fin a; emotionalExpression := Fin b;
             referenceAbility := Fin c; ambiguityHandling := Fin d;
             creativeThinking := Fin e; timePerception := Fin f |} = Fin x
        /\ (lo <= x <= hi)%R)
  /\ (forall a i : R,
        exists x,
          combineScores (Fin a) (Fin i) = Fin x
          /\ (Rmin a i <= x <= Rmax a i)%R)
  /\ calculateOverallScore64 0 0.4 0.7 0.7 0.7 0.7
     = 0.49999999999999994%float
  /\ combineScores64 1 (calculateOverallScore64 0 0.4 0.7 0.7 0.7 0.7)
     = 0.7%float
  /\ classify64
       (combineScores64 1 (calculateOverallScore64 0 0.4 0.7 0.7 0.7 0.7))
     = "Human".
Proof.
  split; [ | split ].
  - intros lo hi a b c d e f Ha Hb Hc Hd He Hf.
    eexists. split; [ reflexivity | lra ].
  - intros a i. rewrite combineScores_Fin.
    eexists. split; [ reflexivity | ].
    unfold Rmin, Rmax. destruct (Rle_dec a i); lra.
  - repeat split; vm_compute; reflexivity.
Qed.

Lemma weighted_sums_convex_witness :
  (exists x,
      InnovationFeatureMatrix.calculateOverallScore
        {| semanticElasticity := Fin 0.5; emotionalExpression := Fin 0.5;
           referenceAbility := Fin 0.5; ambiguityHandling := Fin 0.5;
           creativeThinking := Fin 0.5; timePerception := Fin 0.85 |} = Fin x
      /\ (0.5 <= x <= 0.85)%R)
  /\ (exists x,
        combineScores (Fin 1) (Fin 0.6) = Fin x
        /\ (Rmin 1 0.6 <= x <= Rmax 1 0.6)%R).
Proof.
  destruct weighted_sums_convex as (Hinn & Hcomposite & _).
  split; [ apply (Hinn 0.5%R 0.85%R); lra | ].
  apply Hcomposite.
Defined.

End Convexity.

Section Offline.

Import InnovationFeatureMatrix Route.
Local Open Scope R_scope.
Context {L : Lib}.

(** X9.  When the five calls to the completion service are rejected, the
    report still holds six results; the innovation score is
    0.425 + 0.15 * timePerception, between 0.4475 and 0.5525. *)
Theorem innovation_score_offline :
  forall (w : World) (request : Request) t calls report,
    POST w request = (calls, Status200 report) ->
    text request = Some t ->
    (forall d, d <> TimePerception ->
               exists e, grok_chat w d t = Rejected e) ->
    exists tp,
      score (feature report TimePerception) = Fin tp
      /\ InnovationFeatures.overallScore (innovationFeatures report)
         = Fin (0.425 + 0.15 * tp)
      /\ 0.4475 <= 0.425 + 0.15 * tp <= 0.5525
      /\ (forall d, d <> TimePerception ->
                    feature report d = catchResult d).
Proof.
  intros w request t calls report Hpost Ht Hdown.
  destruct (POST_200_fields _ _ Hpost)
    as (t' & v & Ht' & _ & _ & _ & _ & _ & Hinn).
  rewrite Ht in Ht'. injection Ht' as <-.
  destruct (POST_200_inv _ _ Hpost) as (t' & _ & Ht' & _ & _ & _ & _ & Hf).
  rewrite Ht in Ht'. injection Ht' as <-.
  assert (Hcanned : forall d, d <> TimePerception ->
                              feature report d = catchResult d).
  { intros d Hd. destruct (Hdown d Hd) as [e He]. rewrite Hf.
    eapply runJudge_rejected; eassumption. }
  assert (Htp : exists tp, score (feature report TimePerception) = Fin tp
                           /\ 0.15 <= tp <= 0.85).
  { rewrite Hf. cbn [runJudge]. rewrite analyzeTimePerception_score.
    apply timeScore_range. }
  destruct Htp as (tp & Htp & Hrange).
  exists tp. split; [ exact Htp | ].
  split; [ | split; [ lra | exact Hcanned ] ].
  rewrite Hinn, Htp.
  rewrite !Hcanned by discriminate.
  unfold InnovationFeatureMatrix.calculateOverallScore.
  cbn [semanticElasticity emotionalExpression referenceAbility
       ambiguityHandling creativeThinking timePerception catchResult score
       mul add].
  f_equal. lra.
Qed.

End Offline.

Lemma innovation_score_offline_witness :
  exists calls report tp,
    Route.POST (L := Sample.lib) Sample.offline Sample.lateRequest
    = (calls, Route.Status200 report)
    /\ Route.InnovationFeatures.overallScore
         (Route.innovationFeatures report) = Fin (0.425 + 0.15 * tp)
    /\ (0.4475 <= 0.425 + 0.15 * tp <= 0.5525)%R.
Proof.
  destruct lateRequest_report as [report Hpost].
  destruct (@innovation_score_offline Sample.lib Sample.offline
              Sample.lateRequest "I was late. Sorry!" _ report Hpost eq_refl)
    as (tp & _ & Hscore & Hrange & _).
  - intros d _. exists "ECONNREFUSED"%string. reflexivity.
  - do 3 eexists. split; [ exact Hpost | ]. split; [ exact Hscore | ].
    exact Hrange.
Defined.

Section Store.

Import InnovationFeatureMatrix Route.
Local Open Scope string_scope.
Context {L : Lib}.

Lemma runJudge_same_chat :
  forall (w w' : World) t delays d,
    (forall d' t', grok_chat w d' t' = grok_chat w' d' t') ->
    runJudge w t delays d = runJudge w' t delays d.
Proof.
  intros w w' t delays d H. symmetry. apply runJudge_local. symmetry.
  apply H.
Qed.

(** X10.  The store never changes the answer: two worlds whose completion
    service answers alike get the same response, whether the insertion
    throws or not.  When the answer is a report, the calls are the five
    requests to the completion service, followed by nothing when the
    session identifier is missing or empty, by the insertion when it
    works, and by the insertion and the in-memory fallback when it
    throws. *)
Theorem store_never_changes_answer :
  forall (w w' : World) (request : Request),
    (forall d t, grok_chat w d t = grok_chat w' d t) ->
    snd (POST w request) = snd (POST w' request)
    /\ (forall calls report t,
          POST w request = (calls, Status200 report) ->
          text request = Some t ->
          calls
          = (judgeCalls t
             ++ match sessionId request with
                | None => []
                | Some "" => []
                | Some sid =>
                    if supabase_insert_throws w
                    then [SupabaseInsert sid; MockAnalysisResultsPush sid]
                    else [SupabaseInsert sid]
                end)%list).
Proof.
  intros w w' request Hchat. split.
  - unfold POST.
    destruct (text request) as [t | ]; [ | reflexivity ].
    destruct (negb (Str.truthy t)); [ reflexivity | ].
    destruct (AISimilarityScoring.calculateVocabularyComplexity t);
      [ | reflexivity ].
    cbn [snd].
    now rewrite !(@runJudge_same_chat w w' t _ _ Hchat).
  - intros calls report t Hpost Ht.
    destruct (POST_200_inv _ _ Hpost) as (t' & _ & Ht' & _ & _ & -> & _).
    rewrite Ht in Ht'. injection Ht' as <-. f_equal.
    unfold storeCalls.
    destruct (sessionId request) as [[ | c sid] | ]; try reflexivity.
    cbn [Str.truthy]. now destruct (supabase_insert_throws w).
Qed.

End Store.

Lemma store_never_changes_answer_witness :
  snd (Route.POST (L := Sample.lib) Sample.offline Sample.lateRequest)
  = snd (Route.POST (L := Sample.lib) storeDown Sample.lateRequest)
  /\ exists report,
       Route.POST (L := Sample.lib) storeDown Sample.lateRequest
       = ((Route.judgeCalls "I was late. Sorry!"
           ++ [Route.SupabaseInsert "session-1";
               Route.MockAnalysisResultsPush "session-1"])%list,
          Route.Status200 report).
Proof.
  split.
  - apply (@store_never_changes_answer Sample.lib Sample.offline storeDown
             Sample.lateRequest).
    intros d t. reflexivity.
  - destruct lateRequest_vocabulary as [v Hv].
    destruct (POST_200_intro (L := Sample.lib) storeDown Sample.lateRequest
                eq_refl eq_refl Hv) as [report Hpost].
    set (calls := (Route.judgeCalls "I was late. Sorry!"
                   ++ Route.storeCalls storeDown
                        (Route.sessionId Sample.lateRequest))%list) in Hpost.
    clearbody calls.
    exists report.
    rewrite Hpost. f_equal.
    exact (proj2 (@store_never_changes_answer Sample.lib storeDown storeDown
                    Sample.lateRequest (fun _ _ => eq_refl))
             _ report "I was late. Sorry!"%string Hpost eq_refl).
Defined.

Section Verdict.

Import InnovationFeatureMatrix.
Local Open Scope string_scope.
Context {L : Lib}.

Lemma gtb_Fin : forall x y : R, gtb (Fin x) (Fin y) = if Rlt_dec y x then true else false.
Proof. reflexivity. Qed.

(** The two tests the program makes on the double of the score, read on
    the three signals. *)
Lemma timeScore64_tests :
  forall (avgDelay : number) (vague precise : bool),
    (0.7 <? timeScore64 avgDelay vague precise)%float
    = humanWindow avgDelay && vague && negb precise
    /\ (timeScore64 avgDelay vague precise <? 0.3)%float
       = ltb avgDelay (Fin 500) && precise.
Proof.
  intros avgDelay vague precise.
  pose proof (@delay_adjustments_exclusive avgDelay) as Hexcl.
  unfold timeScore64, humanWindow.
  destruct (geb avgDelay (Fin 1200) && leb avgDelay (Fin 3400)) eqn:Hw;
    [ rewrite (Hexcl eq_refl) | destruct (ltb avgDelay (Fin 500)) ];
    destruct vague, precise; split; vm_compute; reflexivity.
Qed.

(** X11.  The analysis of the time-perception judge ends with a sentence
    decided by the three signals, the score being compared as the double
    the program computes: "human-like" exactly when the mean delay is
    within [1200, 3400], the text has a vague phrase and no precise date or
    time; "AI-like" exactly when the mean delay is below 500 and the text
    has a precise date or time, with or without a vague phrase (with one,
    0.5 - 0.2 + 0.15 - 0.15 is 0.29999999999999993, below 0.3); "mixed" in
    every other case. *)
Theorem time_perception_verdict :
  forall (text : string) (responseDelays : list number),
    (exists summary,
        analysis (analyzeTimePerception text responseDelays)
        = summary
          ++ verdictSentence (averageDelay responseDelays)
               (hasVagueTimeReferences text)
               (hasPreciseTimeReferences text))
    /\ (0.5 - 0.2 + 0.15 - 0.15)%float = 0.29999999999999993%float
    /\ timeScore64 (Fin 499) true true = 0.29999999999999993%float.
Proof.
  intros text responseDelays. split.
  - unfold analyzeTimePerception. cbn [analysis].
    destruct (timeScore64_tests (averageDelay responseDelays)
                (hasVagueTimeReferences text)
                (hasPreciseTimeReferences text)) as [-> ->].
    unfold verdictSentence.
    destruct (humanWindow (averageDelay responseDelays)
              && hasVagueTimeReferences text
              && negb (hasPreciseTimeReferences text));
      [ eexists; reflexivity | ].
    destruct (ltb (averageDelay responseDelays) (Fin 500)
              && hasPreciseTimeReferences text);
      eexists; reflexivity.
  - split; [ vm_compute; reflexivity | ].
    unfold timeScore64.
    assert (Hw : geb (Fin 499) (Fin 1200) && leb (Fin 499) (Fin 3400)
                 = false).
    { unfold geb. cbn [leb].
      destruct (Rle_dec 1200 499); [ lra | reflexivity ]. }
    assert (Hf : ltb (Fin 499) (Fin 500) = true).
    { cbn [ltb]. destruct (Rlt_dec 499 500); [ reflexivity | lra ]. }
    rewrite Hw, Hf. vm_compute. reflexivity.
Qed.

End Verdict.

Section MatcherFacts.

Import Str RegExp.
Local Open Scope string_scope.

(** What a successful match hands to its continuation is a suffix no longer
    than the input. *)
Lemma exec_consumes :
  forall (A : Type) (r : regex) prev s cap
         (k : option ascii -> string -> option string -> option A) a,
    exec r prev s cap k = Some a ->
    exists prev' s' cap',
      k prev' s' cap' = Some a /\ String.length s' <= String.length s.
Proof.
  intros A r.
  induction r as [ | p | r1 IH1 r2 IH2 | r1 IH1 r2 IH2 | r1 IH1 | | r1 IH1];
    intros prev s cap k a H; cbn [exec] in H.
  - exists prev, s, cap. split; [ exact H | lia ].
  - destruct s as [ | c s']; [ discriminate | ].
    destruct (p c); [ | discriminate ].
    exists (Some c), s', cap. split; [ exact H | simpl; lia ].
  - apply IH1 in H. destruct H as (prev1 & s1 & cap1 & H & Hlen1).
    apply IH2 in H. destruct H as (prev2 & s2 & cap2 & H & Hlen2).
    exists prev2, s2, cap2. split; [ exact H | lia ].
  - destruct (exec r1 prev s cap k) as [a1 | ] eqn:E.
    + injection H as <-. now apply IH1 in E.
    + now apply IH2 in H.
  - revert H. generalize (String.length s) at 1 as fuel.
    intros fuel. revert prev s cap.
    induction fuel as [ | fuel IHf]; intros prev s cap H.
    + exists prev, s, cap. split; [ exact H | lia ].
    + match type of H with
      | match ?e with _ => _ end = _ => destruct e as [a1 | ] eqn:E
      end.
      * injection H as <-. apply IH1 in E.
        destruct E as (prev1 & s1 & cap1 & E & Hlen1).
        destruct (String.length s1 <? String.length s)%nat;
          [ | discriminate ].
        apply IHf in E. destruct E as (prev2 & s2 & cap2 & E & Hlen2).
        exists prev2, s2, cap2. split; [ exact E | lia ].
      * exists prev, s, cap. split; [ exact H | lia ].
  - destruct (xorb (is_word_at prev) (is_word_at (head s)));
      [ | discriminate ].
    exists prev, s, cap. split; [ exact H | lia ].
  - apply IH1 in H. destruct H as (prev1 & s1 & cap1 & H & Hlen1).
    eexists prev1, s1, _. split; [ exact H | exact Hlen1 ].
Qed.

(** A repetition never fails when what follows it never fails. *)
Lemma exec_star_total :
  forall (A : Type) (r : regex) prev s cap
         (k : option ascii -> string -> option string -> option A),
    (forall prev' s' cap', k prev' s' cap' <> None) ->
    exec (Star r) prev s cap k <> None.
Proof.
  intros A r prev s cap k Hk. cbn [exec].
  generalize (String.length s) at 1 as fuel. intros fuel.
  destruct fuel as [ | fuel].
  - apply Hk.
  - match goal with
    | |- match ?e with _ => _ end <> None => destruct e
    end; [ discriminate | apply Hk ].
Qed.

(** The pattern [[class]+]: a match begins with a code unit of the class
    and is not empty; there is one wherever such a code unit stands. *)
Lemma class_run_match :
  forall (p : ascii -> bool) prev s rest cap,
    match_here (plus (Chr p)) prev s = Some (rest, cap) ->
    String.length rest < String.length s
    /\ exists c s', s = String c s' /\ p c = true.
Proof.
  intros p prev s rest cap H. unfold match_here, plus in H.
  cbn [exec] in H. destruct s as [ | c s']; [ discriminate | ].
  destruct (p c) eqn:Hp; [ | discriminate ].
  split; [ | exists c, s'; split; [ reflexivity | exact Hp ] ].
  change (exec (Star (Chr p)) (Some c) s' None
            (fun _ s'0 cap0 => Some (s'0, cap0)) = Some (rest, cap)) in H.
  apply exec_consumes in H. destruct H as (? & s1 & ? & H & Hlen).
  injection H as <- _. simpl. lia.
Qed.

Lemma class_run_no_match :
  forall (p : ascii -> bool) prev c s',
    match_here (plus (Chr p)) prev (String c s') = None -> p c = false.
Proof.
  intros p prev c s' H. unfold match_here, plus in H.
  cbn [exec] in H. destruct (p c); [ | reflexivity ].
  exfalso. revert H.
  change (exec (Star (Chr p)) (Some c) s' None
            (fun _ s'0 cap0 => Some (s'0, cap0)) <> None).
  apply exec_star_total. discriminate.
Qed.

End MatcherFacts.

Section SplitFacts.

Import Str RegExp.
Local Open Scope string_scope.

Lemma class_free_append :
  forall p s1 s2,
    class_free p (s1 ++ s2) = class_free p s1 && class_free p s2.
Proof.
  intros p. induction s1 as [ | c s1 IH]; intros s2; simpl.
  - reflexivity.
  - rewrite IH. now rewrite andb_assoc.
Qed.

Lemma split_from_class_free :
  forall (p : ascii -> bool) s prev skip cur,
    class_free p cur = true ->
    Forall (fun piece => class_free p piece = true)
           (split_from (plus (Chr p)) prev s skip cur).
Proof.
  intros p. induction s as [ | c s' IH]; intros prev skip cur Hcur.
  - simpl. constructor; [ exact Hcur | constructor ].
  - cbn [split_from]. destruct skip as [ | n].
    + destruct (match_here (plus (Chr p)) prev (String c s'))
        as [[rest cap] | ] eqn:E.
      * apply class_run_match in E. destruct E as [Hlen _].
        destruct (String.length (String c s') - String.length rest)%nat
          as [ | n] eqn:En; [ lia | ].
        constructor; [ exact Hcur | ]. now apply IH.
      * apply class_run_no_match in E. apply IH.
        rewrite class_free_append, Hcur. simpl. now rewrite E.
    + now apply IH.
Qed.

Lemma split_from_weight :
  forall (p : ascii -> bool) s prev skip cur,
    weight (split_from (plus (Chr p)) prev s skip cur)
    <= String.length cur + String.length s + 1.
Proof.
  intros p. induction s as [ | c s' IH]; intros prev skip cur.
  - simpl. lia.
  - cbn [split_from]. destruct skip as [ | n].
    + destruct (match_here (plus (Chr p)) prev (String c s'))
        as [[rest cap] | ] eqn:E.
      * apply class_run_match in E. destruct E as [Hlen _].
        destruct (String.length (String c s') - String.length rest)%nat
          as [ | n] eqn:En; [ lia | ].
        cbn [weight fold_right]. fold (weight (split_from (plus (Chr p))
                                                  (Some c) s' n "")).
        specialize (IH (Some c) n ""). simpl in *. lia.
      * specialize (IH (Some c) 0%nat (cur ++ String c "")).
        rewrite length_concat in IH. simpl in *. lia.
    + specialize (IH (Some c) n cur). simpl. lia.
Qed.

Lemma split_class_free :
  forall (p : ascii -> bool) s,
    Forall (fun piece => class_free p piece = true)
           (split (plus (Chr p)) s).
Proof.
  intros p s. unfold split. destruct s as [ | c s'].
  - simpl. constructor; [ reflexivity | constructor ].
  - now apply split_from_class_free.
Qed.

Lemma split_weight :
  forall (p : ascii -> bool) s,
    weight (split (plus (Chr p)) s) <= String.length s + 1.
Proof.
  intros p s. unfold split. destruct s as [ | c s'].
  - simpl. lia.
  - pose proof (split_from_weight p (String c s') None 0 "") as H.
    simpl in *. lia.
Qed.

Lemma weight_filter :
  forall (f : string -> bool) pieces,
    weight (filter f pieces) <= weight pieces.
Proof.
  intros f. induction pieces as [ | piece pieces IH]; simpl.
  - lia.
  - destruct (f piece); simpl; fold (weight pieces) in *;
      fold (weight (filter f pieces)) in *; lia.
Qed.

(** X12.  Every sentence [splitSentences] yields has a character that is
    not whitespace and has none of [.], [!], [?]; and the sentences fit in
    the text: their lengths, one more counted for each sentence, add up to
    at most the length of the text plus one. *)
Theorem sentences_wellformed :
  forall text : string,
    Forall (fun sentence =>
              0 < String.length (trim sentence)
              /\ class_free is_terminator sentence = true)
           (splitSentences text)
    /\ weight (splitSentences text) <= String.length text + 1.
Proof.
  intros text. unfold splitSentences. split.
  - rewrite Forall_forall. intros sentence Hin.
    apply filter_In in Hin. destruct Hin as [Hin Hblank].
    split; [ now apply Nat.ltb_lt | ].
    pose proof (split_class_free is_terminator text) as H.
    rewrite Forall_forall in H. exact (H sentence Hin).
  - eapply Nat.le_trans; [ apply weight_filter | ].
    exact (split_weight is_terminator text).
Qed.

End SplitFacts.

Section Grouping.

Import Str Route.
Local Open Scope string_scope.

Lemma truthy_nonempty : forall s, truthy s = true <-> s <> "".
Proof. intros [ | c s]; simpl; split; congruence. Qed.

Lemma append_nonempty_l : forall s1 s2, s1 <> "" -> s1 ++ s2 <> "".
Proof. intros [ | c s1] s2 H; [ contradiction | discriminate ]. Qed.

Lemma fold_join_nonempty :
  forall rest first,
    first <> "" ->
    fold_left (fun joined sentence => joined ++ " " ++ sentence) rest first
    <> "".
Proof.
  induction rest as [ | s rest IH]; intros first H; simpl.
  - exact H.
  - apply IH. now apply append_nonempty_l.
Qed.

Lemma joinSentences_nonempty :
  forall group,
    group <> [] -> Forall (fun s => s <> "") group ->
    joinSentences group <> "".
Proof.
  intros [ | first rest] Hne Hall; [ contradiction | ].
  simpl. apply fold_join_nonempty. now inversion Hall.
Qed.

Lemma joinSentences_snoc :
  forall group sentence,
    group <> [] ->
    joinSentences (group ++ [sentence])
    = joinSentences group ++ " " ++ sentence.
Proof.
  intros [ | first rest] sentence H; [ contradiction | ].
  simpl. now rewrite fold_left_app.
Qed.

Lemma groupStep_grouped :
  forall groups group state sentence,
    grouped groups group state ->
    Forall (fun s => s <> "") group ->
    sentence <> "" ->
    exists groups' group',
      grouped groups' group' (groupStep state sentence)
      /\ group' <> []
      /\ (List.concat groups' ++ group' = List.concat groups ++ group ++ [sentence])%list
      /\ (List.hd group' groups' = []
          <-> (groups = [] /\ group = []
               /\ 200 < String.length sentence)
              \/ (groups <> [] /\ List.hd group groups = [])).
Proof.
  intros groups group state sentence (-> & Htl & Hempty) Hall Hs.
  unfold groupStep.
  destruct (200 <? String.length (joinSentences group)
                   + String.length sentence)%nat eqn:Hcmp.
  - exists (groups ++ [group])%list, [sentence].
    split; [ | split; [ discriminate | split ] ].
    + split; [ | split ].
      * now rewrite map_app.
      * destruct groups as [ | g0 gs]; [ constructor | ].
        cbn [List.tl app]. apply Forall_app. split; [ exact Htl | ].
        constructor; [ | constructor ].
        intros E. specialize (Hempty E). discriminate.
      * discriminate.
    + rewrite concat_app. simpl. now rewrite app_nil_r, <- app_assoc.
    + apply Nat.ltb_lt in Hcmp.
      destruct groups as [ | g0 gs]; cbn [List.hd app].
      * split.
        -- intros ->. left. simpl in Hcmp. repeat split; lia.
        -- intros [(_ & E & _) | [E _]]; [ exact E | contradiction ].
      * split.
        -- intros E. right. split; [ discriminate | exact E ].
        -- intros [(E & _) | [_ E]]; [ discriminate | exact E ].
  - exists groups, (group ++ [sentence])%list.
    split; [ | split; [ | split ] ].
    + split; [ | split ].
      * f_equal. destruct group as [ | first rest].
        -- reflexivity.
        -- assert (Hne : joinSentences (first :: rest) <> "")
             by (apply joinSentences_nonempty; [ discriminate | exact Hall ]).
           apply truthy_nonempty in Hne. rewrite Hne.
           now rewrite joinSentences_snoc by discriminate.
      * exact Htl.
      * intros E. apply app_eq_nil in E. destruct E as [_ E]. discriminate.
    + intros E. apply app_eq_nil in E. destruct E as [_ E]. discriminate.
    + now rewrite app_assoc.
    + apply Nat.ltb_ge in Hcmp.
      destruct groups as [ | g0 gs]; cbn [List.hd].
      * split.
        -- intros E. apply app_eq_nil in E. destruct E as [_ E].
           discriminate.
        -- intros [(_ & E & Hlen) | [E _]]; [ | contradiction ].
           subst group. simpl in Hcmp. lia.
      * split.
        -- intros E. right. split; [ discriminate | exact E ].
        -- intros [(E & _) | [_ E]]; [ discriminate | exact E ].
Qed.

End Grouping.

Section GroupingWhole.

Import Str Route.
Local Open Scope string_scope.

Lemma fold_groupStep_grouped :
  forall sentences groups group state,
    grouped groups group state ->
    Forall (fun s => s <> "") (List.concat groups ++ group)%list ->
    Forall (fun s => s <> "") sentences ->
    exists groups' group',
      grouped groups' group' (fold_left groupStep sentences state)
      /\ (List.concat groups' ++ group'
          = List.concat groups ++ group ++ sentences)%list
      /\ (sentences <> [] -> group' <> [])
      /\ (sentences = [] -> groups' = groups /\ group' = group)
      /\ (sentences <> [] ->
          (List.hd group' groups' = []
           <-> (groups = [] /\ group = [] /\ first_is_long sentences)
               \/ (groups <> [] /\ List.hd group groups = []))).
Proof.
  induction sentences as [ | sentence rest IH];
    intros groups group state Hg Hall Hsent.
  - exists groups, group. cbn [fold_left].
    split; [ exact Hg | ]. split; [ now rewrite app_nil_r | ].
    split; [ congruence | ]. split; [ now split | congruence ].
  - cbn [fold_left].
    inversion Hsent as [ | ? ? Hs Hrest]; subst.
    assert (Hgroup : Forall (fun s => s <> "") group).
    { apply Forall_app in Hall. apply Hall. }
    destruct (groupStep_grouped Hg Hgroup Hs)
      as (groups1 & group1 & Hg1 & Hne1 & Hcat1 & Hhd1).
    assert (Hall1 : Forall (fun s => s <> "")
                           (List.concat groups1 ++ group1)%list).
    { rewrite Hcat1, app_assoc. apply Forall_app. split; [ exact Hall | ].
      constructor; [ exact Hs | constructor ]. }
    destruct (IH _ _ _ Hg1 Hall1 Hrest)
      as (groups2 & group2 & Hg2 & Hcat2 & Hne2 & Hnil2 & Hhd2).
    exists groups2, group2.
    split; [ exact Hg2 | ].
    split; [ rewrite Hcat2, app_assoc, Hcat1;
             now rewrite <- !app_assoc | ].
    split.
    { intros _. destruct rest as [ | s' rest'].
      - destruct (Hnil2 eq_refl) as [_ ->]. exact Hne1.
      - apply Hne2. discriminate. }
    split; [ discriminate | ].
    intros _. cbn [first_is_long].
    assert (Hchain : List.hd group2 groups2 = []
                     <-> List.hd group1 groups1 = []).
    { destruct rest as [ | s' rest'].
      - destruct (Hnil2 eq_refl) as [-> ->]. reflexivity.
      - rewrite (Hhd2 ltac:(discriminate)). split.
        + intros [(_ & E & _) | [_ E]]; [ contradiction | exact E ].
        + intros E. right. split; [ | exact E ].
          intros ->. simpl in E. contradiction. }
    rewrite Hchain. exact Hhd1.
Qed.

Lemma sentence_nonempty :
  forall text,
    Forall (fun s => s <> "") (splitSentences text).
Proof.
  intros text. unfold splitSentences. rewrite Forall_forall.
  intros s Hin. apply filter_In in Hin. destruct Hin as [_ H].
  intros ->. vm_compute in H. discriminate.
Qed.

(** X13.  The segments of a text are its sentences, in order, none lost and
    none repeated: the sentences fall into consecutive groups and each
    segment is the sentences of one group joined by single spaces.  No
    group is empty, except that a first sentence longer than 200 characters
    is preceded by an empty first segment. *)
Theorem segments_are_joined_groups :
  forall text : string,
    exists groups : list (list string),
      List.concat groups = splitSentences text
      /\ segmentText text = map joinSentences groups
      /\ Forall (fun group => group <> []) (List.tl groups)
      /\ ((exists rest, groups = [] :: rest)
          <-> first_is_long (splitSentences text)).
Proof.
  intros text. unfold segmentText, groupSentences.
  set (sentences := splitSentences text).
  assert (Hinit : grouped [] [] (@nil string, "")).
  { split; [ reflexivity | ]. split; [ constructor | reflexivity ]. }
  destruct (@fold_groupStep_grouped sentences [] [] _ Hinit
              (Forall_nil _) (sentence_nonempty text))
    as (groups & group & (Hstate & Htl & Hempty) & Hcat & Hne & Hnil & Hhd).
  rewrite Hstate. simpl in Hcat.
  destruct group as [ | first rest].
  - rewrite (Hempty eq_refl) in *. simpl in *.
    exists []. split; [ now rewrite <- Hcat | ].
    split; [ reflexivity | ]. split; [ constructor | ].
    split; [ intros [rest E]; discriminate | ].
    destruct sentences; [ contradiction | discriminate ].
  - assert (Hall : Forall (fun s => s <> "") (first :: rest)).
    { pose proof (sentence_nonempty text) as H. fold sentences in H.
      rewrite <- Hcat in H. apply Forall_app in H. apply H. }
    assert (Htruthy : truthy (joinSentences (first :: rest)) = true).
    { apply truthy_nonempty, joinSentences_nonempty;
        [ discriminate | exact Hall ]. }
    rewrite Htruthy.
    exists (groups ++ [first :: rest])%list.
    split; [ rewrite concat_app; simpl; now rewrite app_nil_r | ].
    split; [ now rewrite map_app | ].
    split.
    { destruct groups as [ | g0 gs]; [ constructor | ].
      cbn [List.tl app]. apply Forall_app. split; [ exact Htl | ].
      constructor; [ discriminate | constructor ]. }
    assert (Hs : sentences <> []).
    { intros E. rewrite E in Hcat.
      apply app_eq_nil in Hcat. destruct Hcat as [_ Hcat]. discriminate. }
    specialize (Hhd Hs).
    destruct groups as [ | g0 gs]; cbn [List.hd app] in *.
    + split; [ intros [r E]; discriminate | ].
      intros Hlong.
      assert (E : first :: rest = []).
      { apply Hhd. left. repeat split. exact Hlong. }
      discriminate.
    + split.
      * intros [r E]. injection E as E _.
        apply Hhd in E.
        destruct E as [(_ & _ & H) | [Hn _]];
          [ exact H | now contradiction Hn ].
      * intros Hlong.
        assert (E : g0 = []).
        { apply Hhd. left. repeat split. exact Hlong. }
        subst g0. eexists. reflexivity.
Qed.

End GroupingWhole.

Section ShortText.

Import Str Route.
Local Open Scope string_scope.

Lemma fold_groupStep_light :
  forall sentences textSegments currentSegment,
    String.length currentSegment + weight sentences <= 201 ->
    fst (fold_left groupStep sentences (textSegments, currentSegment))
    = textSegments.
Proof.
  induction sentences as [ | sentence rest IH];
    intros textSegments currentSegment H.
  - reflexivity.
  - cbn [fold_left]. unfold groupStep at 2.
    cbn [weight fold_right] in H. fold (weight rest) in H.
    assert (E : (200 <? String.length currentSegment
                        + String.length sentence)%nat = false)
      by (apply Nat.ltb_ge; lia).
    rewrite E. apply IH.
    rewrite !length_concat.
    pose proof (truthy_length currentSegment). lia.
Qed.

Lemma groupSentences_light :
  forall sentences,
    weight sentences <= 201 ->
    List.length (groupSentences sentences) <= 1.
Proof.
  intros sentences H. unfold groupSentences.
  pose proof (@fold_groupStep_light sentences [] "" H) as Hfst.
  destruct (fold_left groupStep sentences ([], ""))
    as [textSegments currentSegment].
  cbn [fst] in Hfst. subst textSegments.
  destruct (truthy currentSegment); simpl; lia.
Qed.

Lemma short_text_segments :
  forall text,
    String.length text <= 200 -> List.length (segmentText text) <= 1.
Proof.
  intros text H. unfold segmentText. apply groupSentences_light.
  assert (Hw : weight (splitSentences text) <= String.length text + 1).
  { unfold splitSentences.
    eapply Nat.le_trans; [ apply weight_filter | ].
    exact (split_weight is_terminator text). }
  lia.
Qed.

End ShortText.

Section ShortTextReport.

Import Route.
Local Open Scope R_scope.
Context {L : Lib}.

Lemma scorers_few_segments :
  forall textSegments : list string,
    (List.length textSegments < 2)%nat ->
    AISimilarityScoring.calculateEmotionalFluctuation textSegments = Fin 0
    /\ AISimilarityScoring.calculateCreativeDivergence textSegments = Fin 0.
Proof.
  intros textSegments H. apply Nat.ltb_lt in H.
  unfold AISimilarityScoring.calculateEmotionalFluctuation,
    AISimilarityScoring.calculateCreativeDivergence.
  now rewrite H.
Qed.

(** X14.  A text of at most 200 characters makes at most one segment, so
    in its report [emotionalFluctuation] and [creativeDivergence] are 0
    whatever the text says, and the AI-similarity score is
    0.7 + 0.3 * (1 - v^1.5) for a vocabulary complexity [v]: at least 0.7
    as soon as the text has a token. *)
Theorem short_text_report :
  forall (w : World) (request : Request) t calls report,
    POST w request = (calls, Status200 report) ->
    text request = Some t ->
    (String.length t <= 200)%nat ->
    (List.length (segmentText t) <= 1)%nat
    /\ AiSimilarity.emotionalFluctuation (aiSimilarity report) = Fin 0
    /\ AiSimilarity.creativeDivergence (aiSimilarity report) = Fin 0
    /\ (forall v,
          0 <= v ->
          AiSimilarity.vocabularyComplexity (aiSimilarity report) = Fin v ->
          AiSimilarity.overallScore (aiSimilarity report)
          = Fin (0.7 + 0.3 * inversion v))
    /\ (tokenize t <> [] ->
        exists x,
          AiSimilarity.overallScore (aiSimilarity report) = Fin x
          /\ 0.7 <= x <= 1).
Proof.
  intros w request t calls report Hpost Ht Hshort.
  destruct (POST_200_fields _ _ Hpost)
    as (t' & v & Ht' & Hv & Hvoc & Hemo & Hdiv & Hai & _).
  rewrite Ht in Ht'. injection Ht' as <-.
  pose proof (short_text_segments t Hshort) as Hseg.
  assert (Hfew : (List.length (segmentText t) < 2)%nat) by lia.
  destruct (scorers_few_segments _ Hfew) as [He Hd].
  rewrite He in Hemo. rewrite Hd in Hdiv.
  assert (Hformula : forall x,
             0 <= x ->
             AiSimilarity.vocabularyComplexity (aiSimilarity report) = Fin x ->
             AiSimilarity.overallScore (aiSimilarity report)
             = Fin (0.7 + 0.3 * inversion x)).
  { intros x Hx Hvx. rewrite Hai, Hvx, Hemo, Hdiv.
    rewrite overallScore_Fin by lra. rewrite inversion_zero.
    f_equal. lra. }
  split; [ exact Hseg | ]. split; [ exact Hemo | ].
  split; [ exact Hdiv | ]. split; [ exact Hformula | ].
  intros Htok.
  pose proof (vocabulary_in_unit_interval _ Htok Hv) as Hrange.
  destruct v as [ | | | x]; try contradiction. simpl in Hrange.
  exists (0.7 + 0.3 * inversion x).
  split; [ apply Hformula; [ lra | exact Hvoc ] | ].
  pose proof (inversion_in_unit_interval Hrange). lra.
Qed.

End ShortTextReport.

Lemma short_text_report_witness :
  exists report,
    Route.POST (L := Sample.lib) Sample.offline Sample.lateRequest
    = ((Route.judgeCalls "I was late. Sorry!"
        ++ [Route.SupabaseInsert "session-1"])%list,
       Route.Status200 report)
    /\ Route.AiSimilarity.emotionalFluctuation (Route.aiSimilarity report)
       = Fin 0
    /\ Route.AiSimilarity.creativeDivergence (Route.aiSimilarity report)
       = Fin 0
    /\ exists x,
         Route.AiSimilarity.overallScore (Route.aiSimilarity report) = Fin x
         /\ (0.7 <= x <= 1)%R.
Proof.
  destruct lateRequest_report as [report Hreport].
  exists report. split; [ exact Hreport | ].
  destruct (@short_text_report Sample.lib Sample.offline Sample.lateRequest
              "I was late. Sorry!"%string _ report Hreport eq_refl
              ltac:(simpl; lia))
    as (_ & He & Hd & _ & Hx).
  split; [ exact He | ]. split; [ exact Hd | ].
  apply Hx. vm_compute. discriminate.
Defined.

(* ================================================================== *)
(** * Properties of the question engine, the routes and the components *)
(* ================================================================== *)

Section ResponseDelays.

Import QuestionEngine.
Local Open Scope R_scope.

Lemma squares_Fin_from :
  forall (m : R) (xs : list R) (a : R),
    fold_left (fun sum time => add sum (Math_pow (sub time (Fin m)) 2))
              (map Fin xs) (Fin a)
    = Fin (fold_left (fun s x => s + (x - m) * (x - m)) xs a).
Proof.
  intros m. induction xs as [ | x xs IH]; intros a.
  - reflexivity.
  - cbn [map fold_left sub]. rewrite Math_pow_square. cbn [add]. apply IH.
Qed.

Lemma fold_sum_bounds :
  forall (lo hi : R) (xs : list R) (a : R),
    Forall (fun x => lo <= x <= hi) xs ->
    a + INR (List.length xs) * lo <= fold_left Rplus xs a
    <= a + INR (List.length xs) * hi.
Proof.
  intros lo hi. induction xs as [ | x xs IH]; intros a H.
  - simpl. lra.
  - inversion H as [ | ? ? Hx Hxs]; subst.
    cbn [fold_left]. specialize (IH (a + x) Hxs).
    change (List.length (x :: xs)) with (S (List.length xs)).
    rewrite S_INR. lra.
Qed.

Lemma fold_squares_bounds :
  forall (m b : R) (xs : list R) (a : R),
    Forall (fun x => (x - m) * (x - m) <= b) xs ->
    a <= fold_left (fun s x => s + (x - m) * (x - m)) xs a
    <= a + INR (List.length xs) * b.
Proof.
  intros m b. induction xs as [ | x xs IH]; intros a H.
  - simpl. lra.
  - inversion H as [ | ? ? Hx Hxs]; subst.
    cbn [fold_left]. specialize (IH (a + (x - m) * (x - m)) Hxs).
    change (List.length (x :: xs)) with (S (List.length xs)).
    rewrite S_INR.
    pose proof (Rle_0_sqr (x - m)) as Hsq. unfold Rsqr in Hsq. lra.
Qed.

Lemma quotient_bounds :
  forall (s n lo hi : R),
    0 < n -> n * lo <= s <= n * hi -> lo <= s / n <= hi.
Proof.
  intros s n lo hi Hn [Hlo Hhi]. split.
  - apply Rmult_le_reg_l with n; [ exact Hn | ].
    replace (n * (s / n)) with s by (field; lra). exact Hlo.
  - apply Rmult_le_reg_l with n; [ exact Hn | ].
    replace (n * (s / n)) with s by (field; lra). exact Hhi.
Qed.

Lemma confidence_cases :
  forall delayTimes : list number,
    (DelayPattern.isHumanLike (analyzeResponseDelays delayTimes) = true
     /\ DelayPattern.confidenceScore (analyzeResponseDelays delayTimes)
        = Fin (0.5 + 0.25 + 0.25))
    \/ (DelayPattern.isHumanLike (analyzeResponseDelays delayTimes) = false
        /\ (DelayPattern.confidenceScore (analyzeResponseDelays delayTimes)
            = Fin (0.5 + 0.25)
            \/ DelayPattern.confidenceScore (analyzeResponseDelays delayTimes)
               = Fin 0.5)).
Proof.
  intros delayTimes. unfold analyzeResponseDelays.
  cbn [DelayPattern.isHumanLike DelayPattern.confidenceScore].
  destruct (geb _ (Fin 1200) && leb _ (Fin 3400));
    destruct (gtb _ (Fin 500)); cbn [andb add]; auto.
Qed.

(** X16.  [analyzeResponseDelays] gives a confidence of 0.5, 0.75 or 1, and
    calls the delays human-like exactly when the confidence is 1.  The
    array is not checked for being empty: on [[]] the average is NaN (0/0),
    the delays are not human-like and the confidence is 0.5. *)
Theorem response_delays_confidence :
  (forall delayTimes : list number,
      let pattern := analyzeResponseDelays delayTimes in
      (DelayPattern.confidenceScore pattern = Fin 0.5
       \/ DelayPattern.confidenceScore pattern = Fin 0.75
       \/ DelayPattern.confidenceScore pattern = Fin 1)
      /\ (DelayPattern.isHumanLike pattern = true
          <-> DelayPattern.confidenceScore pattern = Fin 1))
  /\ analyzeResponseDelays []
     = {| DelayPattern.averageDelay := NaN;
          DelayPattern.isHumanLike := false;
          DelayPattern.confidenceScore := Fin 0.5 |}.
Proof.
  split.
  - intros delayTimes pattern. subst pattern.
    assert (E1 : Fin (0.5 + 0.25 + 0.25) = Fin 1) by (f_equal; lra).
    assert (E2 : Fin (0.5 + 0.25) = Fin 0.75) by (f_equal; lra).
    destruct (confidence_cases delayTimes) as [[Hh Hc] | [Hh [Hc | Hc]]];
      rewrite Hh, Hc.
    + rewrite E1. split; [ auto | ]. split; auto.
    + rewrite E2. split; [ auto | ].
      split; [ discriminate | ].
      intros H. injection H as H. lra.
    + split; [ auto | ].
      split; [ discriminate | ].
      intros H. injection H as H. lra.
  - unfold analyzeResponseDelays, sum. cbn [List.length fold_left].
    replace (div (Fin 0) (of_nat 0)) with NaN
      by (symmetry; exact div_zero_zero).
    reflexivity.
Qed.

(** X17.  Delays that all lie within a window of 500 ms are never called
    human-like, wherever the window is: their average lies in the window,
    their standard deviation is at most 500, and the confidence is 0.75
    when the average is within [1200, 3400] and 0.5 otherwise. *)
Theorem steady_delays_not_human :
  forall (delays : list R) (lo : R),
    delays <> [] ->
    Forall (fun x => lo <= x <= lo + 500) delays ->
    exists m,
      lo <= m <= lo + 500
      /\ analyzeResponseDelays (map Fin delays)
         = {| DelayPattern.averageDelay := Fin m;
              DelayPattern.isHumanLike := false;
              DelayPattern.confidenceScore :=
                if Rle_dec 1200 m
                then if Rle_dec m 3400 then Fin 0.75 else Fin 0.5
                else Fin 0.5 |}.
Proof.
  intros delays lo Hne Hwin.
  set (n := INR (List.length delays)).
  assert (Hn : 0 < n).
  { subst n. destruct delays; [ contradiction | ].
    apply lt_0_INR. simpl. lia. }
  set (m := fold_left Rplus delays 0 / n).
  assert (Hm : lo <= m <= lo + 500).
  { subst m. apply quotient_bounds; [ exact Hn | ].
    pose proof (fold_sum_bounds 0 Hwin) as H. fold n in H. lra. }
  exists m. split; [ exact Hm | ].
  unfold analyzeResponseDelays.
  rewrite length_map. unfold sum. rewrite sum_Fin_from.
  unfold of_nat. fold n. rewrite (div_Fin_pos _ Hn). fold m.
  rewrite squares_Fin_from.
  set (s := fold_left (fun s x => s + (x - m) * (x - m)) delays 0).
  assert (Hs : 0 <= s <= n * 250000).
  { subst s.
    assert (Hsq : Forall (fun x => (x - m) * (x - m) <= 250000) delays).
    { eapply Forall_impl; [ | exact Hwin ]. cbn beta. intros x Hx. nra. }
    pose proof (fold_squares_bounds 0 Hsq) as H. fold n in H. lra. }
  rewrite (div_Fin_pos _ Hn).
  assert (Hv : 0 <= s / n <= 250000).
  { apply quotient_bounds; [ exact Hn | lra ]. }
  rewrite Math_sqrt_Fin by lra.
  assert (Hsd : sqrt (s / n) <= 500).
  { replace 500 with (sqrt 250000).
    - apply sqrt_le_1; lra.
    - replace 250000 with (500 * 500) by lra. apply sqrt_square. lra. }
  assert (Hvar : gtb (Fin (sqrt (s / n))) (Fin 500) = false).
  { cbn. destruct (Rlt_dec 500 (sqrt (s / n))); [ lra | reflexivity ]. }
  rewrite Hvar. rewrite andb_false_r.
  f_equal.
  unfold geb. cbn [leb].
  destruct (Rle_dec 1200 m), (Rle_dec m 3400); cbn [andb add];
    try reflexivity.
  f_equal. lra.
Qed.

End ResponseDelays.

Lemma steady_delays_not_human_witness :
  exists m,
    (1900 <= m <= 1900 + 500)%R
    /\ QuestionEngine.analyzeResponseDelays
         (map Fin [2000; 2100; 2300; 1900]%R)
       = {| QuestionEngine.DelayPattern.averageDelay := Fin m;
            QuestionEngine.DelayPattern.isHumanLike := false;
            QuestionEngine.DelayPattern.confidenceScore :=
              if Rle_dec 1200 m
              then if Rle_dec m 3400 then Fin 0.75 else Fin 0.5
              else Fin 0.5 |}.
Proof.
  apply (@steady_delays_not_human [2000; 2100; 2300; 1900]%R 1900%R).
  - discriminate.
  - repeat constructor; lra.
Defined.

Section RandomQuestion.

Import QuestionEngine.
Local Open Scope R_scope.
Local Open Scope string_scope.

Lemma randomIndex_le :
  forall (random : R) (length k : nat),
    0 <= random * INR length ->
    (randomIndex random length <= k)%nat
    <-> random * INR length < INR (S k).
Proof.
  intros random length k Hx. unfold randomIndex.
  set (x := random * INR length) in *.
  destruct (base_Int_part x) as [Hle Hgt].
  assert (Hz : (0 <= Int_part x)%Z).
  { assert (H : (-1 < Int_part x)%Z) by (apply lt_IZR; lra). lia. }
  rewrite S_INR, INR_IZR_INZ.
  split; intros H.
  - assert (H' : (Int_part x <= Z.of_nat k)%Z) by lia.
    apply IZR_le in H'. lra.
  - assert (H' : (Int_part x < Z.of_nat k + 1)%Z).
    { apply lt_IZR. rewrite plus_IZR. lra. }
    lia.
Qed.

Lemma randomIndex_bounds :
  forall (random : R) (length : nat),
    0 <= random < 1 -> (0 < length)%nat ->
    (randomIndex random length < length)%nat.
Proof.
  intros random length [H0 H1] Hlen.
  assert (Hn : 0 < INR length) by (apply lt_0_INR; exact Hlen).
  destruct length as [ | k]; [ lia | ].
  apply Nat.lt_succ_r. apply randomIndex_le.
  - apply Rmult_le_pos; lra.
  - rewrite <- (Rmult_1_l (INR (S k))) at 2.
    apply Rmult_lt_compat_r; assumption.
Qed.

Lemma nth_error_in_range :
  forall (A : Type) (xs : list A) (i : nat),
    (i < List.length xs)%nat -> exists x, nth_error xs i = Some x /\ In x xs.
Proof.
  intros A xs i H.
  destruct (nth_error xs i) as [x | ] eqn:E.
  - exists x. split; [ reflexivity | ]. eapply nth_error_In. exact E.
  - apply nth_error_None in E. lia.
Qed.

(** The question drawn from a populated category. *)
Lemma own_question :
  forall (category : string) (qs : list string) (random1 random2 : R),
    0 <= random2 < 1 ->
    Str.truthy category = true ->
    questionsOf category = OwnArray qs ->
    qs <> [] ->
    exists q,
      getRandomQuestion (Some category) random1 random2 = Some q /\ In q qs.
Proof.
  intros category qs random1 random2 H2 Ht Hq Hne.
  unfold getRandomQuestion. rewrite Ht, Hq.
  destruct qs as [ | q0 qs']; [ contradiction | ].
  cbn [List.length Nat.eqb].
  apply nth_error_in_range. apply randomIndex_bounds; [ exact H2 | simpl; lia ].
Qed.

Lemma drawn_category :
  forall random1 : R,
    0 <= random1 < 1 ->
    exists c,
      nth_error questionCategories
        (randomIndex random1 (List.length questionCategories)) = Some c
      /\ In c questionCategories.
Proof.
  intros random1 H1. apply nth_error_in_range.
  apply randomIndex_bounds; [ exact H1 | simpl; lia ].
Qed.

(** X18.  Without a category (or with the empty one) [getRandomQuestion]
    always returns a question: only two of the ten categories have
    questions, so the default question is returned exactly when the first
    draw is at least 0.2, and below 0.2 the question is one of the three
    of the category drawn. *)
Theorem random_question_without_category :
  forall random1 random2 : R,
    0 <= random1 < 1 -> 0 <= random2 < 1 ->
    getRandomQuestion (Some "") random1 random2
    = getRandomQuestion None random1 random2
    /\ exists q,
         getRandomQuestion None random1 random2 = Some q
         /\ (q = defaultQuestion <-> 0.2 <= random1)
         /\ (random1 < 0.2 ->
             exists category qs,
               In (category, qs) questions /\ In q qs).
Proof.
  intros random1 random2 H1 H2.
  split; [ reflexivity | ].
  unfold getRandomQuestion.
  pose proof (@randomIndex_le random1 10 1) as Hidx.
  assert (Hpos : 0 <= random1 * INR 10).
  { apply Rmult_le_pos; [ lra | apply pos_INR ]. }
  specialize (Hidx Hpos).
  assert (Hten : INR 10 = 10) by (simpl; lra).
  assert (Htwo : INR 2 = 2) by (simpl; lra).
  rewrite Hten, Htwo in Hidx.
  pose proof (randomIndex_bounds H1 (length := 10) ltac:(lia)) as Hlt.
  change (List.length questionCategories) with 10%nat.
  set (i := randomIndex random1 10) in *.
  assert (Hq3 : forall qs : list string,
             List.length qs = 3%nat ->
             exists q, nth_error qs (randomIndex random2 3) = Some q
                       /\ In q qs).
  { intros qs Hlen. apply nth_error_in_range. rewrite Hlen.
    apply randomIndex_bounds; [ exact H2 | lia ]. }
  destruct i as [ | [ | i']].
  - (* Workplace Conflicts *)
    cbn [nth_error questionCategories].
    match goal with
    | |- context [questionsOf ?c] =>
        let v := eval vm_compute in (questionsOf c) in
        change (questionsOf c) with v
    end.
    cbv iota. cbn [List.length Nat.eqb].
    match goal with
    | |- context [nth_error ?qs (randomIndex random2 3)] =>
        destruct (Hq3 qs eq_refl) as (q & Hq & Hin)
    end.
    exists q. split; [ exact Hq | ].
    assert (Hlow : random1 < 0.2) by (apply proj1 in Hidx; specialize (Hidx ltac:(lia)); lra).
    split.
    + split; [ | lra ].
      intros ->. exfalso.
      simpl in Hin. unfold defaultQuestion in Hin.
      repeat (destruct Hin as [Hin | Hin]; [ discriminate | ]).
      exact Hin.
    + intros _. eexists _, _. split; [ left; reflexivity | exact Hin ].
  - (* Emergency Responses *)
    cbn [nth_error questionCategories].
    match goal with
    | |- context [questionsOf ?c] =>
        let v := eval vm_compute in (questionsOf c) in
        change (questionsOf c) with v
    end.
    cbv iota. cbn [List.length Nat.eqb].
    match goal with
    | |- context [nth_error ?qs (randomIndex random2 3)] =>
        destruct (Hq3 qs eq_refl) as (q & Hq & Hin)
    end.
    exists q. split; [ exact Hq | ].
    assert (Hlow : random1 < 0.2) by (apply proj1 in Hidx; specialize (Hidx ltac:(lia)); lra).
    split.
    + split; [ | lra ].
      intros ->. exfalso.
      simpl in Hin. unfold defaultQuestion in Hin.
      repeat (destruct Hin as [Hin | Hin]; [ discriminate | ]).
      exact Hin.
    + intros _. eexists _, _.
      split; [ right; left; reflexivity | exact Hin ].
  - (* one of the eight categories without questions *)
    assert (Hhigh : 0.2 <= random1).
    { destruct (Rlt_dec random1 0.2) as [Hlow | Hge]; [ | lra ].
      apply proj2 in Hidx. specialize (Hidx ltac:(lra)). lia. }
    exists defaultQuestion.
    split.
    + do 8 (destruct i' as [ | i']; [ reflexivity | ]). lia.
    + split; [ tauto | lra ].
Qed.

End RandomQuestion.

Lemma random_question_without_category_witness :
  QuestionEngine.getRandomQuestion (Some ""%string) (1 / 2) (1 / 4)
  = QuestionEngine.getRandomQuestion None (1 / 2) (1 / 4)
  /\ exists q,
       QuestionEngine.getRandomQuestion None (1 / 2) (1 / 4) = Some q
       /\ (q = QuestionEngine.defaultQuestion <-> (0.2 <= 1 / 2)%R)
       /\ ((1 / 2 < 0.2)%R ->
           exists category qs,
             In (category, qs) QuestionEngine.questions /\ In q qs).
Proof.
  apply (@random_question_without_category (1 / 2) (1 / 4)); lra.
Defined.

Section QuestionForCategory.

Import QuestionEngine QuestionsRoute.
Local Open Scope R_scope.
Local Open Scope string_scope.

Ltac in_list := simpl; repeat (first [ left; reflexivity | right ]).

Lemma questionsOf_cases :
  forall category : string,
    (exists qs, In (category, qs) questions
                /\ questionsOf category = OwnArray qs /\ qs <> [])
    \/ (In category
           [ "constructor"; "__defineGetter__"; "__defineSetter__";
             "hasOwnProperty"; "__lookupGetter__"; "__lookupSetter__";
             "isPrototypeOf"; "propertyIsEnumerable" ]
        /\ exists n, questionsOf category = InheritedFunction (S n))
    \/ (category = "__proto__" /\ questionsOf category = InheritedObject)
    \/ (In category [ "toString"; "valueOf"; "toLocaleString" ]
        /\ questionsOf category = InheritedFunction 0)
    \/ (inherited category = false
        /\ (forall qs, ~ In (category, qs) questions)
        /\ questionsOf category = Undefined).
Proof.
  intros c.
  destruct (String.eqb_spec "Workplace Conflicts" c) as [<- | N1].
  { left. eexists. split; [ left; reflexivity | ].
    split; [ reflexivity | discriminate ]. }
  destruct (String.eqb_spec "Emergency Responses" c) as [<- | N2].
  { left. eexists. split; [ right; left; reflexivity | ].
    split; [ reflexivity | discriminate ]. }
  destruct (String.eqb_spec "constructor" c) as [<- | P1].
  { right; left. split; [ in_list | eexists; reflexivity ]. }
  destruct (String.eqb_spec "__defineGetter__" c) as [<- | P2].
  { right; left. split; [ in_list | eexists; reflexivity ]. }
  destruct (String.eqb_spec "__defineSetter__" c) as [<- | P3].
  { right; left. split; [ in_list | eexists; reflexivity ]. }
  destruct (String.eqb_spec "hasOwnProperty" c) as [<- | P4].
  { right; left. split; [ in_list | eexists; reflexivity ]. }
  destruct (String.eqb_spec "__lookupGetter__" c) as [<- | P5].
  { right; left. split; [ in_list | eexists; reflexivity ]. }
  destruct (String.eqb_spec "__lookupSetter__" c) as [<- | P6].
  { right; left. split; [ in_list | eexists; reflexivity ]. }
  destruct (String.eqb_spec "isPrototypeOf" c) as [<- | P7].
  { right; left. split; [ in_list | eexists; reflexivity ]. }
  destruct (String.eqb_spec "propertyIsEnumerable" c) as [<- | P8].
  { right; left. split; [ in_list | eexists; reflexivity ]. }
  destruct (String.eqb_spec "__proto__" c) as [<- | P9].
  { right; right; left. split; reflexivity. }
  destruct (String.eqb_spec "toString" c) as [<- | Z1].
  { right; right; right; left. split; [ in_list | reflexivity ]. }
  destruct (String.eqb_spec "valueOf" c) as [<- | Z2].
  { right; right; right; left. split; [ in_list | reflexivity ]. }
  destruct (String.eqb_spec "toLocaleString" c) as [<- | Z3].
  { right; right; right; left. split; [ in_list | reflexivity ]. }
  right; right; right; right.
  assert (E : forall lit, lit <> c -> (lit =? c) = false)
    by (intros lit H; apply String.eqb_neq; exact H).
  assert (E' : forall lit, lit <> c -> (c =? lit) = false)
    by (intros lit H; apply String.eqb_neq; congruence).
  split; [ | split ].
  - unfold inherited, Object_prototype_names. cbn [existsb].
    rewrite !E' by assumption. reflexivity.
  - intros qs [H | [H | []]]; injection H as H _; congruence.
  - unfold questionsOf, questions, Object_prototype_functions.
    cbn [assoc]. rewrite !E by assumption.
    rewrite E' by assumption. reflexivity.
Qed.

(** X19.  With a category, [GET /api/questions] answers a question of that
    category when it is one of the two that have questions, and the default
    question for any other name, except for the names a plain object
    inherits: for "constructor", "hasOwnProperty", "__proto__" and six
    others the answer carries no question at all ([undefined]), and for
    "toString", "valueOf" and "toLocaleString" it carries the default
    question. *)
Theorem question_for_category :
  forall (category : string) (random1 random2 : R),
    0 <= random2 < 1 ->
    Str.truthy category = true ->
    (GET (Some category) random1 random2 = Question None
     <-> In category
           [ "constructor"; "__defineGetter__"; "__defineSetter__";
             "hasOwnProperty"; "__lookupGetter__"; "__lookupSetter__";
             "isPrototypeOf"; "propertyIsEnumerable"; "__proto__" ])
    /\ (forall qs,
          In (category, qs) questions ->
          exists q,
            GET (Some category) random1 random2 = Question (Some q)
            /\ In q qs)
    /\ ((forall qs, ~ In (category, qs) questions) ->
        (inherited category = false
         \/ In category [ "toString"; "valueOf"; "toLocaleString" ]) ->
        GET (Some category) random1 random2
        = Question (Some defaultQuestion)).
Proof.
  intros c random1 random2 H2 Ht.
  unfold GET. rewrite Ht.
  destruct (questionsOf_cases c)
    as [(qs & Hin & Hq & Hne)
       | [(Hin & n & Hq)
         | [(-> & Hq) | [(Hin & Hq) | (Hinh & Hnone & Hq)]]]].
  - (* a populated category *)
    destruct (@own_question c qs random1 random2 H2 Ht Hq Hne)
      as (q & Hget & Hinq).
    rewrite Hget.
    split; [ | split ].
    + split; [ discriminate | ].
      intros Hc. exfalso.
      destruct Hin as [H | [H | []]]; injection H as <- _;
        simpl in Hc;
        repeat (destruct Hc as [Hc | Hc]; [ discriminate | ]); exact Hc.
    + intros qs' Hin'. exists q. split; [ reflexivity | ].
      destruct Hin as [H | [H | []]]; injection H as <- <-;
        (destruct Hin' as [H' | [H' | []]]; [ | ]);
        try (injection H' as <-; exact Hinq);
        try (injection H' as H' _; discriminate).
    + intros Hnone. exfalso. exact (Hnone qs Hin).
  - (* an inherited function with parameters *)
    unfold getRandomQuestion. rewrite Ht, Hq. cbn [Nat.eqb].
    split; [ | split ].
    + split; [ intros _ | reflexivity ].
      simpl in Hin |- *.
      repeat (destruct Hin as [Hin | Hin]; [ auto 12 | ]). contradiction.
    + intros qs Hin'. exfalso.
      destruct Hin' as [H | [H | []]]; injection H as <- _;
        simpl in Hin;
        repeat (destruct Hin as [Hin | Hin]; [ discriminate | ]); exact Hin.
    + intros _ [Hinh | Hz]; exfalso.
      * simpl in Hin.
        repeat (destruct Hin as [Hin | Hin];
                [ subst c; vm_compute in Hinh; discriminate | ]).
        exact Hin.
      * simpl in Hin, Hz.
        repeat (destruct Hin as [Hin | Hin];
                [ subst c;
                  repeat (destruct Hz as [Hz | Hz]; [ discriminate | ]);
                  exact Hz | ]).
        exact Hin.
  - (* the prototype itself *)
    split; [ | split ].
    + split; [ intros _; in_list | reflexivity ].
    + intros qs [H | [H | []]]; discriminate.
    + intros _ [Hinh | Hz]; exfalso.
      * vm_compute in Hinh. discriminate.
      * simpl in Hz.
        repeat (destruct Hz as [Hz | Hz]; [ discriminate | ]). exact Hz.
  - (* an inherited function without parameters *)
    unfold getRandomQuestion. rewrite Ht, Hq. cbn [Nat.eqb].
    split; [ | split ].
    + split; [ discriminate | ].
      intros Hc. exfalso. simpl in Hin.
      repeat (destruct Hin as [Hin | Hin];
              [ subst c; simpl in Hc;
                repeat (destruct Hc as [Hc | Hc]; [ discriminate | ]);
                exact Hc | ]).
      exact Hin.
    + intros qs Hin'. exfalso.
      destruct Hin' as [H | [H | []]]; injection H as <- _;
        simpl in Hin;
        repeat (destruct Hin as [Hin | Hin]; [ discriminate | ]); exact Hin.
    + reflexivity.
  - (* any other name *)
    unfold getRandomQuestion. rewrite Ht, Hq.
    split; [ | split ].
    + split; [ discriminate | ].
      intros Hc. exfalso. simpl in Hc.
      repeat (destruct Hc as [Hc | Hc];
              [ subst c; vm_compute in Hinh; discriminate | ]).
      exact Hc.
    + intros qs Hin. exfalso. exact (Hnone qs Hin).
    + reflexivity.
Qed.

End QuestionForCategory.

Lemma question_for_category_witness :
  QuestionsRoute.GET (Some "constructor"%string) 0 0
  = QuestionsRoute.Question None.
Proof.
  apply (proj1 (@question_for_category "constructor"%string 0%R 0%R
                  ltac:(lra) eq_refl)).
  simpl. auto.
Defined.

Section MapFacts.

Import MockStore.
Local Open Scope string_scope.

Variable V : Type.

Lemma get_set_same :
  forall (m : Map V) (key : string) (value : V),
    get (set m key value) key = Some value.
Proof.
  induction m as [ | [k v] m IH]; intros key value; simpl.
  - now rewrite String.eqb_refl.
  - destruct (k =? key) eqn:E; simpl; rewrite E; [ reflexivity | apply IH ].
Qed.

Lemma get_set_other :
  forall (m : Map V) (key key' : string) (value : V),
    key <> key' -> get (set m key value) key' = get m key'.
Proof.
  induction m as [ | [k v] m IH]; intros key key' value Hne; simpl.
  - apply String.eqb_neq in Hne. now rewrite Hne.
  - destruct (k =? key) eqn:E; simpl.
    + apply String.eqb_eq in E. subst k.
      apply String.eqb_neq in Hne. now rewrite Hne.
    + destruct (k =? key'); [ reflexivity | now apply IH ].
Qed.

End MapFacts.

Section PushFacts.

Import MockStore.
Local Open Scope string_scope.

Variable V : Type.

Lemma pushRow_assigned :
  forall (m : option (Map (list V))) (key : string) (row : V),
    pushRow m key row <> None.
Proof.
  intros m key row. unfold pushRow.
  destruct (get _ key); discriminate.
Qed.

Lemma rowsOf_orEmpty :
  forall (m : option (Map (list V))) (key : string),
    rowsOf m key
    = match get (orEmpty m) key with Some rows => rows | None => [] end.
Proof. intros [m | ] key; reflexivity. Qed.

Lemma rowsOf_pushRow_same :
  forall (m : option (Map (list V))) (key : string) (row : V),
    rowsOf (pushRow m key row) key = (rowsOf m key ++ [row])%list.
Proof.
  intros m key row. rewrite (rowsOf_orEmpty m). unfold pushRow, has.
  destruct (get (orEmpty m) key) as [rows | ] eqn:E.
  - rewrite E. unfold rowsOf. now rewrite get_set_same.
  - rewrite get_set_same. unfold rowsOf. now rewrite get_set_same.
Qed.

Lemma rowsOf_pushRow_other :
  forall (m : option (Map (list V))) (key key' : string) (row : V),
    key <> key' -> rowsOf (pushRow m key row) key' = rowsOf m key'.
Proof.
  intros m key key' row Hne. rewrite (rowsOf_orEmpty m). unfold pushRow, has.
  destruct (get (orEmpty m) key) as [rows | ] eqn:E.
  - rewrite E. unfold rowsOf. now rewrite get_set_other.
  - rewrite get_set_same. unfold rowsOf.
    now rewrite !get_set_other by exact Hne.
Qed.

End PushFacts.

Section QuestionsPost.

Import MockStore QuestionEngine QuestionsRoute InnovationFeatureMatrix.
Local Open Scope string_scope.

Lemma present_cases :
  forall field : option string,
    (exists s, field = Some s /\ Str.truthy s = true /\ present field = true)
    \/ ((field = None \/ field = Some "") /\ present field = false).
Proof.
  intros [[ | c s] | ].
  - right. auto.
  - left. eexists. auto.
  - right. auto.
Qed.

Lemma questions_POST_400 :
  forall (w : World) (clock : Clock) (body : Body) (g : Globals),
    present (originalQuestion body) && present (userResponse body) = false ->
    POST w clock body g
    = (Status400 "Original question and user response are required", g).
Proof.
  intros w clock body g H. unfold POST.
  destruct (originalQuestion body) as [[ | c q] | ];
    destruct (userResponse body) as [[ | c' r] | ];
    try reflexivity.
  discriminate.
Qed.

Lemma questions_POST_fst :
  forall (w : World) (clock : Clock) (body : Body) (g : Globals) q r,
    originalQuestion body = Some q -> userResponse body = Some r ->
    Str.truthy q = true -> Str.truthy r = true ->
    fst (POST w clock body g)
    = FollowUp (generateFollowUpQuestion
                  (grok_followUp w q r (depthOrOne (depth body)))).
Proof.
  intros w clock body g q r Hq Hr Tq Tr. unfold POST.
  rewrite Hq, Hr, Tq, Tr. reflexivity.
Qed.

Lemma questions_POST_snd :
  forall (w : World) (clock : Clock) (body : Body) (g : Globals) q r,
    originalQuestion body = Some q -> userResponse body = Some r ->
    Str.truthy q = true -> Str.truthy r = true ->
    snd (POST w clock body g)
    = match sessionId body with
      | Some sid =>
          if Str.truthy sid && supabase_insert_throws w then
            {| mockSessions := mockSessions g;
               mockInteractions :=
                 pushRow (mockInteractions g) sid
                   {| Interaction.id := now_ms clock;
                      Interaction.session_id := sid;
                      Interaction.question := q;
                      Interaction.response := r;
                      Interaction.follow_up_question :=
                        generateFollowUpQuestion
                          (grok_followUp w q r (depthOrOne (depth body)));
                      Interaction.depth := depthOrOne (depth body);
                      Interaction.created_at := now_iso clock |};
               mockAnalysisResults := mockAnalysisResults g |}
          else g
      | None => g
      end.
Proof.
  intros w clock body g q r Hq Hr Tq Tr. unfold POST.
  rewrite Hq, Hr, Tq, Tr. reflexivity.
Qed.

(** X20.  [POST /api/questions] answers 400 exactly when the original
    question or the response is missing or empty, and then leaves the
    globals as they are.  Otherwise it answers 200, also when the
    completion service fails: the follow-up question is then the empty
    string.  A depth that is missing or 0 is taken as 1. *)
Theorem follow_up_answer :
  forall (w : World) (clock : Clock) (body : Body) (g : Globals),
    (present (originalQuestion body) && present (userResponse body) = false
     -> POST w clock body g
        = (Status400 "Original question and user response are required", g))
    /\ (present (originalQuestion body) && present (userResponse body) = true
        -> exists q r,
             originalQuestion body = Some q /\ userResponse body = Some r
             /\ fst (POST w clock body g)
                = FollowUp
                    (generateFollowUpQuestion
                       (grok_followUp w q r (depthOrOne (depth body))))
             /\ (forall e,
                   grok_followUp w q r (depthOrOne (depth body)) = Rejected e
                   -> fst (POST w clock body g) = FollowUp "")
             /\ (forall content rest,
                   grok_followUp w q r (depthOrOne (depth body))
                   = Resolved (Some content :: rest)
                   -> fst (POST w clock body g) = FollowUp content))
    /\ (depth body = None \/ depth body = Some (Fin 0) ->
        depthOrOne (depth body) = Fin 1).
Proof.
  intros w clock body g. split; [ | split ].
  - apply questions_POST_400.
  - intros H. apply andb_true_iff in H. destruct H as [Hq Hr].
    destruct (present_cases (originalQuestion body))
      as [(q & Eq & Tq & _) | [_ F]]; [ | congruence ].
    destruct (present_cases (userResponse body))
      as [(r & Er & Tr & _) | [_ F]]; [ | congruence ].
    exists q, r.
    pose proof (questions_POST_fst w clock body g Eq Er Tq Tr) as Hfst.
    split; [ exact Eq | ]. split; [ exact Er | ].
    split; [ exact Hfst | ].
    split.
    + intros e He. rewrite Hfst, He. reflexivity.
    + intros content rest Hc. rewrite Hfst, Hc. reflexivity.
  - intros [H | H]; rewrite H; cbn [depthOrOne].
    + reflexivity.
    + destruct (Req_dec_T 0 0) as [_ | N]; [ reflexivity | contradiction ].
Qed.

End QuestionsPost.

Lemma follow_up_answer_witness :
  fst (QuestionsRoute.POST Offline.questions Offline.clock
         (TestPage.followUpRequest "What would you do?" "I would wait."
            (Fin 1) (Some "s1"%string))
         Offline.fresh)
  = QuestionsRoute.FollowUp "".
Proof.
  destruct (@follow_up_answer Offline.questions Offline.clock
              (TestPage.followUpRequest "What would you do?" "I would wait."
                 (Fin 1) (Some "s1"%string))
              Offline.fresh) as (_ & H & _).
  destruct (H eq_refl) as (q & r & Eq & Er & _ & Hrej & _).
  apply (Hrej "ECONNREFUSED"%string). reflexivity.
Defined.

Section AnalyzeStore.

Import MockStore Route InnovationFeatureMatrix.
Local Open Scope string_scope.
Context {L : Lib}.

Lemma fold_record_judgeCalls :
  forall clock t report g calls,
    fold_left (AnalyzeRoute.record clock t report) (judgeCalls t ++ calls) g
    = fold_left (AnalyzeRoute.record clock t report) calls g.
Proof. intros. reflexivity. Qed.

Lemma analyze_POST_globals :
  forall (w : World) (clock : Clock) (request : Request) (g : Globals)
         calls report t,
    Route.POST w request = (calls, Status200 report) ->
    text request = Some t ->
    AnalyzeRoute.POST w clock request g
    = (Status200 report,
       match sessionId request with
       | Some sid =>
           if Str.truthy sid && supabase_insert_throws w then
             {| mockSessions := mockSessions g;
                mockInteractions := mockInteractions g;
                mockAnalysisResults :=
                  pushRow (mockAnalysisResults g) sid
                          (AnalyzeRoute.row clock sid t report) |}
           else g
       | None => g
       end).
Proof.
  intros w clock request g calls report t Hpost Ht.
  destruct (POST_200_inv _ _ Hpost) as (t' & v & Ht' & _ & _ & Hcalls & _).
  rewrite Ht in Ht'. injection Ht' as <-.
  unfold AnalyzeRoute.POST. rewrite Hpost, Ht. f_equal.
  rewrite Hcalls, fold_record_judgeCalls.
  unfold storeCalls.
  destruct (sessionId request) as [sid | ]; [ | reflexivity ].
  destruct (Str.truthy sid); [ | reflexivity ].
  destruct (supabase_insert_throws w); reflexivity.
Qed.

Lemma analyze_POST_no_report :
  forall (w : World) (clock : Clock) (request : Request) (g : Globals),
    is_report (Route.POST w request) = false ->
    snd (AnalyzeRoute.POST w clock request g) = g.
Proof.
  intros w clock request g H. unfold AnalyzeRoute.POST.
  destruct (Route.POST w request) as [calls answer].
  unfold is_report in H. cbn [snd] in H.
  destruct answer; try reflexivity. discriminate.
Qed.

Lemma analyze_POST_sessions :
  forall (w : World) (clock : Clock) (request : Request) (g : Globals),
    mockSessions (snd (AnalyzeRoute.POST w clock request g)) = mockSessions g
    /\ mockInteractions (snd (AnalyzeRoute.POST w clock request g))
       = mockInteractions g.
Proof.
  intros w clock request g.
  destruct (Route.POST w request) as [calls answer] eqn:Hpost.
  destruct answer as [e | e | report];
    try (rewrite analyze_POST_no_report
           by (unfold is_report; now rewrite Hpost);
         split; reflexivity).
  destruct (POST_200_inv _ _ Hpost) as (t & _ & Ht & _).
  rewrite (@analyze_POST_globals w clock request g calls report t Hpost Ht).
  cbn [snd].
  destruct (sessionId request) as [sid | ]; [ | split; reflexivity ].
  destruct (Str.truthy sid && supabase_insert_throws w); split; reflexivity.
Qed.

(** X21.  When the insertion of an analysis throws, the fallback appends
    one row to the rows kept for the session identifier, after the rows
    already there; the rows of every other session, the sessions and the
    interactions are left as they are.  The row holds the scores and the
    label of the report.  Without a session identifier, or when the
    insertion does not throw, the globals are left as they are. *)
Theorem analysis_fallback_appends :
  forall (w : World) (clock : Clock) (request : Request) (g : Globals)
         calls report t,
    Route.POST w request = (calls, Status200 report) ->
    text request = Some t ->
    let g' := snd (AnalyzeRoute.POST w clock request g) in
    (present (sessionId request) && supabase_insert_throws w = false ->
     g' = g)
    /\ (forall sid,
          sessionId request = Some sid -> Str.truthy sid = true ->
          supabase_insert_throws w = true ->
          exists row,
            rowsOf (mockAnalysisResults g') sid
            = (rowsOf (mockAnalysisResults g) sid ++ [row])%list
            /\ AnalysisResult.session_id row = sid
            /\ AnalysisResult.text row = t
            /\ AnalysisResult.overall_score row
               = overallHumanLikenessScore report
            /\ AnalysisResult.classification row = classification report
            /\ (forall sid', sid <> sid' ->
                  rowsOf (mockAnalysisResults g') sid'
                  = rowsOf (mockAnalysisResults g) sid')
            /\ mockSessions g' = mockSessions g
            /\ mockInteractions g' = mockInteractions g).
Proof.
  intros w clock request g calls report t Hpost Ht g'. subst g'.
  rewrite (@analyze_POST_globals w clock request g calls report t Hpost Ht).
  cbn [snd].
  split.
  - unfold present.
    destruct (sessionId request) as [sid | ]; [ | reflexivity ].
    intros ->. reflexivity.
  - intros sid -> Hsid Hthrows. rewrite Hsid, Hthrows. cbn [andb].
    exists (AnalyzeRoute.row clock sid t report).
    cbn [mockAnalysisResults mockSessions mockInteractions].
    split; [ apply rowsOf_pushRow_same | ].
    repeat (split; [ reflexivity | ]).
    split; [ | split; reflexivity ].
    intros sid' Hne. now apply rowsOf_pushRow_other.
Qed.

End AnalyzeStore.

Section Sessions.

Import MockStore SessionsRoute.
Local Open Scope string_scope.

Lemma GET_fallback :
  forall (w : World) (g : Globals) (sid : string),
    Str.truthy sid = true ->
    session_query_fails w sid ->
    loaded g ->
    GET w g (Some sid)
    = match sessionOf g sid with
      | None => Status404 "Session not found"
      | Some session =>
          Found {| SessionData.session := Some session;
                   SessionData.interactions :=
                     Some (rowsOf (mockInteractions g) sid);
                   SessionData.analysisResults :=
                     Some (rowsOf (mockAnalysisResults g) sid) |}
      end.
Proof.
  intros w g sid Hsid Hfails (Hs & Hi & Ha).
  unfold GET, sessionOf, rowsOf. rewrite Hsid. cbn [negb].
  unfold session_query_fails in Hfails.
  destruct (mockSessions g) as [sessions | ]; [ | contradiction ].
  destruct (mockInteractions g) as [interactions | ]; [ | contradiction ].
  destruct (mockAnalysisResults g) as [results | ]; [ | contradiction ].
  destruct (select_session w sid) as [ | data error]; [ reflexivity | ].
  subst error. reflexivity.
Qed.

Lemma POST_fallback :
  forall (w : World) (clock : Clock) (g : Globals) sessions,
    session_insert_fails w ->
    mockSessions g = Some sessions ->
    POST w clock g
    = (Created (uuid clock),
       {| mockSessions :=
            Some (set sessions (uuid clock)
                      {| id := uuid clock; created_at := now_iso clock |});
          mockInteractions := mockInteractions g;
          mockAnalysisResults := mockAnalysisResults g |}).
Proof.
  intros w clock g sessions Hfails Hs. unfold POST. rewrite Hs.
  unfold session_insert_fails in Hfails.
  destruct (insert_session w) as [ | [[ | first rest] | ] [ | ]];
    try reflexivity; contradiction.
Qed.

(** X22.  Creating a session never fails once the route is loaded: the
    answer carries an identifier.  When the store gives no row the
    identifier is a fresh UUID kept in memory, and reading that session
    back while the store still fails gives the session as created, with
    the interactions and the analysis results kept under its identifier
    (none in a fresh process); no other session changes. *)
Theorem session_round_trip :
  forall (w w' : World) (clock : Clock) (g : Globals),
    loaded g ->
    (exists sid, fst (POST w clock g) = Created sid)
    /\ (session_insert_fails w ->
        Str.truthy (uuid clock) = true ->
        session_query_fails w' (uuid clock) ->
        fst (POST w clock g) = Created (uuid clock)
        /\ GET w' (snd (POST w clock g)) (Some (uuid clock))
           = Found
               {| SessionData.session :=
                    Some {| id := uuid clock; created_at := now_iso clock |};
                  SessionData.interactions :=
                    Some (rowsOf (mockInteractions g) (uuid clock));
                  SessionData.analysisResults :=
                    Some (rowsOf (mockAnalysisResults g) (uuid clock)) |}
        /\ (forall sid, sid <> uuid clock ->
              sessionOf (snd (POST w clock g)) sid = sessionOf g sid)).
Proof.
  intros w w' clock g Hloaded.
  destruct Hloaded as (Hs & Hi & Ha).
  destruct (mockSessions g) as [sessions | ] eqn:Es; [ | contradiction ].
  split.
  - unfold POST. rewrite Es.
    destruct (insert_session w) as [ | [[ | first rest] | ] [ | ]];
      eexists; reflexivity.
  - intros Hfails Huuid Hquery.
    rewrite (@POST_fallback w clock g sessions Hfails Es). cbn [fst snd].
    split; [ reflexivity | ]. split.
    + rewrite GET_fallback; try assumption.
      * unfold sessionOf. cbn [mockSessions mockInteractions
                                 mockAnalysisResults].
        rewrite get_set_same. reflexivity.
      * repeat split; cbn; [ discriminate | exact Hi | exact Ha ].
    + intros sid Hne. unfold sessionOf. cbn [mockSessions]. rewrite Es.
      apply get_set_other. congruence.
Qed.

(** X23.  Reading a session answers 400 exactly when the identifier is
    missing or empty.  When the query of the session fails, the answer is
    404 exactly when the fallback has no session of that identifier,
    whatever rows are kept under it. *)
Theorem session_lookup_errors :
  forall (w : World) (g : Globals) (sessionId : option string),
    (GET w g sessionId = Status400 "Session ID is required"
     <-> present sessionId = false)
    /\ (forall sid,
          sessionId = Some sid -> Str.truthy sid = true ->
          session_query_fails w sid -> loaded g ->
          (GET w g sessionId = Status404 "Session not found"
           <-> sessionOf g sid = None)).
Proof.
  intros w g sessionId. split.
  - destruct sessionId as [[ | c sid] | ]; cbn [present Str.truthy];
      try (split; reflexivity).
    split; [ | discriminate ].
    unfold GET. cbn [Str.truthy negb].
    destruct (select_session w (String c sid)) as [ | ? [ | ]];
      repeat match goal with
             | |- context [match ?x with _ => _ end] => destruct x
             end;
      discriminate.
  - intros sid -> Hsid Hfails Hloaded.
    rewrite (@GET_fallback w g sid Hsid Hfails Hloaded).
    destruct (sessionOf g sid); split; try discriminate; reflexivity.
Qed.

End Sessions.

Lemma session_round_trip_witness :
  SessionsRoute.GET Offline.store
    (snd (SessionsRoute.POST Offline.store Offline.clock Offline.fresh))
    (Some (MockStore.uuid Offline.clock))
  = SessionsRoute.Found
      {| SessionsRoute.SessionData.session :=
           Some {| MockStore.id := MockStore.uuid Offline.clock;
                   MockStore.created_at := MockStore.now_iso Offline.clock |};
         SessionsRoute.SessionData.interactions := Some [];
         SessionsRoute.SessionData.analysisResults := Some [] |}.
Proof.
  assert (Hloaded : loaded Offline.fresh)
    by (repeat split; discriminate).
  destruct (@session_round_trip Offline.store Offline.store Offline.clock
              Offline.fresh Hloaded) as [_ H].
  destruct (H I eq_refl I) as (_ & Hget & _).
  exact Hget.
Defined.

Lemma session_lookup_errors_witness :
  SessionsRoute.GET Offline.store Offline.fresh (Some "unknown"%string)
  = SessionsRoute.Status404 "Session not found".
Proof.
  destruct (@session_lookup_errors Offline.store Offline.fresh
              (Some "unknown"%string)) as [_ H].
  apply (H "unknown"%string eq_refl eq_refl I).
  - repeat split; discriminate.
  - reflexivity.
Defined.

Lemma analysis_fallback_appends_witness :
  exists report row,
    snd (Route.POST (L := Sample.lib) storeDown Sample.lateRequest)
    = Route.Status200 report
    /\ rowsOf (MockStore.mockAnalysisResults
                 (snd (AnalyzeRoute.POST (L := Sample.lib) storeDown
                         Offline.clock Sample.lateRequest Offline.fresh)))
              "session-1"
       = [row]
    /\ MockStore.AnalysisResult.classification row
       = Route.classification report.
Proof.
  destruct lateRequest_vocabulary as [v Hv].
  destruct (POST_200_intro (L := Sample.lib) storeDown Sample.lateRequest
              eq_refl eq_refl Hv) as [report Hpost].
  destruct (@analysis_fallback_appends Sample.lib storeDown Offline.clock
              Sample.lateRequest Offline.fresh _ report
              "I was late. Sorry!"%string Hpost eq_refl) as [_ H].
  destruct (H "session-1"%string eq_refl eq_refl eq_refl)
    as (row & Hrows & _ & _ & _ & Hclass & _).
  exists report, row.
  split; [ rewrite Hpost; reflexivity | ].
  split; [ exact Hrows | exact Hclass ].
Defined.

Section Pipeline.

Import MockStore.
Local Open Scope string_scope.
Context {L : Lib}.

Lemma loaded_intro :
  forall s i a,
    loaded {| mockSessions := Some s; mockInteractions := Some i;
              mockAnalysisResults := Some a |}.
Proof. intros. repeat split; discriminate. Qed.

Lemma questions_POST_rows :
  forall (w : QuestionsRoute.World) (clock : Clock) (g : Globals)
         (q r : string) (depth : number) (sid : string),
    Str.truthy q = true -> Str.truthy r = true -> Str.truthy sid = true ->
    QuestionsRoute.supabase_insert_throws w = true ->
    let g' := snd (QuestionsRoute.POST w clock
                     (TestPage.followUpRequest q r depth (Some sid)) g) in
    exists interaction,
      rowsOf (mockInteractions g') sid
      = (rowsOf (mockInteractions g) sid ++ [interaction])%list
      /\ Interaction.question interaction = q
      /\ Interaction.response interaction = r
      /\ mockInteractions g' <> None
      /\ mockSessions g' = mockSessions g
      /\ mockAnalysisResults g' = mockAnalysisResults g.
Proof.
  intros w clock g q r depth sid Tq Tr Ts Hthrows g'. subst g'.
  rewrite (@questions_POST_snd w clock
             (TestPage.followUpRequest q r depth (Some sid)) g q r
             eq_refl eq_refl Tq Tr).
  cbn [QuestionsRoute.sessionId QuestionsRoute.depth
         TestPage.followUpRequest].
  rewrite Ts, Hthrows. cbn [andb mockInteractions mockSessions
                              mockAnalysisResults].
  eexists. split; [ apply rowsOf_pushRow_same | ].
  split; [ reflexivity | ]. split; [ reflexivity | ].
  split; [ apply pushRow_assigned | split; reflexivity ].
Qed.

(** X24.  With the store down, a whole test is kept in memory and read
    back: after a session is created, a follow-up is asked for and the
    final response is analyzed under the identifier of the session, reading
    the session gives the session, the interaction and the analysis, each
    after the rows that were already kept under that identifier. *)
Theorem fallback_pipeline :
  forall (ws ws' : SessionsRoute.World) (wq : QuestionsRoute.World)
         (wa : Route.World) (c1 c2 c3 : Clock) (g : Globals)
         (q r : string) (depth : number) (text : string)
         (delays : list number) calls report,
    loaded g ->
    session_insert_fails ws ->
    Str.truthy (uuid c1) = true ->
    session_query_fails ws' (uuid c1) ->
    QuestionsRoute.supabase_insert_throws wq = true ->
    Route.supabase_insert_throws wa = true ->
    Str.truthy q = true -> Str.truthy r = true ->
    Route.POST wa (TestPage.analyzeRequest text delays (Some (uuid c1)))
    = (calls, Route.Status200 report) ->
    let sid := uuid c1 in
    let g1 := snd (SessionsRoute.POST ws c1 g) in
    let g2 := snd (QuestionsRoute.POST wq c2
                     (TestPage.followUpRequest q r depth (Some sid)) g1) in
    let g3 := snd (AnalyzeRoute.POST wa c3
                     (TestPage.analyzeRequest text delays (Some sid)) g2) in
    exists interaction row,
      SessionsRoute.GET ws' g3 (Some sid)
      = SessionsRoute.Found
          {| SessionsRoute.SessionData.session :=
               Some {| id := sid; created_at := now_iso c1 |};
             SessionsRoute.SessionData.interactions :=
               Some (rowsOf (mockInteractions g) sid ++ [interaction])%list;
             SessionsRoute.SessionData.analysisResults :=
               Some (rowsOf (mockAnalysisResults g) sid ++ [row])%list |}
      /\ Interaction.question interaction = q
      /\ Interaction.response interaction = r
      /\ AnalysisResult.text row = text
      /\ AnalysisResult.overall_score row
         = Route.overallHumanLikenessScore report
      /\ AnalysisResult.classification row = Route.classification report.
Proof.
  intros ws ws' wq wa c1 c2 c3 g q r depth text delays calls report
         Hloaded Hinsert Huuid Hquery Hq Ha Tq Tr Hpost sid g1 g2 g3.
  destruct Hloaded as (Hs & Hi & Hr).
  destruct (mockSessions g) as [sessions | ] eqn:Es; [ | contradiction ].
  assert (E1 : g1
               = {| mockSessions :=
                      Some (set sessions sid
                              {| id := sid; created_at := now_iso c1 |});
                    mockInteractions := mockInteractions g;
                    mockAnalysisResults := mockAnalysisResults g |}).
  { subst g1. now rewrite (@POST_fallback ws c1 g sessions Hinsert Es). }
  destruct (@questions_POST_rows wq c2 g1 q r depth sid Tq Tr Huuid Hq)
    as (interaction & Hrows2 & Hiq & Hir & Hi2 & Hs2 & Ha2).
  fold g2 in Hrows2, Hi2, Hs2, Ha2.
  assert (Ht : Route.text (TestPage.analyzeRequest text delays (Some sid))
               = Some text) by reflexivity.
  assert (E3 : g3
               = {| mockSessions := mockSessions g2;
                    mockInteractions := mockInteractions g2;
                    mockAnalysisResults :=
                      pushRow (mockAnalysisResults g2) sid
                              (AnalyzeRoute.row c3 sid text report) |}).
  { subst g3.
    rewrite (@analyze_POST_globals L wa c3
               (TestPage.analyzeRequest text delays (Some sid)) g2
               calls report text Hpost Ht).
    cbn [snd Route.sessionId TestPage.analyzeRequest].
    unfold sid. rewrite Huuid, Ha. reflexivity. }
  exists interaction, (AnalyzeRoute.row c3 sid text report).
  split; [ | repeat split; assumption || reflexivity ].
  rewrite GET_fallback.
  - rewrite E3. unfold sessionOf.
    cbn [mockSessions mockInteractions mockAnalysisResults].
    rewrite Hs2, E1. cbn [mockSessions]. rewrite get_set_same.
    rewrite rowsOf_pushRow_same, Hrows2, Ha2, E1.
    reflexivity.
  - exact Huuid.
  - exact Hquery.
  - rewrite E3. repeat split;
      cbn [mockSessions mockInteractions mockAnalysisResults].
    + rewrite Hs2, E1. discriminate.
    + exact Hi2.
    + apply pushRow_assigned.
Qed.

(** X25.  The routes that store rows do not create sessions: when the
    fallback has no session of the identifier a text is analyzed under (it
    was created in the store, or nowhere), the analysis is appended to the
    rows kept in memory, but reading the session while the store fails
    answers 404. *)
Theorem orphan_analysis_not_found :
  forall (wa : Route.World) (ws : SessionsRoute.World) (clock : Clock)
         (g : Globals) (request : Route.Request) calls report sid,
    loaded g ->
    Route.POST wa request = (calls, Route.Status200 report) ->
    Route.sessionId request = Some sid ->
    Str.truthy sid = true ->
    sessionOf g sid = None ->
    session_query_fails ws sid ->
    let g' := snd (AnalyzeRoute.POST wa clock request g) in
    SessionsRoute.GET ws g' (Some sid)
    = SessionsRoute.Status404 "Session not found"
    /\ (Route.supabase_insert_throws wa = true ->
        rowsOf (mockAnalysisResults g') sid <> []).
Proof.
  intros wa ws clock g request calls report sid Hloaded Hpost Hsid Ts Hnone
         Hquery g'.
  destruct (POST_200_inv _ _ Hpost) as (t & _ & Ht & _).
  destruct (analyze_POST_sessions wa clock request g) as [Hs Hi].
  fold g' in Hs, Hi.
  assert (Hl : loaded g').
  { destruct Hloaded as (Ls & Li & La).
    split; [ now rewrite Hs | ]. split; [ now rewrite Hi | ].
    subst g'.
    rewrite (@analyze_POST_globals L wa clock request g calls report t
               Hpost Ht).
    cbn [snd]. rewrite Hsid, Ts. cbn [andb].
    destruct (Route.supabase_insert_throws wa); [ | exact La ].
    apply pushRow_assigned. }
  split.
  - rewrite (@GET_fallback ws g' sid Ts Hquery Hl).
    unfold sessionOf in *. rewrite Hs. now rewrite Hnone.
  - intros Hthrows. subst g'.
    rewrite (@analyze_POST_globals L wa clock request g calls report t
               Hpost Ht).
    cbn [snd]. rewrite Hsid, Ts, Hthrows. cbn [andb mockAnalysisResults].
    rewrite rowsOf_pushRow_same.
    intros H. apply app_eq_nil in H. destruct H as [_ H]. discriminate.
Qed.

End Pipeline.

Lemma fallback_pipeline_witness :
  exists interaction row,
    SessionsRoute.GET Offline.store
      (snd (AnalyzeRoute.POST (L := Sample.lib) storeDown Offline.clock
              (TestPage.analyzeRequest "I was late. Sorry!" []
                 (Some (MockStore.uuid Offline.clock)))
              (snd (QuestionsRoute.POST Offline.questions Offline.clock
                      (TestPage.followUpRequest "What would you do?"
                         "I would wait." (Fin 1)
                         (Some (MockStore.uuid Offline.clock)))
                      (snd (SessionsRoute.POST Offline.store Offline.clock
                              Offline.fresh))))))
      (Some (MockStore.uuid Offline.clock))
    = SessionsRoute.Found
        {| SessionsRoute.SessionData.session :=
             Some {| MockStore.id := MockStore.uuid Offline.clock;
                     MockStore.created_at :=
                       MockStore.now_iso Offline.clock |};
           SessionsRoute.SessionData.interactions := Some [interaction];
           SessionsRoute.SessionData.analysisResults := Some [row] |}
    /\ MockStore.Interaction.question interaction
       = "What would you do?"%string
    /\ MockStore.AnalysisResult.text row = "I was late. Sorry!"%string.
Proof.
  destruct lateRequest_vocabulary as [v Hv].
  destruct (POST_200_intro (L := Sample.lib) storeDown
              (TestPage.analyzeRequest "I was late. Sorry!" []
                 (Some (MockStore.uuid Offline.clock)))
              eq_refl eq_refl Hv) as [report Hpost].
  assert (Hloaded : loaded Offline.fresh) by (repeat split; discriminate).
  destruct (@fallback_pipeline Sample.lib Offline.store Offline.store
              Offline.questions storeDown Offline.clock Offline.clock
              Offline.clock Offline.fresh "What would you do?"%string
              "I would wait."%string (Fin 1) "I was late. Sorry!"%string []
              _ report Hloaded I eq_refl I eq_refl eq_refl eq_refl eq_refl
              Hpost)
    as (interaction & row & Hget & Hq & _ & Ht & _).
  exists interaction, row. split; [ exact Hget | ]. split; assumption.
Defined.

Lemma orphan_analysis_not_found_witness :
  SessionsRoute.GET Offline.store
    (snd (AnalyzeRoute.POST (L := Sample.lib) storeDown Offline.clock
            Sample.lateRequest Offline.fresh))
    (Some "session-1"%string)
  = SessionsRoute.Status404 "Session not found"
  /\ rowsOf (MockStore.mockAnalysisResults
               (snd (AnalyzeRoute.POST (L := Sample.lib) storeDown
                       Offline.clock Sample.lateRequest Offline.fresh)))
            "session-1"
     <> [].
Proof.
  destruct lateRequest_vocabulary as [v Hv].
  destruct (POST_200_intro (L := Sample.lib) storeDown Sample.lateRequest
              eq_refl eq_refl Hv) as [report Hpost].
  assert (Hloaded : loaded Offline.fresh) by (repeat split; discriminate).
  destruct (@orphan_analysis_not_found Sample.lib storeDown Offline.store
              Offline.clock Offline.fresh Sample.lateRequest _ report
              "session-1"%string Hloaded Hpost eq_refl eq_refl eq_refl I)
    as [Hget Hrows].
  split; [ exact Hget | exact (Hrows eq_refl) ].
Defined.

Section KeyPresses.

Import QuestionCard.
Local Open Scope R_scope.

Lemma typed_snoc :
  forall inputs i, typed (inputs ++ [i]) = handle (typed inputs) i.
Proof. intros. unfold typed. now rewrite fold_left_app. Qed.

Lemma keyDowns_snoc :
  forall inputs i,
    keyDowns (inputs ++ [i])
    = (keyDowns inputs
       + match i with KeyDown _ => 1 | Change _ => 0 end)%nat.
Proof.
  intros inputs i. unfold keyDowns.
  rewrite filter_app, length_app. destruct i; reflexivity.
Qed.

Lemma delay_in_window :
  forall delay : number,
    geb delay (Fin 100) && leb delay (Fin 10000) = true ->
    delay_recorded delay.
Proof.
  intros [ | | | x]; unfold geb; cbn [leb andb]; try discriminate.
  destruct (Rle_dec 100 x); [ | discriminate ].
  destruct (Rle_dec x 10000); [ | discriminate ].
  intros _. exists x. split; [ reflexivity | lra ].
Qed.

Lemma typed_invariant :
  forall inputs,
    Forall delay_recorded (responseDelays (typed inputs))
    /\ match lastKeyTime (typed inputs) with
       | None => responseDelays (typed inputs) = [] /\ keyDowns inputs = 0%nat
       | Some _ =>
           (S (List.length (responseDelays (typed inputs)))
            <= keyDowns inputs)%nat
       end.
Proof.
  induction inputs as [ | i inputs IH] using rev_ind.
  - split; [ constructor | split; reflexivity ].
  - rewrite typed_snoc, keyDowns_snoc.
    destruct IH as [Hall Hcount].
    destruct i as [currentTime | value].
    + cbn [handle handleKeyPress responseDelays lastKeyTime].
      destruct (lastKeyTime (typed inputs)) as [last | ].
      * destruct (truthy_number last); [ | split; [ exact Hall | lia ] ].
        destruct (geb (sub currentTime last) (Fin 100)
                  && leb (sub currentTime last) (Fin 10000)) eqn:E;
          [ | split; [ exact Hall | lia ] ].
        split.
        -- apply Forall_app. split; [ exact Hall | ].
           constructor; [ | constructor ]. now apply delay_in_window.
        -- rewrite length_app. simpl. lia.
      * destruct Hcount as [-> ->]. split; [ constructor | simpl; lia ].
    + cbn [handle handleChange responseDelays lastKeyTime].
      split; [ exact Hall | ].
      destruct (lastKeyTime (typed inputs)); [ lia | ].
      destruct Hcount as [-> ->]. split; reflexivity.
Qed.

Lemma recorded_reals :
  forall delays : list number,
    Forall delay_recorded delays ->
    exists xs, delays = map Fin xs
               /\ Forall (fun x => 100 <= x <= 100 + 9900) xs.
Proof.
  induction delays as [ | d ds IH]; intros H.
  - exists []. split; [ reflexivity | constructor ].
  - inversion H as [ | ? ? (x & -> & Hx) Hds]; subst.
    destruct (IH Hds) as (xs & -> & Hxs).
    exists (x :: xs). split; [ reflexivity | ].
    constructor; [ lra | exact Hxs ].
Qed.

Lemma averageDelay_recorded :
  forall delays : list number,
    Forall delay_recorded delays ->
    delays <> [] ->
    delay_recorded (InnovationFeatureMatrix.averageDelay delays).
Proof.
  intros delays H Hne.
  destruct (recorded_reals H) as (xs & -> & Hxs).
  unfold InnovationFeatureMatrix.averageDelay.
  rewrite length_map.
  assert (Hn : 0 < INR (List.length xs)).
  { destruct xs; [ contradiction | ]. apply lt_0_INR. simpl. lia. }
  assert (Hpos : (0 <? List.length xs)%nat = true).
  { apply Nat.ltb_lt. apply INR_lt. simpl. exact Hn. }
  rewrite Hpos. unfold sum. rewrite sum_Fin_from.
  unfold of_nat. rewrite (div_Fin_pos _ Hn).
  eexists. split; [ reflexivity | ].
  pose proof (fold_sum_bounds 0 Hxs) as Hb.
  assert (Hq : 100 <= fold_left Rplus xs 0 / INR (List.length xs)
               <= 100 + 9900).
  { apply quotient_bounds; [ exact Hn | lra ]. }
  lra.
Qed.

(** X26.  Whatever is typed, every delay the question card records is a
    number of [100, 10000]; with no key press there is no delay, and with
    at least one there are fewer delays than key presses, the first key
    press recording nothing; and the average that the time-perception
    judge takes of them is 0 (no delay) or lies within [100, 10000]. *)
Theorem recorded_delays_in_range :
  forall inputs : list input,
    Forall delay_recorded (responseDelays (typed inputs))
    /\ (keyDowns inputs = 0%nat -> responseDelays (typed inputs) = [])
    /\ ((0 < keyDowns inputs)%nat ->
        (List.length (responseDelays (typed inputs)) < keyDowns inputs)%nat)
    /\ (InnovationFeatureMatrix.averageDelay (responseDelays (typed inputs))
        = Fin 0
        \/ delay_recorded
             (InnovationFeatureMatrix.averageDelay
                (responseDelays (typed inputs)))).
Proof.
  intros inputs. destruct (typed_invariant inputs) as [Hall Hcount].
  split; [ exact Hall | ]. split; [ | split ].
  - intros Hzero.
    destruct (lastKeyTime (typed inputs)); [ lia | exact (proj1 Hcount) ].
  - intros Hpos.
    destruct (lastKeyTime (typed inputs)); [ lia | ].
    destruct Hcount as [_ Hzero]. lia.
  - destruct (responseDelays (typed inputs)) as [ | d ds] eqn:E.
    + left. reflexivity.
    + right. apply averageDelay_recorded; [ exact Hall | discriminate ].
Qed.

End KeyPresses.

Lemma recorded_delays_in_range_witness :
  QuestionCard.responseDelays (typed [QuestionCard.Change "Hello"]) = []
  /\ (List.length
        (QuestionCard.responseDelays
           (typed [QuestionCard.KeyDown (Fin 1000);
                   QuestionCard.KeyDown (Fin 1500)]))
      < 2)%nat.
Proof.
  split.
  - apply (proj1 (proj2 (@recorded_delays_in_range
                           [QuestionCard.Change "Hello"]))).
    reflexivity.
  - apply (proj1 (proj2 (proj2 (@recorded_delays_in_range
                                  [QuestionCard.KeyDown (Fin 1000);
                                   QuestionCard.KeyDown (Fin 1500)])))).
    cbv [keyDowns filter List.length]. lia.
Defined.

Section Submission.

Import QuestionCard.
Local Open Scope string_scope.
Context {L : Lib}.

Lemma truthy_trim :
  forall s : string, Str.truthy (Str.trim s) = true -> Str.truthy s = true.
Proof. intros [ | c s] H; [ discriminate | reflexivity ]. Qed.

Lemma not_rejected :
  forall (w : Route.World) (request : Route.Request) t,
    Route.text request = Some t -> Str.truthy t = true ->
    rejected (Route.POST w request) = false.
Proof.
  intros w request t Ht Htruthy.
  destruct (rejected (Route.POST w request)) eqn:E; [ | reflexivity ].
  apply rejected_iff in E. destruct E as [E | E]; rewrite Ht in E.
  - discriminate.
  - injection E as ->. discriminate.
Qed.

(** X27.  The question card submits a response exactly when it has a
    character that is not whitespace, and then clears its state; what it
    submits is never turned away by the analyze handler with status 400,
    and neither is it by the questions handler when the original question
    is not empty. *)
Theorem submitted_response_accepted :
  forall st : State,
    (fst (handleSubmit st) = None <-> Str.trim (response st) = "")
    /\ (fst (handleSubmit st) = None -> snd (handleSubmit st) = st)
    /\ (forall text delays,
          fst (handleSubmit st) = Some (text, delays) ->
          text = response st /\ delays = responseDelays st
          /\ snd (handleSubmit st) = initial
          /\ (forall (w : Route.World) sessionId,
                rejected
                  (Route.POST w (TestPage.analyzeRequest text delays
                                   sessionId)) = false)
          /\ (forall (w : QuestionsRoute.World) clock g question depth
                     sessionId,
                Str.truthy question = true ->
                exists followUp,
                  fst (QuestionsRoute.POST w clock
                         (TestPage.followUpRequest question text depth
                            sessionId) g)
                  = QuestionsRoute.FollowUp followUp)).
Proof.
  intros st. unfold handleSubmit.
  destruct (Str.trim (response st)) as [ | c s] eqn:E; cbn [Str.truthy fst snd].
  - split; [ split; reflexivity | ].
    split; [ reflexivity | discriminate ].
  - split; [ split; discriminate | ].
    split; [ discriminate | ].
    intros text delays H. injection H as <- <-.
    assert (Ht : Str.truthy (response st) = true).
    { apply truthy_trim. now rewrite E. }
    split; [ reflexivity | ]. split; [ reflexivity | ].
    split; [ reflexivity | ]. split.
    + intros w sessionId. eapply not_rejected; [ reflexivity | exact Ht ].
    + intros w clock g question depth sessionId Hq.
      unfold QuestionsRoute.POST, TestPage.followUpRequest.
      cbn [QuestionsRoute.originalQuestion QuestionsRoute.userResponse].
      rewrite Hq, Ht. eexists. reflexivity.
Qed.

(** X28.  A response entered with at most one key press (pasted, say) has
    no recorded delay; the time-perception judge then takes the average
    delay to be 0, which counts as faster than 500 ms: its score is at
    most 0.45 and its verdict is never "human-like". *)
Theorem pasted_response_penalised :
  forall (inputs : list input) (text : string),
    (keyDowns inputs <= 1)%nat ->
    responseDelays (typed inputs) = []
    /\ exists x,
         InnovationFeatureMatrix.score
           (InnovationFeatureMatrix.analyzeTimePerception text
              (responseDelays (typed inputs))) = Fin x
         /\ (0.15 <= x <= 0.45)%R
         /\ verdictSentence
              (InnovationFeatureMatrix.averageDelay
                 (responseDelays (typed inputs)))
              (InnovationFeatureMatrix.hasVagueTimeReferences text)
              (InnovationFeatureMatrix.hasPreciseTimeReferences text)
            <> "The text shows human-like time perception patterns.".
Proof.
  intros inputs text Hk.
  destruct (typed_invariant inputs) as [_ Hcount].
  assert (Hnil : responseDelays (typed inputs) = []).
  { destruct (lastKeyTime (typed inputs)).
    - destruct (responseDelays (typed inputs)); [ reflexivity | ].
      simpl in Hcount. lia.
    - exact (proj1 Hcount). }
  split; [ exact Hnil | ].
  rewrite Hnil. rewrite analyzeTimePerception_score.
  change (InnovationFeatureMatrix.averageDelay []) with (Fin 0).
  assert (Hw : humanWindow (Fin 0) = false).
  { unfold humanWindow, geb. cbn [leb].
    destruct (Rle_dec 1200 0); [ lra | reflexivity ]. }
  assert (Hf : ltb (Fin 0) (Fin 500) = true).
  { cbn [ltb]. destruct (Rlt_dec 0 500); [ reflexivity | lra ]. }
  unfold verdictSentence, InnovationFeatureMatrix.timeScore.
  fold (humanWindow (Fin 0)). rewrite Hw, Hf. cbn [andb].
  destruct (InnovationFeatureMatrix.hasVagueTimeReferences text),
    (InnovationFeatureMatrix.hasPreciseTimeReferences text);
    cbn [add sub negb andb];
    (eexists; split; [ reflexivity | split; [ lra | discriminate ] ]).
Qed.

End Submission.

Lemma pasted_response_penalised_witness :
  QuestionCard.responseDelays
    (typed [QuestionCard.KeyDown (Fin 1700000000000);
            QuestionCard.Change "I was late. Sorry!"]) = []
  /\ exists x,
       InnovationFeatureMatrix.score
         (InnovationFeatureMatrix.analyzeTimePerception (L := Sample.lib)
            "I was late. Sorry!"
            (QuestionCard.responseDelays
               (typed [QuestionCard.KeyDown (Fin 1700000000000);
                       QuestionCard.Change "I was late. Sorry!"])))
       = Fin x
       /\ (0.15 <= x <= 0.45)%R.
Proof.
  destruct (@pasted_response_penalised Sample.lib
              [QuestionCard.KeyDown (Fin 1700000000000);
               QuestionCard.Change "I was late. Sorry!"]
              "I was late. Sorry!"%string)
    as (Hnil & x & Hx & Hrange & _).
  - cbv [keyDowns filter List.length]. lia.
  - split; [ exact Hnil | ]. exists x. split; assumption.
Defined.

Lemma submitted_response_accepted_witness :
  fst (QuestionCard.handleSubmit
         (typed [QuestionCard.Change "I was late. Sorry!"]))
  = Some ("I was late. Sorry!"%string, [])
  /\ rejected
       (Route.POST (L := Sample.lib) Sample.offline
          (TestPage.analyzeRequest "I was late. Sorry!" [] None)) = false.
Proof.
  split; [ reflexivity | ].
  destruct (@submitted_response_accepted Sample.lib
              (typed [QuestionCard.Change "I was late. Sorry!"]))
    as (_ & _ & H).
  destruct (H "I was late. Sorry!"%string [] eq_refl) as (_ & _ & _ & Hr & _).
  apply Hr.
Defined.

Section Colours.

Import Route ResultsCard.
Local Open Scope R_scope.
Local Open Scope string_scope.
Context {L : Lib}.

Lemma classify_colour :
  forall x : R,
    getScoreColor (Some (Fin x)) true = classificationColor (classify (Fin x)).
Proof.
  intros x. unfold getScoreColor, classify.
  destruct (geb (Fin x) (Fin 0.7)); [ reflexivity | ].
  destruct (leb (Fin x) (Fin 0.3)); reflexivity.
Qed.

(** X29.  In the results card the figure of the overall score and the
    label of the classification have the same colour whenever the score is
    a number: green for "Human", red for "AI", yellow for "Ambiguous".
    When the score is NaN it arrives as [null]: the figure is grey and the
    label "Ambiguous" is yellow. *)
Theorem overall_colour_matches_label :
  forall (w : World) (request : Request) calls report,
    POST w request = (calls, Status200 report) ->
    (forall x,
        overallHumanLikenessScore report = Fin x ->
        overallColor report = classificationColor (classification report)
        /\ (overallColor report = "text-green-600"
            <-> classification report = "Human")
        /\ (overallColor report = "text-red-600"
            <-> classification report = "AI"))
    /\ (overallHumanLikenessScore report = NaN ->
        overallColor report = "text-gray-600"
        /\ classification report = "Ambiguous"
        /\ classificationColor (classification report) = "text-yellow-600").
Proof.
  intros w request calls report Hpost.
  destruct (POST_composite _ _ _ Hpost) as [_ Hclass].
  split.
  - intros x Hx. unfold overallColor. rewrite Hclass, Hx.
    cbn [fromJSON]. split; [ apply classify_colour | ].
    unfold getScoreColor, classify.
    destruct (geb (Fin x) (Fin 0.7)).
    + split; split; (reflexivity || discriminate).
    + destruct (leb (Fin x) (Fin 0.3));
        split; split; (reflexivity || discriminate).
  - intros Hnan. unfold overallColor. rewrite Hclass, Hnan.
    repeat split.
Qed.

Lemma three_halves_power_below_one :
  forall v, 0 <= v < 1 -> three_halves_power v < 1.
Proof.
  intros v [H0 H1]. unfold three_halves_power.
  rewrite <- sqrt_1. apply sqrt_lt_1.
  - apply pow_le. exact H0.
  - lra.
  - assert (H : v ^ 3 <= v ^ 2 * 1).
    { simpl. assert (0 <= v * v) by nra. nra. }
    assert (H2 : v ^ 2 < 1) by (simpl; nra).
    lra.
Qed.

(** X30.  The bar "Overall AI Similarity" is coloured as a score of
    AI-likeness although the handler computes it as a score of
    human-likeness: for a text of at most 200 characters with a token and
    a vocabulary complexity below 1, the score is above 0.7 and its figure
    is red. *)
Theorem ai_similarity_bar_inverted :
  forall (w : World) (request : Request) t calls report,
    POST w request = (calls, Status200 report) ->
    text request = Some t ->
    (String.length t <= 200)%nat ->
    tokenize t <> [] ->
    AiSimilarity.vocabularyComplexity (aiSimilarity report) <> Fin 1 ->
    (exists x,
        AiSimilarity.overallScore (aiSimilarity report) = Fin x
        /\ 0.7 < x <= 1)
    /\ aiSimilarityColor report = "text-red-600".
Proof.
  intros w request t calls report Hpost Ht Hshort Htok Hone.
  destruct (POST_200_fields _ _ Hpost)
    as (t' & v & Ht' & Hv & Hvoc & Hemo & Hdiv & Hai & _).
  rewrite Ht in Ht'. injection Ht' as <-.
  pose proof (short_text_segments t Hshort) as Hseg.
  assert (Hfew : (List.length (segmentText t) < 2)%nat) by lia.
  destruct (scorers_few_segments _ Hfew) as [He Hd].
  rewrite He in Hemo. rewrite Hd in Hdiv.
  pose proof (vocabulary_in_unit_interval _ Htok Hv) as Hrange.
  destruct v as [ | | | x]; try contradiction. simpl in Hrange.
  assert (Hx : x < 1).
  { destruct (Rlt_dec x 1) as [H | H]; [ exact H | ].
    exfalso. apply Hone. rewrite Hvoc. f_equal. lra. }
  pose proof (@three_halves_power_below_one x ltac:(lra)) as Hpow.
  assert (Hpos : 0 <= three_halves_power x).
  { unfold three_halves_power. apply sqrt_pos. }
  assert (Hscore : AiSimilarity.overallScore (aiSimilarity report)
                   = Fin (0.7 + 0.3 * inversion x)).
  { rewrite Hai, Hvoc, Hemo, Hdiv.
    rewrite overallScore_Fin by lra. rewrite inversion_zero.
    f_equal. lra. }
  assert (Hin : 0.7 < 0.7 + 0.3 * inversion x <= 1).
  { unfold inversion. lra. }
  split.
  - eexists. split; [ exact Hscore | exact Hin ].
  - unfold aiSimilarityColor. rewrite Hscore.
    cbn [fromJSON getScoreColor sub]. unfold geb. cbn [leb].
    destruct (Rle_dec 0.7 (1 - (0.7 + 0.3 * inversion x))); [ lra | ].
    destruct (Rle_dec (1 - (0.7 + 0.3 * inversion x)) 0.3); [ | lra ].
    reflexivity.
Qed.

End Colours.

Lemma overall_colour_matches_label_witness :
  exists report,
    snd (Route.POST (L := Sample.lib) Sample.offline Sample.lateRequest)
    = Route.Status200 report
    /\ forall x,
         Route.overallHumanLikenessScore report = Fin x ->
         ResultsCard.overallColor report
         = ResultsCard.classificationColor (Route.classification report).
Proof.
  destruct lateRequest_report as [report Hreport].
  exists report. split; [ rewrite Hreport; reflexivity | ].
  intros x Hx.
  exact (proj1 (proj1 (@overall_colour_matches_label Sample.lib
                         Sample.offline Sample.lateRequest _ report Hreport)
                  x Hx)).
Defined.

Section NoAcademicWord.

Import AISimilarityScoring.
Local Open Scope R_scope.
Context {L : Lib}.

Lemma vocabulary_without_academic_word :
  forall (text : string) (v : number),
    tokenize text <> [] ->
    wordsInText getAcademicWordList (map stemLower (tokenize text)) = [] ->
    calculateVocabularyComplexity text = Ok v ->
    v <> Fin 1.
Proof.
  intros text v Hne Hnone H.
  unfold calculateVocabularyComplexity in H.
  rewrite Hnone in H.
  destruct (density_in_unit_interval connectorWords Hne)
    as (c & Hc & Hrc).
  rewrite Hc in H.
  assert (Hn : 0 < INR (List.length (tokenize text))).
  { destruct (tokenize text); [ contradiction | ].
    apply lt_0_INR. simpl. lia. }
  change (of_nat (List.length (@nil string))) with (Fin 0) in H.
  unfold of_nat in H at 1. rewrite (div_Fin_pos _ Hn) in H.
  destruct (buildMarkovChain (map stemLower (tokenize text)) [])
    as [m | e] eqn:Hchain; [ | discriminate ].
  destruct (@buildMarkovChain_successors
              (map stemLower (tokenize text)) [] m)
    as [Hsucc _]; [ constructor | exact Hchain | ].
  destruct (transitionOptions m) as [total count] eqn:Hopt.
  destruct (transitionOptions_bounds Hsucc Hopt) as [Hcount Hle].
  assert (Havg : exists t,
            (if (0 <? count)%nat
             then div (of_nat total) (of_nat count) else Fin 0) = Fin t).
  { destruct (0 <? count)%nat eqn:E.
    - apply Nat.ltb_lt in E.
      destruct (quotient_nat_bounds E Hle) as [-> _].
      eexists. reflexivity.
    - exists 0. reflexivity. }
  destruct Havg as (t & Havg).
  rewrite Havg, div_Fin_pos, Math_min_Fin in H by lra.
  cbn [mul add] in H. injection H as <-.
  intros E. injection E as E.
  pose proof (Rmin_r (t / 5) 1) as Hmin1.
  assert (H0 : 0 / INR (List.length (tokenize text)) = 0)
    by (unfold Rdiv; ring).
  rewrite H0 in E. lra.
Qed.

End NoAcademicWord.

Lemma ai_similarity_bar_inverted_witness :
  exists report,
    snd (Route.POST (L := Sample.lib) Sample.offline Sample.lateRequest)
    = Route.Status200 report
    /\ (exists x,
          Route.AiSimilarity.overallScore (Route.aiSimilarity report) = Fin x
          /\ (0.7 < x <= 1)%R)
    /\ ResultsCard.aiSimilarityColor report = "text-red-600"%string.
Proof.
  destruct lateRequest_report as [report Hreport].
  exists report. split; [ rewrite Hreport; reflexivity | ].
  assert (Htok : tokenize "I was late. Sorry!" <> [])
    by (vm_compute; discriminate).
  apply (@ai_similarity_bar_inverted Sample.lib Sample.offline
           Sample.lateRequest "I was late. Sorry!"%string _ report Hreport
           eq_refl ltac:(simpl; lia) Htok).
  destruct (POST_200_fields _ _ Hreport)
    as (t & v & Ht & Hv & Hvoc & _).
  injection Ht as <-. rewrite Hvoc.
  apply (@vocabulary_without_academic_word Sample.lib
           "I was late. Sorry!"%string v Htok); [ | exact Hv ].
  vm_compute. reflexivity.
Defined.
